(** * Vircadia Web SDK: entity-edit serialization core

    A shallow embedding of
      - src/domain/shared/DataViewExtensions.ts   (128-bit DataView accessors),
      - src/domain/octree/OctreePacketData.ts     (the typed appenders; its text
        follows that of ShapeEntityItem.ts in the file of that name),
      - src/domain/entities/RingGizmoPropertyGroup.ts,
      - src/domain/entities/ShapeEntityItem.ts    (the reader of the Shape
        properties),
    of the entity-edit encoder as the specification describes it (its source
    is absent; tests/domain/entities/EntityItemProperties.unit.test.js gives
    its scenarios), and the properties of them that the specification states.

    JavaScript values are modelled as they are at run time: numbers are
    IEEE-754 binary64 values ([spec_float]), bigints are [Z], byte offsets and
    lengths are the integers they denote ([Z]), a [DataView] is the sequence of
    its bytes, and a method that can raise ([RangeError] from a [DataView]
    access out of bounds, [TypeError] from reading a property of [null] or
    [undefined]) has a result that says so. *)

From Stdlib Require Import ZArith List Lia Bool String SpecFloat.
From stdpp Require Import base list gmap.
Import ListNotations.
Local Open Scope string_scope.
Local Open Scope list_scope.
Local Open Scope Z_scope.

(** ** Completions of effectful JavaScript code *)

Inductive JSError : Type := TypeError | RangeError.

(** The outcome of running a piece of code on a mutable store [S]: it returns
    a value or it throws, and in both cases it leaves a store behind. *)
Inductive Result (S A : Type) : Type :=
| Normal (a : A) (s : S)
| Throw (e : JSError) (s : S).
Arguments Normal {S A} a s.
Arguments Throw {S A} e s.

Definition M (S A : Type) : Type := S -> Result S A.

Definition ret {S A : Type} (a : A) : M S A := fun s => Normal a s.

Definition bind {S A B : Type} (m : M S A) (k : A -> M S B) : M S B :=
  fun s => match m s with
           | Normal a s' => k a s'
           | Throw e s' => Throw e s'
           end.

Definition gets {S A : Type} (f : S -> A) : M S A := fun s => Normal (f s) s.

Definition modify {S : Type} (f : S -> S) : M S unit := fun s => Normal tt (f s).

(** The sequencing notations [x ← m; k] and [m;; k] are stdpp's. *)
#[global] Instance M_ret {S : Type} : MRet (M S) := fun A a => ret a.
#[global] Instance M_bind {S : Type} : MBind (M S) := fun A B k m => bind m k.

(** ** DataView *)

(** A [DataView] is the sequence of the bytes it spans, each in [0, 256). *)
Abbreviation DataView := (list Z).

Definition byteLength (data : DataView) : Z := Z.of_nat (length data).

(** The [n] low-order bytes of [v], least significant first.  [v] is reduced
    modulo [2^(8n)], which is JavaScript's conversion to an unsigned integer of
    that width. *)
Fixpoint le_bytes (n : nat) (v : Z) : list Z :=
  match n with
  | O => []
  | S k => (v mod 256) :: le_bytes k (v / 256)
  end.

Definition uint_bytes (n : nat) (v : Z) (littleEndian : bool) : list Z :=
  if littleEndian then le_bytes n v else rev (le_bytes n v).

Fixpoint le_value (bs : list Z) : Z :=
  match bs with
  | [] => 0
  | b :: rest => b + 256 * le_value rest
  end.

Definition uint_value (bs : list Z) (littleEndian : bool) : Z :=
  le_value (if littleEndian then bs else rev bs).

(** Every accessor checks the whole range it touches before it touches any
    byte, and raises [RangeError] if the range leaves the view. *)
Definition in_view (data : DataView) (byteOffset size : Z) : bool :=
  (0 <=? byteOffset) && (byteOffset + size <=? byteLength data).

(** [data] with the bytes [bs] written over those at [offset ..]. *)
Definition splice (offset : nat) (bs : list Z) (data : DataView) : DataView :=
  take offset data ++ bs ++ drop (offset + length bs)%nat data.

Definition store (byteOffset : Z) (bs : list Z) : M DataView unit :=
  fun data =>
    if in_view data byteOffset (Z.of_nat (length bs)) then
      Normal tt (splice (Z.to_nat byteOffset) bs data)
    else Throw RangeError data.

Definition load (byteOffset : Z) (size : nat) : M DataView (list Z) :=
  fun data =>
    if in_view data byteOffset (Z.of_nat size) then
      Normal (take size (drop (Z.to_nat byteOffset) data)) data
    else Throw RangeError data.

Definition setUint8 (byteOffset value : Z) : M DataView unit :=
  store byteOffset (uint_bytes 1 value true).

Definition setUint16 (byteOffset value : Z) (littleEndian : bool) : M DataView unit :=
  store byteOffset (uint_bytes 2 value littleEndian).

Definition setUint32 (byteOffset value : Z) (littleEndian : bool) : M DataView unit :=
  store byteOffset (uint_bytes 4 value littleEndian).

Definition setBigUint64 (byteOffset value : Z) (littleEndian : bool) : M DataView unit :=
  store byteOffset (uint_bytes 8 value littleEndian).

Definition getBigUint64 (byteOffset : Z) (littleEndian : bool) : M DataView Z :=
  bs ← load byteOffset 8; ret (uint_value bs littleEndian).

(** ** src/domain/shared/DataViewExtensions.ts *)

Definition MAX_U128_VALUE : Z := 2 ^ 128 - 1.
Definition SHIFT_64_BITS : Z := 64.
Definition MASK_64_BITS : Z := 0xffffffffffffffff.

Definition setBigUint128 (byteOffset value : Z) (littleEndian : bool) : M DataView unit :=
  let sanitizedValue := if value >? MAX_U128_VALUE then 0 else value in
  if littleEndian then
    setBigUint64 (byteOffset + 8) (Z.shiftr sanitizedValue SHIFT_64_BITS) littleEndian;;
    setBigUint64 byteOffset (Z.land sanitizedValue MASK_64_BITS) littleEndian
  else
    setBigUint64 byteOffset (Z.shiftr sanitizedValue SHIFT_64_BITS) littleEndian;;
    setBigUint64 (byteOffset + 8) (Z.land sanitizedValue MASK_64_BITS) littleEndian.

Definition getBigUint128 (byteOffset : Z) (littleEndian : bool) : M DataView Z :=
  if littleEndian then
    (hi ← getBigUint64 (byteOffset + 8) littleEndian;
     lo ← getBigUint64 byteOffset littleEndian;
     ret (Z.shiftl hi SHIFT_64_BITS + lo))
  else
    (hi ← getBigUint64 byteOffset littleEndian;
     lo ← getBigUint64 (byteOffset + 8) littleEndian;
     ret (Z.shiftl hi SHIFT_64_BITS + lo)).

(** What [setBigUint128] leaves in the view: the two 64-bit halves of the
    sanitized value, most significant half first when big-endian. *)
Definition u128_bytes (value : Z) (littleEndian : bool) : list Z :=
  let sanitizedValue := if value >? MAX_U128_VALUE then 0 else value in
  let hi := uint_bytes 8 (Z.shiftr sanitizedValue SHIFT_64_BITS) littleEndian in
  let lo := uint_bytes 8 (Z.land sanitizedValue MASK_64_BITS) littleEndian in
  if littleEndian then lo ++ hi else hi ++ lo.

(** ** JavaScript values *)

(** Modelled from the spec: [Uuid] (src/domain/shared/Uuid.ts is not among the
    sources).  A UUID is a 128-bit identifier; the model of a [Uuid] object is
    what its two methods used here return: [value()], a bigint, and [isNull()]. *)
Record Uuid : Type := mkUuid { Uuid_value : Z; Uuid_isNull : bool }.

#[local] Set Warnings "-register-all".

(** The values an appender can be handed at run time.  A number is a binary64
    float; a string is its sequence of UTF-16 code units; a plain object is the
    list of its own data properties; an array is dense; an [ArrayBuffer] is
    attached and is its bytes. *)
Inductive JSValue : Type :=
| JSUndefined
| JSNull
| JSBoolean (b : bool)
| JSNumber (x : spec_float)
| JSBigInt (z : Z)
| JSString (units : list Z)
| JSObject (props : list (string * JSValue))
| JSArray (elements : list JSValue)
| JSArrayBuffer (bytes : list Z)
| JSUuid (u : Uuid).

(** The completion of evaluating an expression that touches no store. *)
Inductive Completion (A : Type) : Type :=
| Value (a : A)
| Abrupt (e : JSError).
Arguments Value {A} a.
Arguments Abrupt {A} e.

#[global] Instance Completion_ret : MRet Completion := fun A a => Value a.
#[global] Instance Completion_bind : MBind Completion :=
  fun A B k c => match c with Value a => k a | Abrupt e => Abrupt e end.

Definition lift {S A : Type} (c : Completion A) : M S A :=
  fun s => match c with Value a => Normal a s | Abrupt e => Throw e s end.

Definition typeof (v : JSValue) : string :=
  match v with
  | JSUndefined => "undefined"
  | JSBoolean _ => "boolean"
  | JSNumber _ => "number"
  | JSBigInt _ => "bigint"
  | JSString _ => "string"
  | JSNull | JSObject _ | JSArray _ | JSArrayBuffer _ | JSUuid _ => "object"
  end.

Fixpoint lookup_prop (name : string) (props : list (string * JSValue)) : JSValue :=
  match props with
  | [] => JSUndefined
  | (k, v) :: rest => if String.eqb k name then v else lookup_prop name rest
  end.

(** [o.name] for the property names used in this file ([x], [red], [corner],
    ...): reading a property of [undefined] or [null] raises [TypeError]; an
    object yields its property or [undefined]; the other values have no
    property of these names. *)
Definition get (o : JSValue) (name : string) : Completion JSValue :=
  match o with
  | JSUndefined | JSNull => Abrupt TypeError
  | JSObject props => Value (lookup_prop name props)
  | _ => Value JSUndefined
  end.

(** [typeof e === t] *)
Definition typeof_is (e : Completion JSValue) (t : string) : Completion bool :=
  v ← e; mret (String.eqb (typeof v) t).

(** [a && b] on booleans: [b] is evaluated only if [a] is true. *)
Definition and_then (a b : Completion bool) : Completion bool :=
  match a with
  | Value true => b
  | Value false => Value false
  | Abrupt e => Abrupt e
  end.
Infix "&&>" := and_then (at level 41, right associativity).

Definition ToBoolean (v : JSValue) : bool :=
  match v with
  | JSUndefined | JSNull => false
  | JSBoolean b => b
  | JSNumber (S754_zero _) | JSNumber S754_nan => false
  | JSNumber _ => true
  | JSBigInt z => negb (z =? 0)
  | JSString units => negb (Nat.eqb (length units) 0)
  | JSObject _ | JSArray _ | JSArrayBuffer _ | JSUuid _ => true
  end.

Definition Array_isArray (v : JSValue) : bool :=
  match v with JSArray _ => true | _ => false end.

(** The elements of an array ([[]] for what [Array.isArray] rejects, where the
    appenders do not look at them). *)
Definition elements_of (v : JSValue) : list JSValue :=
  match v with JSArray elements => elements | _ => [] end.

(** [value.every(callback)]: stops at the first element the callback rejects. *)
Fixpoint every (callback : JSValue -> Completion bool) (elements : list JSValue)
  : Completion bool :=
  match elements with
  | [] => mret true
  | element :: rest => callback element &&> every callback rest
  end.

(** ** JavaScript numbers *)

(** The binary64 value of an integer literal, and of a decimal literal
    [digits]e[exponent] with [0 <= exponent], both rounded to nearest even. *)
Definition num (z : Z) : spec_float := binary_normalize 53 1024 z 0 false.
Definition decimal (digits exponent : Z) : spec_float :=
  binary_normalize 53 1024 (digits * 10 ^ exponent) 0 false.

(** [a <= b].  Every comparison in this file stands behind a [typeof] test, so
    its operands are two numbers or (in [appendUint64Value]) a number and a
    bigint; these compare by value, a NaN operand giving [false].  Operands of
    other types do not reach a comparison. *)
Definition SFcompare_Z (x : spec_float) (z : Z) : option comparison :=
  match x with
  | S754_nan => None
  | S754_infinity s => Some (if s then Lt else Gt)
  | S754_zero _ => Some (0 ?= z)
  | S754_finite s m e =>
      let n := cond_Zopp s (Zpos m) in
      Some (if 0 <=? e then n * 2 ^ e ?= z else n ?= z * 2 ^ (- e))
  end.

Definition js_leb (a b : JSValue) : bool :=
  match a, b with
  | JSNumber x, JSNumber y => SFleb x y
  | JSBigInt x, JSBigInt y => x <=? y
  | JSNumber x, JSBigInt z =>
      match SFcompare_Z x z with Some (Lt | Eq) => true | _ => false end
  | JSBigInt z, JSNumber x =>
      match SFcompare_Z x z with Some (Gt | Eq) => true | _ => false end
  | _, _ => false
  end.

Definition le (a b : Completion JSValue) : Completion bool :=
  x ← a; y ← b; mret (js_leb x y).

(** [ToNumber], as [DataView]'s setters apply it to their argument.  The
    appenders pass only what their validity check found to be a number; the
    other cases are ECMAScript's where they are simple and NaN for strings and
    objects, which are parsed or asked for their primitive value there. *)
Definition ToNumber (v : JSValue) : spec_float :=
  match v with
  | JSNumber x => x
  | JSBoolean b => if b then num 1 else S754_zero false
  | JSNull => S754_zero false
  | _ => S754_nan
  end.

(** The integer a number is truncated to before it is reduced modulo [2^n] by
    [setUint8], [setUint16] and [setUint32]; NaN and the infinities give 0. *)
Definition truncate (x : spec_float) : Z :=
  match x with
  | S754_finite s m e =>
      cond_Zopp s (if 0 <=? e then Zpos m * 2 ^ e else Zpos m / 2 ^ (- e))
  | _ => 0
  end.

(** The binary32 value nearest to a number (ties to even), and its IEEE-754
    encoding; NaN is encoded as the quiet NaN 0x7fc00000. *)
Definition to_float32 (x : spec_float) : spec_float :=
  match x with
  | S754_finite s m e => binary_round 24 128 s m e
  | _ => x
  end.

Definition float32_bits (x : spec_float) : Z :=
  let sign (s : bool) := if s then 0x80000000 else 0 in
  match to_float32 x with
  | S754_zero s => sign s
  | S754_infinity s => sign s + 0x7f800000
  | S754_nan => 0x7fc00000
  | S754_finite s m e =>
      sign s + (if Zpos m <? 2 ^ 23 then Zpos m
                else (e + 150) * 2 ^ 23 + (Zpos m - 2 ^ 23))
  end.

Definition setFloat32 (byteOffset : Z) (value : spec_float) (littleEndian : bool)
  : M DataView unit :=
  store byteOffset (uint_bytes 4 (float32_bits value) littleEndian).

(** [TextEncoder.prototype.encode]: the UTF-8 encoding of a string given as
    UTF-16 code units; a surrogate that has no partner is encoded as U+FFFD. *)
Definition is_high_surrogate (u : Z) : bool := (0xD800 <=? u) && (u <=? 0xDBFF).
Definition is_low_surrogate (u : Z) : bool := (0xDC00 <=? u) && (u <=? 0xDFFF).

Definition utf8_code_point (c : Z) : list Z :=
  if c <? 0x80 then [c]
  else if c <? 0x800 then [0xC0 + c / 64; 0x80 + c mod 64]
  else if c <? 0x10000 then [0xE0 + c / 4096; 0x80 + (c / 64) mod 64; 0x80 + c mod 64]
  else [0xF0 + c / 262144; 0x80 + (c / 4096) mod 64; 0x80 + (c / 64) mod 64;
        0x80 + c mod 64].

Fixpoint utf8_encode (units : list Z) : list Z :=
  match units with
  | [] => []
  | u :: rest =>
      if is_high_surrogate u then
        match rest with
        | l :: rest' =>
            if is_low_surrogate l then
              utf8_code_point (0x10000 + (u - 0xD800) * 1024 + (l - 0xDC00))
                ++ utf8_encode rest'
            else utf8_code_point 0xFFFD ++ utf8_encode rest
        | [] => utf8_code_point 0xFFFD
        end
      else if is_low_surrogate u then utf8_code_point 0xFFFD ++ utf8_encode rest
      else utf8_code_point u ++ utf8_encode rest
  end.

(** [encode] applied to a value; the appender passes it a string only. *)
Definition TextEncoder_encode (v : JSValue) : list Z :=
  match v with JSString units => utf8_encode units | _ => [] end.

(** [value.byteLength] and the bytes [new DataView(value)] reads, for the
    [ArrayBuffer] the appender has checked [value] to be. *)
Definition ArrayBuffer_bytes (v : JSValue) : list Z :=
  match v with JSArrayBuffer bytes => bytes | _ => [] end.

(** [uuid.value()] and [uuid.isNull()]: calling them on what is not a [Uuid]
    raises [TypeError]. *)
Definition call_value (v : JSValue) : Completion Z :=
  match v with JSUuid u => Value (Uuid_value u) | _ => Abrupt TypeError end.
Definition call_isNull (v : JSValue) : Completion bool :=
  match v with JSUuid u => Value (Uuid_isNull u) | _ => Abrupt TypeError end.

Definition instanceof_Uuid (v : JSValue) : bool :=
  match v with JSUuid _ => true | _ => false end.
Definition instanceof_ArrayBuffer (v : JSValue) : bool :=
  match v with JSArrayBuffer _ => true | _ => false end.

(** [ToBigInt], as [setBigUint64] applies it: a number, [undefined] or [null]
    raises [TypeError] (strings, which are parsed, do not occur here). *)
Definition ToBigInt (v : JSValue) : Completion Z :=
  match v with
  | JSBigInt z => Value z
  | JSBoolean b => Value (if b then 1 else 0)
  | _ => Abrupt TypeError
  end.

(** ** The packet being written *)

(** Modelled from the spec: [PropertyFlags] (src/domain/shared/PropertyFlags.ts
    is not among the sources) has the semantics of a mathematical set of
    property identifiers, with [setHasProperty(id, bool)] and
    [getHasProperty(id)]. *)
Definition setHasProperty (flag : Z) (value : bool) (flags : gset Z) : gset Z :=
  if value then flags ∪ {[flag]} else flags ∖ {[flag]}.

Definition getHasProperty (flag : Z) (flags : gset Z) : bool :=
  bool_decide (flag ∈ flags).

(** Modelled from the spec: [AppendState] (src/domain/octree/OctreeElement.ts
    is not among the sources) is the enumeration COMPLETED, PARTIAL, NONE. *)
Inductive AppendState : Type := COMPLETED | PARTIAL | NONE.

(** Modelled from the spec: [UDT.LITTLE_ENDIAN] and [UDT.BIG_ENDIAN]
    (src/domain/networking/udt/UDT.ts is not among the sources) are the values
    of [DataView]'s [littleEndian] argument that select the two byte orders. *)
Definition LITTLE_ENDIAN : bool := true.
Definition BIG_ENDIAN : bool := false.

Record OctreePacketContext : Type := mkContext {
  propertiesToWrite : gset Z;
  propertiesWritten : gset Z;
  propertyCount : Z;
  appendState : AppendState
}.

(** What a call of an appender can read and change: the packet's bytes
    ([data]), the packet context ([packetContext]) and the console. *)
Record Store : Type := mkStore {
  data : list Z;
  packetContext : OctreePacketContext;
  console : list string
}.

Definition with_data (d : DataView) (s : Store) : Store :=
  mkStore d (packetContext s) (console s).

Definition with_context (c : OctreePacketContext) (s : Store) : Store :=
  mkStore (data s) c (console s).

(** A [DataView] method called on [data]. *)
Definition on_data {A : Type} (m : M DataView A) : M Store A :=
  fun s => match m (data s) with
           | Normal a d => Normal a (with_data d s)
           | Throw e d => Throw e (with_data d s)
           end.

Definition data_byteLength : M Store Z := gets (fun s => byteLength (data s)).

Definition console_error (message : string) : M Store unit :=
  modify (fun s => mkStore (data s) (packetContext s) (console s ++ [message])).

Definition propertiesToWrite_setHasProperty (flag : Z) (value : bool) : M Store unit :=
  modify (fun s =>
    let c := packetContext s in
    with_context (mkContext (setHasProperty flag value (propertiesToWrite c))
                    (propertiesWritten c) (propertyCount c) (appendState c)) s).

Definition propertiesWritten_setHasProperty (flag : Z) (value : bool) : M Store unit :=
  modify (fun s =>
    let c := packetContext s in
    with_context (mkContext (propertiesToWrite c)
                    (setHasProperty flag value (propertiesWritten c))
                    (propertyCount c) (appendState c)) s).

(** [packetContext.propertyCount += 1] *)
Definition propertyCount_increment : M Store unit :=
  modify (fun s =>
    let c := packetContext s in
    with_context (mkContext (propertiesToWrite c) (propertiesWritten c)
                    (propertyCount c + 1) (appendState c)) s).

(** [packetContext.appendState = state] *)
Definition appendState_assign (state : AppendState) : M Store unit :=
  modify (fun s =>
    let c := packetContext s in
    with_context (mkContext (propertiesToWrite c) (propertiesWritten c)
                    (propertyCount c) state) s).

(** [data.setUint8(byteOffset, e)] and its siblings, for an argument expression
    [e]: the expression is evaluated, converted, and written. *)
Definition data_setUint8 (byteOffset : Z) (e : Completion JSValue) : M Store unit :=
  v ← lift e; on_data (setUint8 byteOffset (truncate (ToNumber v))).

Definition data_setUint16 (byteOffset : Z) (e : Completion JSValue) (littleEndian : bool)
  : M Store unit :=
  v ← lift e; on_data (setUint16 byteOffset (truncate (ToNumber v)) littleEndian).

Definition data_setUint32 (byteOffset : Z) (e : Completion JSValue) (littleEndian : bool)
  : M Store unit :=
  v ← lift e; on_data (setUint32 byteOffset (truncate (ToNumber v)) littleEndian).

Definition data_setFloat32 (byteOffset : Z) (e : Completion JSValue) (littleEndian : bool)
  : M Store unit :=
  v ← lift e; on_data (setFloat32 byteOffset (ToNumber v) littleEndian).

Definition data_setBigUint64 (byteOffset : Z) (e : Completion JSValue) (littleEndian : bool)
  : M Store unit :=
  v ← lift e; z ← lift (ToBigInt v); on_data (setBigUint64 byteOffset z littleEndian).

Definition data_setBigUint128 (byteOffset : Z) (e : Completion Z) (littleEndian : bool)
  : M Store unit :=
  z ← lift e; on_data (setBigUint128 byteOffset z littleEndian).

(** A variable or a number literal as an expression, and [e.name]. *)
Definition var (v : JSValue) : Completion JSValue := Value v.
Definition lit (x : spec_float) : Completion JSValue := Value (JSNumber x).
Definition member (e : Completion JSValue) (name : string) : Completion JSValue :=
  o ← e; get o name.
Coercion var : JSValue >-> Completion.
Notation "e # name" := (member e name) (at level 2, left associativity, format "e # name").

(** ** src/domain/octree/OctreePacketData.ts *)

(** [const MAX_FLOAT32 = 3.4028235e38] *)
Definition MAX_FLOAT32 : spec_float := decimal 34028235 31.

(** [for (let i = 0; i < bytes.length; i += 1) { data.setUint8(startIndex + i, bytes[i]); }] *)
Fixpoint copyBytes (bytes : list Z) (startIndex i : Z) : M Store unit :=
  match bytes with
  | [] => mret tt
  | b :: rest => on_data (setUint8 (startIndex + i) b);; copyBytes rest startIndex (i + 1)
  end.

(** [let index = ...; for (const element of value) { body(index, element); index += stride; }],
    which is also the shape of the [forEach] callbacks that advance [index]. *)
Fixpoint forEach (elements : list JSValue) (index stride : Z)
    (body : Z -> JSValue -> M Store unit) : M Store unit :=
  match elements with
  | [] => mret tt
  | element :: rest => body index element;; forEach rest (index + stride) stride body
  end.

(** The loop of [appendBooleanArray]: [bit] and [current] accumulate up to eight
    elements, written as one byte when the eighth or the last element is reached
    ([rest = []] is [i === length - 1]). *)
Fixpoint packBooleans (elements : list JSValue) (index bit current : Z) : M Store unit :=
  match elements with
  | [] => mret tt
  | element :: rest =>
      let current := if ToBoolean element then Z.lor current (Z.shiftl 1 bit) else current in
      let bit := (bit + 1) mod 8 in
      if (bit =? 0) || (match rest with [] => true | _ => false end) then
        on_data (setUint8 index current);; packBooleans rest (index + 1) bit 0
      else packBooleans rest index bit current
  end.

Section OctreePacketData.

(** Modelled from the spec: [GLMHelpers.packOrientationQuatToBytes]
    (src/domain/shared/GLMHelpers.ts is not among the sources) packs a
    quaternion into 8 bytes at the given position.  [packedQuat] is the 64-bit
    image it computes, taken as a parameter. *)
Variable packedQuat : JSValue -> Z.

Definition packOrientationQuatToBytes (dataPosition : Z) (quatInput : JSValue)
  : M Store unit :=
  on_data (store dataPosition (uint_bytes 8 (packedQuat quatInput) LITTLE_ENDIAN)).

Definition validAACubeValue (value : JSValue) : Completion bool :=
  typeof_is value#"corner" "object" &&> typeof_is value#"corner"#"x" "number"
  &&> typeof_is value#"corner"#"y" "number" &&> typeof_is value#"corner"#"z" "number"
  &&> typeof_is value#"scale" "number"
  &&> le (lit (SFopp MAX_FLOAT32)) value#"corner"#"x" &&> le value#"corner"#"x" (lit MAX_FLOAT32)
  &&> le (lit (SFopp MAX_FLOAT32)) value#"corner"#"y" &&> le value#"corner"#"y" (lit MAX_FLOAT32)
  &&> le (lit (SFopp MAX_FLOAT32)) value#"corner"#"z" &&> le value#"corner"#"z" (lit MAX_FLOAT32)
  &&> le (lit (num 0)) value#"scale" &&> le value#"scale" (lit MAX_FLOAT32).

Definition appendAACubeValue (dataPosition flag : Z) (value : JSValue)
  : M Store Z :=
  valid ← lift (validAACubeValue value);
  if negb valid then
    (console_error "[EntityServer] Cannot write invalid AACube value to packet!";;
     mret 0)
  else
    let NUM_BYTES := 16 in
    byteLength ← data_byteLength;
    if dataPosition + NUM_BYTES <=? byteLength then
      (data_setFloat32 dataPosition value#"corner"#"x" LITTLE_ENDIAN;;
       data_setFloat32 (dataPosition + 4) value#"corner"#"y" LITTLE_ENDIAN;;
       data_setFloat32 (dataPosition + 8) value#"corner"#"z" LITTLE_ENDIAN;;
       data_setFloat32 (dataPosition + 12) value#"scale" LITTLE_ENDIAN;;
       propertiesToWrite_setHasProperty flag false;;
       propertiesWritten_setHasProperty flag true;;
       propertyCount_increment;;
       mret NUM_BYTES)
    else
      (appendState_assign PARTIAL;;
       mret 0).

Definition validArrayBufferValue (value : JSValue) : Completion bool :=
  mret (instanceof_ArrayBuffer value).

Definition appendArrayBufferValue (dataPosition flag : Z) (value : JSValue)
  : M Store Z :=
  valid ← lift (validArrayBufferValue value);
  if negb valid then
    (console_error "[EntityServer] Cannot write invalid ArrayBuffer value to packet!";;
     mret 0)
  else
    let NUM_BYTES := 2 + Z.of_nat (length (ArrayBuffer_bytes value)) in
    byteLength ← data_byteLength;
    if dataPosition + NUM_BYTES <=? byteLength then
      (on_data (setUint16 dataPosition (Z.of_nat (length (ArrayBuffer_bytes value)))
                  LITTLE_ENDIAN);;
       (let startIndex := dataPosition + 2 in
        copyBytes (ArrayBuffer_bytes value) startIndex 0);;
       propertiesToWrite_setHasProperty flag false;;
       propertiesWritten_setHasProperty flag true;;
       propertyCount_increment;;
       mret NUM_BYTES)
    else
      (appendState_assign PARTIAL;;
       mret 0).

(** [NUM_BYTES] below is [2 + Math.ceil(value.length / 8)]; the ceiling of
    [n / 8] is [(n + 7) / 8] in integers. *)
Definition validBooleanArray (value : JSValue) : Completion bool :=
  mret (Array_isArray value)
  &&> mret (Z.of_nat (length (elements_of value)) <=? 0xffff)
  &&> every (fun element => typeof_is element "boolean") (elements_of value).

Definition appendBooleanArray (dataPosition flag : Z) (value : JSValue)
  : M Store Z :=
  valid ← lift (validBooleanArray value);
  if negb valid then
    (console_error "[EntityServer] Cannot write invalid boolean array to packet!";;
     mret 0)
  else
    let NUM_BYTES := 2 + (Z.of_nat (length (elements_of value)) + 7) / 8 in
    byteLength ← data_byteLength;
    if dataPosition + NUM_BYTES <=? byteLength then
      (on_data (setUint16 dataPosition (Z.of_nat (length (elements_of value)))
                  LITTLE_ENDIAN);;
       (let index := dataPosition + 2 in
        packBooleans (elements_of value) index 0 0);;
       propertiesToWrite_setHasProperty flag false;;
       propertiesWritten_setHasProperty flag true;;
       propertyCount_increment;;
       mret NUM_BYTES)
    else
      (appendState_assign PARTIAL;;
       mret 0).

Definition validBooleanValue (value : JSValue) : Completion bool :=
  typeof_is value "boolean".

Definition appendBooleanValue (dataPosition flag : Z) (value : JSValue)
  : M Store Z :=
  valid ← lift (validBooleanValue value);
  if negb valid then
    (console_error "[EntityServer] Cannot write invalid boolean value to packet!";;
     mret 0)
  else
    let NUM_BYTES := 1 in
    byteLength ← data_byteLength;
    if dataPosition + NUM_BYTES <=? byteLength then
      (on_data (setUint8 dataPosition (if ToBoolean value then 1 else 0));;
       propertiesToWrite_setHasProperty flag false;;
       propertiesWritten_setHasProperty flag true;;
       propertyCount_increment;;
       mret NUM_BYTES)
    else
      (appendState_assign PARTIAL;;
       mret 0).

Definition validColorValue (value : JSValue) : Completion bool :=
  typeof_is value#"red" "number" &&> typeof_is value#"green" "number"
  &&> typeof_is value#"blue" "number".

Definition appendColorValue (dataPosition flag : Z) (value : JSValue)
  : M Store Z :=
  valid ← lift (validColorValue value);
  if negb valid then
    (console_error "[EntityServer] Cannot write invalid color value to packet!";;
     mret 0)
  else
    let NUM_BYTES := 3 in
    byteLength ← data_byteLength;
    if dataPosition + NUM_BYTES <=? byteLength then
      (data_setUint8 dataPosition value#"red";;
       data_setUint8 (dataPosition + 1) value#"green";;
       data_setUint8 (dataPosition + 2) value#"blue";;
       propertiesToWrite_setHasProperty flag false;;
       propertiesWritten_setHasProperty flag true;;
       propertyCount_increment;;
       mret NUM_BYTES)
    else
      (appendState_assign PARTIAL;;
       mret 0).

Definition validFloat32Value (value : JSValue) : Completion bool :=
  typeof_is value "number"
  &&> le (lit (SFopp MAX_FLOAT32)) value &&> le value (lit MAX_FLOAT32).

Definition appendFloat32Value (dataPosition flag : Z) (value : JSValue) (littleEndian : bool)
  : M Store Z :=
  valid ← lift (validFloat32Value value);
  if negb valid then
    (console_error "[EntityServer] Cannot write invalid float32 value to packet!";;
     mret 0)
  else
    let NUM_BYTES := 4 in
    byteLength ← data_byteLength;
    if dataPosition + NUM_BYTES <=? byteLength then
      (data_setFloat32 dataPosition value littleEndian;;
       propertiesToWrite_setHasProperty flag false;;
       propertiesWritten_setHasProperty flag true;;
       propertyCount_increment;;
       mret NUM_BYTES)
    else
      (appendState_assign PARTIAL;;
       mret 0).

Definition validQuatArray (value : JSValue) : Completion bool :=
  mret (Array_isArray value)
  &&> mret (Z.of_nat (length (elements_of value)) <=? 0xffff)
  &&> every (fun element =>
        typeof_is element "object" &&> typeof_is element#"x" "number"
        &&> typeof_is element#"y" "number" &&> typeof_is element#"z" "number"
        &&> typeof_is element#"w" "number") (elements_of value).

Definition appendQuatArray (dataPosition flag : Z) (value : JSValue)
  : M Store Z :=
  valid ← lift (validQuatArray value);
  if negb valid then
    (console_error "[EntityServer] Cannot write invalid quat array to packet!";;
     mret 0)
  else
    let NUM_BYTES := 2 + Z.of_nat (length (elements_of value)) * 8 in
    byteLength ← data_byteLength;
    if dataPosition + NUM_BYTES <=? byteLength then
      (on_data (setUint16 dataPosition (Z.of_nat (length (elements_of value)))
                  LITTLE_ENDIAN);;
       (let index := dataPosition + 2 in
        forEach (elements_of value) index 8 (fun index element =>
          packOrientationQuatToBytes index element));;
       propertiesToWrite_setHasProperty flag false;;
       propertiesWritten_setHasProperty flag true;;
       propertyCount_increment;;
       mret NUM_BYTES)
    else
      (appendState_assign PARTIAL;;
       mret 0).

Definition validQuatValue (value : JSValue) : Completion bool :=
  typeof_is value#"x" "number" &&> typeof_is value#"y" "number"
  &&> typeof_is value#"z" "number" &&> typeof_is value#"w" "number".

Definition appendQuatValue (dataPosition flag : Z) (value : JSValue)
  : M Store Z :=
  valid ← lift (validQuatValue value);
  if negb valid then
    (console_error "[EntityServer] Cannot write invalid quat value to packet!";;
     mret 0)
  else
    let NUM_BYTES := 8 in
    byteLength ← data_byteLength;
    if dataPosition + NUM_BYTES <=? byteLength then
      (packOrientationQuatToBytes dataPosition value;;
       propertiesToWrite_setHasProperty flag false;;
       propertiesWritten_setHasProperty flag true;;
       propertyCount_increment;;
       mret NUM_BYTES)
    else
      (appendState_assign PARTIAL;;
       mret 0).

Definition validRectValue (value : JSValue) : Completion bool :=
  typeof_is value#"x" "number" &&> typeof_is value#"y" "number"
  &&> typeof_is value#"width" "number" &&> typeof_is value#"height" "number".

Definition appendRectValue (dataPosition flag : Z) (value : JSValue)
  : M Store Z :=
  valid ← lift (validRectValue value);
  if negb valid then
    (console_error "[EntityServer] Cannot write invalid rect value to packet!";;
     mret 0)
  else
    let NUM_BYTES := 16 in
    byteLength ← data_byteLength;
    if dataPosition + NUM_BYTES <=? byteLength then
      (data_setUint32 dataPosition value#"x" LITTLE_ENDIAN;;
       data_setUint32 (dataPosition + 4) value#"y" LITTLE_ENDIAN;;
       data_setUint32 (dataPosition + 8) value#"width" LITTLE_ENDIAN;;
       data_setUint32 (dataPosition + 12) value#"height" LITTLE_ENDIAN;;
       propertiesToWrite_setHasProperty flag false;;
       propertiesWritten_setHasProperty flag true;;
       propertyCount_increment;;
       mret NUM_BYTES)
    else
      (appendState_assign PARTIAL;;
       mret 0).

Definition validStringValue (value : JSValue) : Completion bool :=
  typeof_is value "string".

Definition appendStringValue (dataPosition flag : Z) (value : JSValue)
  : M Store Z :=
  valid ← lift (validStringValue value);
  if negb valid then
    (console_error "[EntityServer] Cannot write invalid string value to packet!";;
     mret 0)
  else
    let utf8 := TextEncoder_encode value in
    let NUM_BYTES := 2 + Z.of_nat (length utf8) in
    byteLength ← data_byteLength;
    if dataPosition + NUM_BYTES <=? byteLength then
      (on_data (setUint16 dataPosition (Z.of_nat (length utf8)) LITTLE_ENDIAN);;
       (let startIndex := dataPosition + 2 in
        copyBytes utf8 startIndex 0);;
       propertiesToWrite_setHasProperty flag false;;
       propertiesWritten_setHasProperty flag true;;
       propertyCount_increment;;
       mret NUM_BYTES)
    else
      (appendState_assign PARTIAL;;
       mret 0).

Definition validUint8Value (value : JSValue) : Completion bool :=
  typeof_is value "number" &&> le (lit (num 0)) value &&> le value (lit (num 0xff)).

Definition appendUint8Value (dataPosition flag : Z) (value : JSValue)
  : M Store Z :=
  valid ← lift (validUint8Value value);
  if negb valid then
    (console_error "[EntityServer] Cannot write invalid uint8 value to packet!";;
     mret 0)
  else
    let NUM_BYTES := 1 in
    byteLength ← data_byteLength;
    if dataPosition + NUM_BYTES <=? byteLength then
      (data_setUint8 dataPosition value;;
       propertiesToWrite_setHasProperty flag false;;
       propertiesWritten_setHasProperty flag true;;
       propertyCount_increment;;
       mret NUM_BYTES)
    else
      (appendState_assign PARTIAL;;
       mret 0).

Definition validUint16Value (value : JSValue) : Completion bool :=
  typeof_is value "number" &&> le (lit (num 0)) value &&> le value (lit (num 0xffff)).

Definition appendUint16Value (dataPosition flag : Z) (value : JSValue) (littleEndian : bool)
  : M Store Z :=
  valid ← lift (validUint16Value value);
  if negb valid then
    (console_error "[EntityServer] Cannot write invalid uint16 value to packet!";;
     mret 0)
  else
    let NUM_BYTES := 2 in
    byteLength ← data_byteLength;
    if dataPosition + NUM_BYTES <=? byteLength then
      (data_setUint16 dataPosition value littleEndian;;
       propertiesToWrite_setHasProperty flag false;;
       propertiesWritten_setHasProperty flag true;;
       propertyCount_increment;;
       mret NUM_BYTES)
    else
      (appendState_assign PARTIAL;;
       mret 0).

Definition validUint32Value (value : JSValue) : Completion bool :=
  typeof_is value "number" &&> le (lit (num 0)) value &&> le value (lit (num 0xffffffff)).

Definition appendUint32Value (dataPosition flag : Z) (value : JSValue) (littleEndian : bool)
  : M Store Z :=
  valid ← lift (validUint32Value value);
  if negb valid then
    (console_error "[EntityServer] Cannot write invalid uint32 value to packet!";;
     mret 0)
  else
    let NUM_BYTES := 4 in
    byteLength ← data_byteLength;
    if dataPosition + NUM_BYTES <=? byteLength then
      (data_setUint32 dataPosition value littleEndian;;
       propertiesToWrite_setHasProperty flag false;;
       propertiesWritten_setHasProperty flag true;;
       propertyCount_increment;;
       mret NUM_BYTES)
    else
      (appendState_assign PARTIAL;;
       mret 0).

Definition validUint64Value (value : JSValue) : Completion bool :=
  typeof_is value "bigint"
  &&> le (lit (num 0)) value &&> le value (var (JSBigInt 0xffffffffffffffff)).

Definition appendUint64Value (dataPosition flag : Z) (value : JSValue) (littleEndian : bool)
  : M Store Z :=
  valid ← lift (validUint64Value value);
  if negb valid then
    (console_error "[EntityServer] Cannot write invalid uint64 value to packet!";;
     mret 0)
  else
    let NUM_BYTES := 8 in
    byteLength ← data_byteLength;
    if dataPosition + NUM_BYTES <=? byteLength then
      (data_setBigUint64 dataPosition value littleEndian;;
       propertiesToWrite_setHasProperty flag false;;
       propertiesWritten_setHasProperty flag true;;
       propertyCount_increment;;
       mret NUM_BYTES)
    else
      (appendState_assign PARTIAL;;
       mret 0).

Definition validUuidArray (value : JSValue) : Completion bool :=
  mret (Array_isArray value)
  &&> mret (Z.of_nat (length (elements_of value)) <=? 0xffff)
  &&> every (fun element => mret (instanceof_Uuid element)) (elements_of value).

Definition appendUuidArray (dataPosition flag : Z) (value : JSValue)
  : M Store Z :=
  valid ← lift (validUuidArray value);
  if negb valid then
    (console_error "[EntityServer] Cannot write invalid UUID array to packet!";;
     mret 0)
  else
    let NUM_BYTES := 2 + Z.of_nat (length (elements_of value)) * 16 in
    byteLength ← data_byteLength;
    if dataPosition + NUM_BYTES <=? byteLength then
      (on_data (setUint16 dataPosition (Z.of_nat (length (elements_of value)))
                  LITTLE_ENDIAN);;
       (let index := dataPosition + 2 in
        forEach (elements_of value) index 16 (fun index uuid =>
          data_setBigUint128 index (call_value uuid) BIG_ENDIAN));;
       propertiesToWrite_setHasProperty flag false;;
       propertiesWritten_setHasProperty flag true;;
       propertyCount_increment;;
       mret NUM_BYTES)
    else
      (appendState_assign PARTIAL;;
       mret 0).

Definition validUuidValue (value : JSValue) : Completion bool :=
  mret (instanceof_Uuid value).

(** The two branches of the source fall through to the common
    [appendState = PARTIAL; return 0] when the bytes do not fit. *)
Definition appendUuidValue (dataPosition flag : Z) (value : JSValue) : M Store Z :=
  valid ← lift (validUuidValue value);
  if negb valid then
    (console_error "[EntityServer] Cannot write invalid UUID value to packet!";;
     mret 0)
  else
    isNull ← lift (call_isNull value);
    if isNull : bool then
      let NUM_BYTES := 2 in
      byteLength ← data_byteLength;
      if dataPosition + NUM_BYTES <=? byteLength then
        (on_data (setUint16 dataPosition 0 LITTLE_ENDIAN);;
         propertiesToWrite_setHasProperty flag false;;
         propertiesWritten_setHasProperty flag true;;
         propertyCount_increment;;
         mret NUM_BYTES)
      else
        (appendState_assign PARTIAL;;
         mret 0)
    else
      let NUM_LENGTH_BYTES := 2 in
      let NUM_VALUE_BYTES := 16 in
      byteLength ← data_byteLength;
      if dataPosition + NUM_LENGTH_BYTES + NUM_VALUE_BYTES <=? byteLength then
        (on_data (setUint16 dataPosition NUM_VALUE_BYTES LITTLE_ENDIAN);;
         data_setBigUint128 (dataPosition + NUM_LENGTH_BYTES) (call_value value) BIG_ENDIAN;;
         propertiesToWrite_setHasProperty flag false;;
         propertiesWritten_setHasProperty flag true;;
         propertyCount_increment;;
         mret (NUM_LENGTH_BYTES + NUM_VALUE_BYTES))
      else
        (appendState_assign PARTIAL;;
         mret 0).

Definition validVec2Value (value : JSValue) : Completion bool :=
  typeof_is value#"x" "number" &&> typeof_is value#"y" "number"
  &&> le (lit (SFopp MAX_FLOAT32)) value#"x" &&> le value#"x" (lit MAX_FLOAT32)
  &&> le (lit (SFopp MAX_FLOAT32)) value#"y" &&> le value#"y" (lit MAX_FLOAT32).

Definition appendVec2Value (dataPosition flag : Z) (value : JSValue)
  : M Store Z :=
  valid ← lift (validVec2Value value);
  if negb valid then
    (console_error "[EntityServer] Cannot write invalid vec2 value to packet!";;
     mret 0)
  else
    let NUM_BYTES := 8 in
    byteLength ← data_byteLength;
    if dataPosition + NUM_BYTES <=? byteLength then
      (data_setFloat32 dataPosition value#"x" LITTLE_ENDIAN;;
       data_setFloat32 (dataPosition + 4) value#"y" LITTLE_ENDIAN;;
       propertiesToWrite_setHasProperty flag false;;
       propertiesWritten_setHasProperty flag true;;
       propertyCount_increment;;
       mret NUM_BYTES)
    else
      (appendState_assign PARTIAL;;
       mret 0).

Definition validVec3 (element : JSValue) : Completion bool :=
  typeof_is element#"x" "number" &&> typeof_is element#"y" "number"
  &&> typeof_is element#"z" "number"
  &&> le (lit (SFopp MAX_FLOAT32)) element#"x" &&> le element#"x" (lit MAX_FLOAT32)
  &&> le (lit (SFopp MAX_FLOAT32)) element#"y" &&> le element#"y" (lit MAX_FLOAT32)
  &&> le (lit (SFopp MAX_FLOAT32)) element#"z" &&> le element#"z" (lit MAX_FLOAT32).

Definition validVec3Array (value : JSValue) : Completion bool :=
  mret (Array_isArray value)
  &&> mret (Z.of_nat (length (elements_of value)) <=? 0xffff)
  &&> every validVec3 (elements_of value).

Definition appendVec3Array (dataPosition flag : Z) (value : JSValue)
  : M Store Z :=
  valid ← lift (validVec3Array value);
  if negb valid then
    (console_error "[EntityServer] Cannot write invalid vec3 array to packet!";;
     mret 0)
  else
    let NUM_BYTES := 2 + Z.of_nat (length (elements_of value)) * 12 in
    byteLength ← data_byteLength;
    if dataPosition + NUM_BYTES <=? byteLength then
      (on_data (setUint16 dataPosition (Z.of_nat (length (elements_of value)))
                  LITTLE_ENDIAN);;
       (let index := dataPosition + 2 in
        forEach (elements_of value) index 12 (fun index element =>
          data_setFloat32 index element#"x" LITTLE_ENDIAN;;
          data_setFloat32 (index + 4) element#"y" LITTLE_ENDIAN;;
          data_setFloat32 (index + 8) element#"z" LITTLE_ENDIAN));;
       propertiesToWrite_setHasProperty flag false;;
       propertiesWritten_setHasProperty flag true;;
       propertyCount_increment;;
       mret NUM_BYTES)
    else
      (appendState_assign PARTIAL;;
       mret 0).

Definition validVec3Value (value : JSValue) : Completion bool :=
  validVec3 value.

Definition appendVec3Value (dataPosition flag : Z) (value : JSValue)
  : M Store Z :=
  valid ← lift (validVec3Value value);
  if negb valid then
    (console_error "[EntityServer] Cannot write invalid vec3 value to packet!";;
     mret 0)
  else
    let NUM_BYTES := 12 in
    byteLength ← data_byteLength;
    if dataPosition + NUM_BYTES <=? byteLength then
      (data_setFloat32 dataPosition value#"x" LITTLE_ENDIAN;;
       data_setFloat32 (dataPosition + 4) value#"y" LITTLE_ENDIAN;;
       data_setFloat32 (dataPosition + 8) value#"z" LITTLE_ENDIAN;;
       propertiesToWrite_setHasProperty flag false;;
       propertiesWritten_setHasProperty flag true;;
       propertyCount_increment;;
       mret NUM_BYTES)
    else
      (appendState_assign PARTIAL;;
       mret 0).

(** *** Every typed appender *)

Inductive Appender : Type :=
| AACubeValue | ArrayBufferValue | BooleanArray | BooleanValue | ColorValue
| Float32Value | QuatArray | QuatValue | RectValue | StringValue
| Uint8Value | Uint16Value | Uint32Value | Uint64Value
| UuidArray | UuidValue | Vec2Value | Vec3Array | Vec3Value.

(** The call [OctreePacketData.append<a>(data, dataPosition, flag, value,
    [littleEndian,] packetContext)]; [littleEndian] is an argument of the
    float32 and uint16/32/64 appenders only. *)
Definition append (a : Appender) (dataPosition flag : Z) (value : JSValue)
    (littleEndian : bool) : M Store Z :=
  match a with
  | AACubeValue => appendAACubeValue dataPosition flag value
  | ArrayBufferValue => appendArrayBufferValue dataPosition flag value
  | BooleanArray => appendBooleanArray dataPosition flag value
  | BooleanValue => appendBooleanValue dataPosition flag value
  | ColorValue => appendColorValue dataPosition flag value
  | Float32Value => appendFloat32Value dataPosition flag value littleEndian
  | QuatArray => appendQuatArray dataPosition flag value
  | QuatValue => appendQuatValue dataPosition flag value
  | RectValue => appendRectValue dataPosition flag value
  | StringValue => appendStringValue dataPosition flag value
  | Uint8Value => appendUint8Value dataPosition flag value
  | Uint16Value => appendUint16Value dataPosition flag value littleEndian
  | Uint32Value => appendUint32Value dataPosition flag value littleEndian
  | Uint64Value => appendUint64Value dataPosition flag value littleEndian
  | UuidArray => appendUuidArray dataPosition flag value
  | UuidValue => appendUuidValue dataPosition flag value
  | Vec2Value => appendVec2Value dataPosition flag value
  | Vec3Array => appendVec3Array dataPosition flag value
  | Vec3Value => appendVec3Value dataPosition flag value
  end.

End OctreePacketData.

(** The validity check of each appender (its [const valid = ...]). *)
Definition valid (a : Appender) (value : JSValue) : Completion bool :=
  match a with
  | AACubeValue => validAACubeValue value
  | ArrayBufferValue => validArrayBufferValue value
  | BooleanArray => validBooleanArray value
  | BooleanValue => validBooleanValue value
  | ColorValue => validColorValue value
  | Float32Value => validFloat32Value value
  | QuatArray => validQuatArray value
  | QuatValue => validQuatValue value
  | RectValue => validRectValue value
  | StringValue => validStringValue value
  | Uint8Value => validUint8Value value
  | Uint16Value => validUint16Value value
  | Uint32Value => validUint32Value value
  | Uint64Value => validUint64Value value
  | UuidArray => validUuidArray value
  | UuidValue => validUuidValue value
  | Vec2Value => validVec2Value value
  | Vec3Array => validVec3Array value
  | Vec3Value => validVec3Value value
  end.

(** The appenders whose argument is a JavaScript array. *)
Definition is_array_appender (a : Appender) : bool :=
  match a with
  | BooleanArray | QuatArray | UuidArray | Vec3Array => true
  | _ => false
  end.

(** The message each appender logs for an invalid value. *)
Definition errorMessage (a : Appender) : string :=
  match a with
  | AACubeValue => "[EntityServer] Cannot write invalid AACube value to packet!"
  | ArrayBufferValue => "[EntityServer] Cannot write invalid ArrayBuffer value to packet!"
  | BooleanArray => "[EntityServer] Cannot write invalid boolean array to packet!"
  | BooleanValue => "[EntityServer] Cannot write invalid boolean value to packet!"
  | ColorValue => "[EntityServer] Cannot write invalid color value to packet!"
  | Float32Value => "[EntityServer] Cannot write invalid float32 value to packet!"
  | QuatArray => "[EntityServer] Cannot write invalid quat array to packet!"
  | QuatValue => "[EntityServer] Cannot write invalid quat value to packet!"
  | RectValue => "[EntityServer] Cannot write invalid rect value to packet!"
  | StringValue => "[EntityServer] Cannot write invalid string value to packet!"
  | Uint8Value => "[EntityServer] Cannot write invalid uint8 value to packet!"
  | Uint16Value => "[EntityServer] Cannot write invalid uint16 value to packet!"
  | Uint32Value => "[EntityServer] Cannot write invalid uint32 value to packet!"
  | Uint64Value => "[EntityServer] Cannot write invalid uint64 value to packet!"
  | UuidArray => "[EntityServer] Cannot write invalid UUID array to packet!"
  | UuidValue => "[EntityServer] Cannot write invalid UUID value to packet!"
  | Vec2Value => "[EntityServer] Cannot write invalid vec2 value to packet!"
  | Vec3Array => "[EntityServer] Cannot write invalid vec3 array to packet!"
  | Vec3Value => "[EntityServer] Cannot write invalid vec3 value to packet!"
  end.

(** The serialized size of a value, as the specification tabulates it:
    bool 1, u8 1, u16 2, u32 4, u64 8, f32 4, color 3, vec2 8, vec3 12,
    packed quat 8, rect 16, AACube 16, string and byte array 2 + their
    bytes, quat array 2 + 8n, vec3 array 2 + 12n, UUID array 2 + 16n, UUID 2
    when null and 18 otherwise, boolean array 2 + ceil(n / 8). *)
Definition serializedSize (a : Appender) (value : JSValue) : Z :=
  let n := Z.of_nat (length (elements_of value)) in
  match a with
  | BooleanValue | Uint8Value => 1
  | Uint16Value => 2
  | Uint32Value | Float32Value => 4
  | Uint64Value | Vec2Value | QuatValue => 8
  | ColorValue => 3
  | Vec3Value => 12
  | RectValue | AACubeValue => 16
  | StringValue => 2 + Z.of_nat (length (TextEncoder_encode value))
  | ArrayBufferValue => 2 + Z.of_nat (length (ArrayBuffer_bytes value))
  | QuatArray => 2 + 8 * n
  | Vec3Array => 2 + 12 * n
  | UuidArray => 2 + 16 * n
  | UuidValue =>
      match value with
      | JSUuid u => if Uuid_isNull u then 2 else 18
      | _ => 0
      end
  | BooleanArray => 2 + (n + 7) / 8
  end.

(** The packet context after a successful append of [flag], and after one that
    did not fit. *)
Definition committed (flag : Z) (c : OctreePacketContext) : OctreePacketContext :=
  mkContext (propertiesToWrite c ∖ {[flag]}) (propertiesWritten c ∪ {[flag]})
    (propertyCount c + 1) (appendState c).

Definition partial (c : OctreePacketContext) : OctreePacketContext :=
  mkContext (propertiesToWrite c) (propertiesWritten c) (propertyCount c) PARTIAL.

(** ** src/domain/entities/RingGizmoPropertyGroup.ts *)

(** Modelled from the spec: the ring-gizmo members of [EntityPropertyList]
    (src/domain/entities/EntityPropertyFlags.ts is not among the sources).  The
    numbers of the property identifiers are taken as a parameter, this record. *)
Record RingGizmoPropertyList : Type := mkRingGizmoPropertyList {
  PROP_START_ANGLE : Z;
  PROP_END_ANGLE : Z;
  PROP_INNER_RADIUS : Z;
  PROP_INNER_START_COLOR : Z;
  PROP_INNER_END_COLOR : Z;
  PROP_OUTER_START_COLOR : Z;
  PROP_OUTER_END_COLOR : Z;
  PROP_INNER_START_ALPHA : Z;
  PROP_INNER_END_ALPHA : Z;
  PROP_OUTER_START_ALPHA : Z;
  PROP_OUTER_END_ALPHA : Z;
  PROP_HAS_TICK_MARKS : Z;
  PROP_MAJOR_TICK_MARKS_ANGLE : Z;
  PROP_MINOR_TICK_MARKS_ANGLE : Z;
  PROP_MAJOR_TICK_MARKS_LENGTH : Z;
  PROP_MINOR_TICK_MARKS_LENGTH : Z;
  PROP_MAJOR_TICK_MARKS_COLOR : Z;
  PROP_MINOR_TICK_MARKS_COLOR : Z
}.

(** [properties] is the list of the properties of the object returned; the
    source returns the empty object. *)
Record RingGizmoPropertyGroupSubclassData : Type := mkSubclassData {
  bytesRead : Z;
  properties : list (string * JSValue)
}.

(** The function is given [data] and makes no call on it: it is a computation
    on the view that neither reads nor writes. *)
Definition readEntitySubclassDataFromBuffer (EntityPropertyList : RingGizmoPropertyList)
    (position : Z) (propertyFlags : gset Z)
  : M DataView RingGizmoPropertyGroupSubclassData :=
  let dataPosition := position in
  let dataPosition :=
    if getHasProperty (PROP_START_ANGLE EntityPropertyList) propertyFlags
    then dataPosition + 4 else dataPosition in
  let dataPosition :=
    if getHasProperty (PROP_END_ANGLE EntityPropertyList) propertyFlags
    then dataPosition + 4 else dataPosition in
  let dataPosition :=
    if getHasProperty (PROP_INNER_RADIUS EntityPropertyList) propertyFlags
    then dataPosition + 4 else dataPosition in
  let dataPosition :=
    if getHasProperty (PROP_INNER_START_COLOR EntityPropertyList) propertyFlags
    then dataPosition + 3 else dataPosition in
  let dataPosition :=
    if getHasProperty (PROP_INNER_END_COLOR EntityPropertyList) propertyFlags
    then dataPosition + 3 else dataPosition in
  let dataPosition :=
    if getHasProperty (PROP_OUTER_START_COLOR EntityPropertyList) propertyFlags
    then dataPosition + 3 else dataPosition in
  let dataPosition :=
    if getHasProperty (PROP_OUTER_END_COLOR EntityPropertyList) propertyFlags
    then dataPosition + 3 else dataPosition in
  let dataPosition :=
    if getHasProperty (PROP_INNER_START_ALPHA EntityPropertyList) propertyFlags
    then dataPosition + 4 else dataPosition in
  let dataPosition :=
    if getHasProperty (PROP_INNER_END_ALPHA EntityPropertyList) propertyFlags
    then dataPosition + 4 else dataPosition in
  let dataPosition :=
    if getHasProperty (PROP_OUTER_START_ALPHA EntityPropertyList) propertyFlags
    then dataPosition + 4 else dataPosition in
  let dataPosition :=
    if getHasProperty (PROP_OUTER_END_ALPHA EntityPropertyList) propertyFlags
    then dataPosition + 4 else dataPosition in
  let dataPosition :=
    if getHasProperty (PROP_HAS_TICK_MARKS EntityPropertyList) propertyFlags
    then dataPosition + 1 else dataPosition in
  let dataPosition :=
    if getHasProperty (PROP_MAJOR_TICK_MARKS_ANGLE EntityPropertyList) propertyFlags
    then dataPosition + 4 else dataPosition in
  let dataPosition :=
    if getHasProperty (PROP_MINOR_TICK_MARKS_ANGLE EntityPropertyList) propertyFlags
    then dataPosition + 4 else dataPosition in
  let dataPosition :=
    if getHasProperty (PROP_MAJOR_TICK_MARKS_LENGTH EntityPropertyList) propertyFlags
    then dataPosition + 4 else dataPosition in
  let dataPosition :=
    if getHasProperty (PROP_MINOR_TICK_MARKS_LENGTH EntityPropertyList) propertyFlags
    then dataPosition + 4 else dataPosition in
  let dataPosition :=
    if getHasProperty (PROP_MAJOR_TICK_MARKS_COLOR EntityPropertyList) propertyFlags
    then dataPosition + 3 else dataPosition in
  let dataPosition :=
    if getHasProperty (PROP_MINOR_TICK_MARKS_COLOR EntityPropertyList) propertyFlags
    then dataPosition + 3 else dataPosition in
  mret (mkSubclassData (dataPosition - position) []).

(** The ring-gizmo properties with the sizes of their fields, in the order of
    the specification: 4, 4, 4, 3, 3, 3, 3, 4, 4, 4, 4, 1, 4, 4, 4, 4, 3, 3. *)
Definition ringGizmoFields (EntityPropertyList : RingGizmoPropertyList) : list (Z * Z) :=
  [(PROP_START_ANGLE EntityPropertyList, 4);
   (PROP_END_ANGLE EntityPropertyList, 4);
   (PROP_INNER_RADIUS EntityPropertyList, 4);
   (PROP_INNER_START_COLOR EntityPropertyList, 3);
   (PROP_INNER_END_COLOR EntityPropertyList, 3);
   (PROP_OUTER_START_COLOR EntityPropertyList, 3);
   (PROP_OUTER_END_COLOR EntityPropertyList, 3);
   (PROP_INNER_START_ALPHA EntityPropertyList, 4);
   (PROP_INNER_END_ALPHA EntityPropertyList, 4);
   (PROP_OUTER_START_ALPHA EntityPropertyList, 4);
   (PROP_OUTER_END_ALPHA EntityPropertyList, 4);
   (PROP_HAS_TICK_MARKS EntityPropertyList, 1);
   (PROP_MAJOR_TICK_MARKS_ANGLE EntityPropertyList, 4);
   (PROP_MINOR_TICK_MARKS_ANGLE EntityPropertyList, 4);
   (PROP_MAJOR_TICK_MARKS_LENGTH EntityPropertyList, 4);
   (PROP_MINOR_TICK_MARKS_LENGTH EntityPropertyList, 4);
   (PROP_MAJOR_TICK_MARKS_COLOR EntityPropertyList, 3);
   (PROP_MINOR_TICK_MARKS_COLOR EntityPropertyList, 3)].

(** The sum of the sizes of the fields whose flag is in the set. *)
Definition presentFieldBytes (fields : list (Z * Z)) (propertyFlags : gset Z) : Z :=
  foldr (fun field total =>
           (if getHasProperty field.1 propertyFlags then field.2 else 0) + total)
        0 fields.

(** ** src/domain/entities/ShapeEntityItem.ts *)

(** [DataView.prototype.getUint8] and [getUint16]. *)
Definition getUint8 (byteOffset : Z) : M DataView Z :=
  bs ← load byteOffset 1; ret (uint_value bs true).

Definition getUint16 (byteOffset : Z) (littleEndian : bool) : M DataView Z :=
  bs ← load byteOffset 2; ret (uint_value bs littleEndian).

(** A binary32 value as the number (a binary64 value) it is; the conversion
    is exact. *)
Definition float64 (x : spec_float) : spec_float :=
  match x with
  | S754_finite s m e => binary_round 53 1024 s m e
  | _ => x
  end.

(** The binary32 value with the IEEE-754 encoding [bits]: sign (bit 31),
    biased exponent (bits 30 to 23) and fraction (bits 22 to 0). *)
Definition float32_of_bits (bits : Z) : spec_float :=
  let sign := Z.testbit bits 31 in
  let exponent := (bits / 2 ^ 23) mod 256 in
  let fraction := bits mod 2 ^ 23 in
  if exponent =? 255 then
    if fraction =? 0 then S754_infinity sign else S754_nan
  else if exponent =? 0 then
    match fraction with
    | Zpos m => S754_finite sign m (-149)
    | _ => S754_zero sign
    end
  else
    match fraction + 2 ^ 23 with
    | Zpos m => S754_finite sign m (exponent - 150)
    | _ => S754_nan
    end.

(** [DataView.prototype.getFloat32] *)
Definition getFloat32 (byteOffset : Z) (littleEndian : bool) : M DataView spec_float :=
  bs ← load byteOffset 4; ret (float64 (float32_of_bits (uint_value bs littleEndian))).

(** A [DataView] together with the [ArrayBuffer] it is a view of:
    [data.buffer], [data.byteOffset] and [data.byteLength].  The bytes of the
    view are the [viewLength] bytes of [buffer] from [byteOffset] on. *)
Record BufferView : Type := mkBufferView {
  buffer : list Z;
  byteOffset : Z;
  viewLength : Z
}.

Definition viewed (data : BufferView) : DataView :=
  take (Z.to_nat (viewLength data)) (drop (Z.to_nat (byteOffset data)) (buffer data)).

(** A [DataView] getter called on [data]: it reads the bytes of the view and
    changes nothing. *)
Definition reading {A : Type} (m : M DataView A) : M BufferView A :=
  fun data => match m (viewed data) with
              | Normal a _ => Normal a data
              | Throw e _ => Throw e data
              end.

(** [new Uint8Array(buffer, byteOffset, length)]: the [length] bytes of
    [buffer] from [byteOffset] on; [RangeError] if they do not lie in the
    buffer. *)
Definition Uint8Array (buffer : list Z) (byteOffset length : Z) : Completion (list Z) :=
  if (0 <=? byteOffset) && (0 <=? length)
     && (byteOffset + length <=? Z.of_nat (List.length buffer))
  then Value (take (Z.to_nat length) (drop (Z.to_nat byteOffset) buffer))
  else Abrupt RangeError.

Module ShapeEntityItem.

(** [ShapeEntitySubclassData]: [properties] lists [color], [alpha] and
    [shape], each a value or [undefined]. *)
Record ShapeEntitySubclassData : Type := mkShapeEntitySubclassData {
  bytesRead : Z;
  properties : list (string * JSValue)
}.

Section readEntitySubclassDataFromBuffer.

(** Modelled from the spec: the Shape members of [EntityPropertyList]
    (src/domain/entities/EntityPropertyFlags.ts is not among the sources);
    their numbers are parameters. *)
Variables PROP_COLOR PROP_ALPHA PROP_SHAPE : Z.

(** Modelled from the spec: [PulsePropertyGroup.readEntitySubclassDataFromBuffer]
    (src/domain/entities/PulsePropertyGroup.ts is not among the sources) reads
    the deprecated pulse properties at a position and reports the number of
    bytes they take; it is a parameter, and of its result only [bytesRead] is
    used. *)
Variable PulsePropertyGroup_readEntitySubclassDataFromBuffer :
  Z -> gset Z -> M BufferView Z.

(** [TextDecoder.prototype.decode], the platform's UTF-8 decoder, as a
    parameter: the string decoded from the bytes. *)
Variable TextDecoder_decode : list Z -> JSValue.

Definition readEntitySubclassDataFromBuffer (position : Z) (propertyFlags : gset Z)
  : M BufferView ShapeEntitySubclassData :=
  let dataPosition := position in
  '(color, dataPosition) ←
    (if getHasProperty PROP_COLOR propertyFlags then
       red ← reading (getUint8 dataPosition);
       green ← reading (getUint8 (dataPosition + 1));
       blue ← reading (getUint8 (dataPosition + 2));
       mret (JSObject [("red", JSNumber (num red)); ("green", JSNumber (num green));
                       ("blue", JSNumber (num blue))],
             dataPosition + 3)
     else mret (JSUndefined, dataPosition));
  '(alpha, dataPosition) ←
    (if getHasProperty PROP_ALPHA propertyFlags then
       alpha ← reading (getFloat32 dataPosition LITTLE_ENDIAN);
       mret (JSNumber alpha, dataPosition + 4)
     else mret (JSUndefined, dataPosition));
  pulseBytesRead ← PulsePropertyGroup_readEntitySubclassDataFromBuffer dataPosition
                      propertyFlags;
  let dataPosition := dataPosition + pulseBytesRead in
  '(shape, dataPosition) ←
    (if getHasProperty PROP_SHAPE propertyFlags then
       length ← reading (getUint16 dataPosition LITTLE_ENDIAN);
       let dataPosition := dataPosition + 2 in
       if 0 <? length then
         data ← gets (fun data => data);
         bytes ← lift (Uint8Array (buffer data) (byteOffset data + dataPosition) length);
         mret (TextDecoder_decode bytes, dataPosition + length)
       else mret (JSUndefined, dataPosition)
     else mret (JSUndefined, dataPosition));
  mret (mkShapeEntitySubclassData (dataPosition - position)
          [("color", color); ("alpha", alpha); ("shape", shape)]).

End readEntitySubclassDataFromBuffer.

End ShapeEntityItem.

(** ** EntityItemProperties.encodeEntityEditPacket *)

(** One requested property: its flag, its value, and the typed appender that
    matches it. *)
Record EntityProperty : Type := mkProperty {
  propertyFlag : Z;
  propertyAppender : Appender;
  propertyValue : JSValue;
  propertyLittleEndian : bool
}.

(** The objects a call of the encoder works on: the message ([buffer] and
    [dataPosition] of [messageData]), [didntFitProperties], and the console. *)
Record EditStore : Type := mkEditStore {
  messageBuffer : list Z;
  messageDataPosition : Z;
  didntFitProperties : gset Z;
  editConsole : list string
}.

Definition is_PARTIAL (state : AppendState) : bool :=
  match state with PARTIAL => true | _ => false end.

(** Modelled from the spec: the wire layout of [PropertyFlags] (section 4.G),
    at a given length in bytes.  "First byte begins with unary-1s counting
    total length bytes, terminated by a 0 bit; remaining bit positions are flag
    presence bits in ascending enumeration order": bits are numbered from the
    most significant bit of the first byte; the first [len - 1] bits are 1, the
    next is 0, and bit [len + flag] says whether [flag] is in the set. *)
Definition flagBlockBit (len : Z) (flags : gset Z) (i : Z) : bool :=
  if i <? len - 1 then true
  else if i =? len - 1 then false
  else getHasProperty (i - len) flags.

Definition flagBlockByte (len : Z) (flags : gset Z) (k : Z) : Z :=
  foldr (fun j byte =>
           (if flagBlockBit len flags (8 * k + j) then 2 ^ (7 - j) else 0) + byte)
        0 (seqZ 0 8).

Definition encodeFlagsAt (len : Z) (flags : gset Z) : list Z :=
  map (flagBlockByte len flags) (seqZ 0 len).

(** Modelled from the spec: the length in bytes of the wire form of a set of
    flags.  "The set's maximum flag index determines wire length" (section 3):
    with the layout of section 4.G, [len] bytes hold the [len] bits of the
    unary prefix and the bits of the flags 0 to [7 len - 1], so that the block
    of a set whose largest flag is [f] has [f / 7 + 1] bytes; the block of the
    empty set has one. *)
Definition flagsLength (flags : gset Z) : Z := set_fold Z.max 0 flags / 7 + 1.

(** Modelled from the spec: [PropertyFlags.encode] (section 4.G), the wire
    form of a set of flags at the length the set determines. *)
Definition encodePropertyFlags (flags : gset Z) : list Z :=
  encodeFlagsAt (flagsLength flags) flags.

Section EntityItemProperties.

Variable packedQuat : JSValue -> Z.

(** Modelled from the spec: the "maximum possible byte length" of a flag
    block (section 4.I, step 2), that of the whole enumeration of property
    codes; src/domain/entities/EntityPropertyFlags.ts is not among the sources,
    and the length is a parameter.  The unit test has 19. *)
Variable maximumFlagsLength : Z.

(** Modelled from the spec: step 3 of the entity-edit encoder (section 4.I;
    src/domain/entities/EntityItemProperties.ts is not among the sources, only
    its unit test is).  "For each flag in order, invoke the matching typed
    appender.  On a PARTIAL return from any appender, mark that flag in
    didntFitProperties, clear it in the in-place flags block, and continue
    trying remaining smaller fields."  Each appender is handed the packet
    context with [appendState] COMPLETED, so that PARTIAL after the call is the
    return of that call; [state] is PARTIAL once a call has returned PARTIAL.
    [headerFits] says whether the flag block is in the buffer. *)
Fixpoint appendProperties (headerFits : bool) (requestedProperties : gset Z)
    (flagsPosition : Z) (properties : list EntityProperty) (dataPosition : Z)
    (state : AppendState) (didntFit : gset Z)
  : M Store (Z * AppendState * gset Z) :=
  match properties with
  | [] => mret (dataPosition, state, didntFit)
  | property :: rest =>
      appendState_assign COMPLETED;;
      bytesWritten ← append packedQuat (propertyAppender property) dataPosition
                        (propertyFlag property) (propertyValue property)
                        (propertyLittleEndian property);
      returned ← gets (fun s => appendState (packetContext s));
      if is_PARTIAL returned then
        let didntFit := didntFit ∪ {[propertyFlag property]} in
        (if headerFits then
           on_data (store flagsPosition
                      (encodeFlagsAt maximumFlagsLength (requestedProperties ∖ didntFit)))
         else mret tt);;
        appendProperties headerFits requestedProperties flagsPosition rest dataPosition
          PARTIAL didntFit
      else
        appendProperties headerFits requestedProperties flagsPosition rest
          (dataPosition + bytesWritten) state didntFit
  end.

(** Modelled from the spec: [encodeEntityEditPacket] (section 4.I, steps 2 to
    4).  [header] stands for the bytes of the packet header and the entity
    UUID; the requested properties are given in flag order, each with its
    value.

    Step 2: the header and the flag block of [requestedProperties], at its
    maximum length, are written at the position of the message.  Running out
    of buffer is not an error (section 7, kind 4): a header and flag block
    that do not fit are not written, and then no property fits behind them.

    Step 3: the properties are appended behind the reserved block.

    Step 4: the result is NONE when no property was written, and then the
    position of the message stays at the checkpoint taken before anything was
    written (the unit test expects the position the message had at the call).
    Otherwise the flags of the properties that were written ("the wire image
    reflects only what was actually written") are encoded at their own
    length, which is what the wire form of a set is (section 3) and what the
    messages of scenarios 4 and 5 of section 8 hold, the bytes of the
    properties follow them directly, and the position of the message is the
    end of these bytes; the result is PARTIAL if a property did not fit and
    COMPLETED if not. *)
Definition encodeEntityEditPacket (header : list Z) (properties : list EntityProperty)
  : M EditStore AppendState :=
  fun es =>
    let requestedProperties : gset Z := list_to_set (map propertyFlag properties) in
    let checkpoint := messageDataPosition es in
    let flagsPosition := checkpoint + Z.of_nat (length header) in
    let dataPosition := flagsPosition + maximumFlagsLength in
    let headerFits := dataPosition <=? byteLength (messageBuffer es) in
    let context := mkContext requestedProperties ∅ 0 COMPLETED in
    let run : M Store (AppendState * Z * gset Z) :=
      (if headerFits then
         on_data (store checkpoint
                    (header ++ encodeFlagsAt maximumFlagsLength requestedProperties))
       else mret tt);;
      '(endPosition, state, didntFit) ←
        appendProperties headerFits requestedProperties flagsPosition properties
          dataPosition COMPLETED (didntFitProperties es);
      count ← gets (fun s => propertyCount (packetContext s));
      if count =? 0 then mret (NONE, checkpoint, didntFit)
      else
        written ← gets (fun s => propertiesWritten (packetContext s));
        let flags := encodePropertyFlags written in
        payload ← on_data (load dataPosition (Z.to_nat (endPosition - dataPosition)));
        on_data (store flagsPosition (flags ++ payload));;
        mret (state, flagsPosition + Z.of_nat (length (flags ++ payload)), didntFit) in
    match run (mkStore (messageBuffer es) context (editConsole es)) with
    | Normal (state, position, didntFit) s =>
        Normal state (mkEditStore (data s) position didntFit (console s))
    | Throw e s =>
        Throw e (mkEditStore (data s) checkpoint (didntFitProperties es) (console s))
    end.

End EntityItemProperties.

(** ** Vocabulary of the statements *)

(** The value a run returned, if it returned, and the store it left. *)
Definition result_value {S A : Type} (r : Result S A) : option A :=
  match r with Normal a _ => Some a | Throw _ _ => None end.

Definition result_store {S A : Type} (r : Result S A) : S :=
  match r with Normal _ s => s | Throw _ s => s end.

(** The only error an expression of a validity check can raise is the
    [TypeError] of reading a property of [undefined] or [null]. *)
Definition raises_only_TypeError {A : Type} (c : Completion A) : Prop :=
  forall e, c = Abrupt e -> e = TypeError.

(** The store in which the bytes [acc] have been written from [pos] on. *)
Definition written (pos : Z) (acc : list Z) (s : Store) : Store :=
  mkStore (splice (Z.to_nat pos) acc (data s)) (packetContext s) (console s).

(** [m] writes the bytes [bs] at offset [off] and nothing else: run where
    [acc] has been written up to [off], it leaves [acc ++ bs] written. *)
Definition writes_at (off : Z) (m : M Store unit) (bs : list Z) : Prop :=
  forall pos acc s,
    0 <= pos -> off = pos + Z.of_nat (length acc) ->
    off + Z.of_nat (length bs) <= byteLength (data s) ->
    m (written pos acc s) = Normal tt (written pos (acc ++ bs) s).

(** [m] begins with a [DataView] access at [off], which raises [RangeError]
    when [off] is negative, before anything is written. *)
Definition raises_at (off : Z) (m : M Store unit) : Prop :=
  forall s, off < 0 -> m s = Throw RangeError s.

(** The store after an appender has logged [message]. *)
Definition logged (message : string) (s : Store) : Store :=
  mkStore (data s) (packetContext s) (console s ++ [message]).

(** The store after a successful append: [bs] written at [pos], [flag] moved
    from [propertiesToWrite] to [propertiesWritten], one more property. *)
Definition appended (flag pos : Z) (bs : list Z) (s : Store) : Store :=
  mkStore (splice (Z.to_nat pos) bs (data s)) (committed flag (packetContext s))
    (console s).

(** A number that is neither NaN nor an infinity. *)
Definition isFinite (x : spec_float) : bool :=
  match x with
  | S754_zero _ | S754_finite _ _ _ => true
  | S754_infinity _ | S754_nan => false
  end.

(** A property that is valid and does not fit at [dataPosition]. *)
Definition cannot_fit (size dataPosition : Z) (property : EntityProperty) : Prop :=
  valid (propertyAppender property) (propertyValue property) = Value true
  /\ size < dataPosition
             + serializedSize (propertyAppender property) (propertyValue property).

(** ** Values and stores of the unit tests, for concrete calls *)

(** The packet context at the start of a packet. *)
Definition emptyContext : OctreePacketContext := mkContext ∅ ∅ 0 COMPLETED.

(** A stand-in for the quaternion packer where no quaternion is written. *)
Definition noQuat : JSValue -> Z := fun _ => 0.

(** [{ red: 240, green: 37, blue: 148 }], the color of the unit tests. *)
Definition testColor : JSValue :=
  JSObject [("red", JSNumber (num 240)); ("green", JSNumber (num 37));
            ("blue", JSNumber (num 148))].

(** [{ red, green, blue }] for three numbers. *)
Definition colorOf (red green blue : spec_float) : JSValue :=
  JSObject [("red", JSNumber red); ("green", JSNumber green); ("blue", JSNumber blue)].

(** [{ x: 1, y: 2, z: 3 }] *)
Definition testVec3 : JSValue :=
  JSObject [("x", JSNumber (num 1)); ("y", JSNumber (num 2)); ("z", JSNumber (num 3))].

(** An array of 65536 booleans. *)
Definition longArray : JSValue := JSArray (repeat (JSBoolean true) (Z.to_nat 65536)).

(** A packet of 5 bytes in which flag 7 is still to be written and flag 3
    has been written. *)
Definition testStore : Store := mkStore (repeat 0 5) (mkContext {[7]} {[3]} 1 COMPLETED) [].

(** The 27 bytes before the flag block in the tests' messages. *)
Definition testHeader : list Z :=
  [0x00; 0xb6; 0x85; 0xf1; 0xf2; 0x0a; 0x00; 0x06; 0x00;
   0xb7; 0x1d; 0x53; 0x80; 0x2f; 0xcc; 0x48; 0x33; 0x93; 0xa7; 0x9a; 0x49; 0x67; 0x01;
   0x75; 0x87; 0x40; 0x00].

(** The requested properties of the tests: [lastEditedBy] (flag 17) and
    [color] (flag 84). *)
Definition testProperties : list EntityProperty :=
  [mkProperty 17 UuidValue (JSUuid (mkUuid 0xa82f40b6ee8946ccb50402b88d72a546 false)) false;
   mkProperty 84 ColorValue testColor false].

(** An empty message over a buffer of [size] bytes. *)
Definition testMessage (size : nat) : EditStore := mkEditStore (repeat 0 size) 0 ∅ [].

(** ** Further vocabulary and values for concrete calls *)

(** The bytes of a vec3 with numeric components: the binary32 images of [x],
    [y] and [z], little-endian. *)
Definition vec3Bytes (element : JSValue) : list Z :=
  match element#"x", element#"y", element#"z" with
  | Value x, Value y, Value z =>
      uint_bytes 4 (float32_bits (ToNumber x)) LITTLE_ENDIAN
      ++ uint_bytes 4 (float32_bits (ToNumber y)) LITTLE_ENDIAN
      ++ uint_bytes 4 (float32_bits (ToNumber z)) LITTLE_ENDIAN
  | _, _, _ => []
  end.

(** [{ x, y, width, height }] and [{ corner: { x, y, z }, scale }] for
    numbers. *)
Definition rectOf (x y width height : spec_float) : JSValue :=
  JSObject [("x", JSNumber x); ("y", JSNumber y); ("width", JSNumber width);
            ("height", JSNumber height)].

Definition aaCubeOf (x y z scale : spec_float) : JSValue :=
  JSObject [("corner", JSObject [("x", JSNumber x); ("y", JSNumber y); ("z", JSNumber z)]);
            ("scale", JSNumber scale)].

(** A number that [appendFloat32Value] and the appenders of vectors accept:
    between [-MAX_FLOAT32] and [MAX_FLOAT32]. *)
Definition inFloat32Range (x : spec_float) : bool :=
  SFleb (SFopp MAX_FLOAT32) x && SFleb x MAX_FLOAT32.

(** A [DataView] as the platform makes them: inside its buffer. *)
Definition inside_buffer (data : BufferView) : Prop :=
  0 <= byteOffset data /\ 0 <= viewLength data
  /\ byteOffset data + viewLength data <= Z.of_nat (length (buffer data)).

(** The view of a whole buffer. *)
Definition viewOf (bytes : list Z) : BufferView :=
  mkBufferView bytes 0 (Z.of_nat (length bytes)).

(** The color whose components are the three bytes at [p], and the number
    whose binary32 encoding are the four bytes at [p], little-endian. *)
Definition colorAt (data : DataView) (p : Z) : JSValue :=
  colorOf (num (nth (Z.to_nat p) data 0)) (num (nth (Z.to_nat (p + 1)) data 0))
    (num (nth (Z.to_nat (p + 2)) data 0)).

Definition float32At (data : DataView) (p : Z) : JSValue :=
  JSNumber (float64 (float32_of_bits
                       (uint_value (take 4 (drop (Z.to_nat p) data)) LITTLE_ENDIAN))).

(** Stand-ins for the two parameters of the Shape reader in concrete calls: a
    pulse group that takes no bytes, and a decoder for texts of ASCII
    characters, whose bytes are their code units. *)
Definition noPulse : Z -> gset Z -> M BufferView Z := fun _ _ => mret 0.
Definition asciiDecode : list Z -> JSValue := fun bytes => JSString bytes.

(** A view of 13 bytes that holds a color, alpha 15 and the shape "Cube". *)
Definition testShapeView : BufferView :=
  viewOf [240; 37; 148; 0x00; 0x00; 0x70; 0x41; 4; 0; 67; 117; 98; 101].

(** ** The wire image of a value *)

(** The number an expression evaluates to, as a setter of [DataView] converts
    its argument. *)
Definition numberOf (e : Completion JSValue) : spec_float :=
  match e with Value v => ToNumber v | Abrupt _ => S754_nan end.

Definition uint8Bytes (e : Completion JSValue) : list Z :=
  uint_bytes 1 (truncate (numberOf e)) LITTLE_ENDIAN.

Definition uint16Bytes (e : Completion JSValue) (littleEndian : bool) : list Z :=
  uint_bytes 2 (truncate (numberOf e)) littleEndian.

Definition uint32Bytes (e : Completion JSValue) (littleEndian : bool) : list Z :=
  uint_bytes 4 (truncate (numberOf e)) littleEndian.

Definition float32Bytes (e : Completion JSValue) (littleEndian : bool) : list Z :=
  uint_bytes 4 (float32_bits (numberOf e)) littleEndian.

(** The u16 count in front of a string, a byte array and an array. *)
Definition countBytes (n : nat) : list Z := uint_bytes 2 (Z.of_nat n) LITTLE_ENDIAN.

(** Bytes as [setUint8] stores them; on bytes, this is the identity. *)
Definition storedBytes (bytes : list Z) : list Z := map (fun b => b mod 256) bytes.

(** The 16 bytes of a UUID, most significant first. *)
Definition uuidBytes (v : JSValue) : list Z :=
  match v with
  | JSUuid u =>
      uint_bytes 16 (if Uuid_value u >? MAX_U128_VALUE then 0 else Uuid_value u) BIG_ENDIAN
  | _ => []
  end.

(** The byte that packs at most eight elements, the first in the least
    significant bit, and the bytes that pack an array of booleans. *)
Fixpoint bitsByte (elements : list JSValue) : Z :=
  match elements with
  | [] => 0
  | element :: rest => (if ToBoolean element then 1 else 0) + 2 * bitsByte rest
  end.

Definition packedBooleans (elements : list JSValue) : list Z :=
  map (fun k => bitsByte (take 8 (drop (8 * k) elements)))
      (seq 0 ((length elements + 7) / 8)).

(** The bytes a valid value is serialized to, after the specification: bool,
    u8, u16, u32, u64 and f32 as one scalar; color r, g, b; vec2 x, y; vec3
    x, y, z; a quaternion packed into 8 bytes; rect x, y, width, height; AACube
    corner and scale; string and byte array as a 2-byte length and the bytes;
    the arrays as a 2-byte count and the elements; a UUID as the length 0 when
    null and else the length 16 and 16 big-endian bytes.  Scalars are
    little-endian, or in the byte order asked for where the appender has a
    [littleEndian] argument. *)
Definition serialized (packedQuat : JSValue -> Z) (a : Appender) (value : JSValue)
    (littleEndian : bool) : list Z :=
  match a with
  | BooleanValue => [if ToBoolean value then 1 else 0]
  | Uint8Value => uint8Bytes value
  | Uint16Value => uint16Bytes value littleEndian
  | Uint32Value => uint32Bytes value littleEndian
  | Uint64Value =>
      match value with JSBigInt z => uint_bytes 8 z littleEndian | _ => [] end
  | Float32Value => float32Bytes value littleEndian
  | ColorValue => uint8Bytes value#"red" ++ uint8Bytes value#"green" ++ uint8Bytes value#"blue"
  | Vec2Value => float32Bytes value#"x" LITTLE_ENDIAN ++ float32Bytes value#"y" LITTLE_ENDIAN
  | Vec3Value => vec3Bytes value
  | QuatValue => uint_bytes 8 (packedQuat value) LITTLE_ENDIAN
  | RectValue =>
      uint32Bytes value#"x" LITTLE_ENDIAN ++ uint32Bytes value#"y" LITTLE_ENDIAN
      ++ uint32Bytes value#"width" LITTLE_ENDIAN ++ uint32Bytes value#"height" LITTLE_ENDIAN
  | AACubeValue =>
      float32Bytes value#"corner"#"x" LITTLE_ENDIAN
      ++ float32Bytes value#"corner"#"y" LITTLE_ENDIAN
      ++ float32Bytes value#"corner"#"z" LITTLE_ENDIAN
      ++ float32Bytes value#"scale" LITTLE_ENDIAN
  | StringValue =>
      countBytes (length (TextEncoder_encode value)) ++ storedBytes (TextEncoder_encode value)
  | ArrayBufferValue =>
      countBytes (length (ArrayBuffer_bytes value)) ++ storedBytes (ArrayBuffer_bytes value)
  | QuatArray =>
      countBytes (length (elements_of value))
      ++ concat (map (fun element => uint_bytes 8 (packedQuat element) LITTLE_ENDIAN)
                   (elements_of value))
  | Vec3Array =>
      countBytes (length (elements_of value)) ++ concat (map vec3Bytes (elements_of value))
  | UuidArray =>
      countBytes (length (elements_of value)) ++ concat (map uuidBytes (elements_of value))
  | UuidValue =>
      match value with
      | JSUuid u => if Uuid_isNull u then countBytes 0 else countBytes 16 ++ uuidBytes value
      | _ => []
      end
  | BooleanArray =>
      countBytes (length (elements_of value)) ++ packedBooleans (elements_of value)
  end.

(** The messages that the unit tests (and scenarios 4 and 5 of the
    specification) expect: all properties fitting, [lastEditedBy] not fitting,
    an animation property, a grab property. *)
Definition fullMessage : list Z :=
  [0x00; 0xb6; 0x85; 0xf1; 0xf2; 0x0a; 0x00; 0x06; 0x00;
   0xb7; 0x1d; 0x53; 0x80; 0x2f; 0xcc; 0x48; 0x33; 0x93; 0xa7; 0x9a; 0x49; 0x67; 0x01;
   0x75; 0x87; 0x40; 0x00;
   0xff; 0xf0; 0x00; 0x02; 0x00; 0x00; 0x00; 0x00; 0x00; 0x00; 0x00; 0x00; 0x40;
   0x10; 0x00;
   0xa8; 0x2f; 0x40; 0xb6; 0xee; 0x89; 0x46; 0xcc; 0xb5; 0x04; 0x02; 0xb8; 0x8d; 0x72;
   0xa5; 0x46;
   0xf0; 0x25; 0x94].

Definition partialMessage : list Z :=
  [0x00; 0xb6; 0x85; 0xf1; 0xf2; 0x0a; 0x00; 0x06; 0x00;
   0xb7; 0x1d; 0x53; 0x80; 0x2f; 0xcc; 0x48; 0x33; 0x93; 0xa7; 0x9a; 0x49; 0x67; 0x01;
   0x75; 0x87; 0x40; 0x00;
   0xff; 0xf0; 0x00; 0x00; 0x00; 0x00; 0x00; 0x00; 0x00; 0x00; 0x00; 0x00; 0x40;
   0xf0; 0x25; 0x94].

Definition animationHeader : list Z :=
  [0x00; 0x78; 0x25; 0x18; 0x59; 0xf8; 0x01; 0x06; 0x00;
   0xd6; 0xf2; 0xfb; 0x67; 0x48; 0x9a; 0x42; 0xf3; 0x8d; 0xc0; 0x1b; 0x38; 0xe0; 0x03;
   0x67; 0xa2; 0x10; 0x00].

(** [lastEditedBy] (flag 17) and [animation.fps] (flag 104), 15. *)
Definition animationProperties : list EntityProperty :=
  [mkProperty 17 UuidValue (JSUuid (mkUuid 0xf2ca635c06214311bfe618113cf0eb42 false)) false;
   mkProperty 104 Float32Value (JSNumber (num 15)) LITTLE_ENDIAN].

Definition animationMessage : list Z :=
  animationHeader
  ++ [0xff; 0xfc; 0x00; 0x00; 0x80; 0x00; 0x00; 0x00; 0x00; 0x00; 0x00; 0x00; 0x00; 0x00;
      0x01;
      0x10; 0x00;
      0xf2; 0xca; 0x63; 0x5c; 0x06; 0x21; 0x43; 0x11; 0xbf; 0xe6; 0x18; 0x11; 0x3c; 0xf0;
      0xeb; 0x42;
      0x00; 0x00; 0x70; 0x41].

Definition grabHeader : list Z :=
  [0x00; 0x4a; 0xa3; 0x09; 0xbb; 0xd4; 0x02; 0x06; 0x00;
   0xb7; 0x1d; 0x53; 0x80; 0x2f; 0xcc; 0x48; 0x33; 0x93; 0xa7; 0x9a; 0x49; 0x67; 0x01;
   0x75; 0x87; 0x60; 0x00].

(** [lastEditedBy] (flag 17) and [grab.grabbable] (flag 28), [true]. *)
Definition grabProperties : list EntityProperty :=
  [mkProperty 17 UuidValue (JSUuid (mkUuid 0x8f9e0f5a58c544708eef15d86838191c false)) false;
   mkProperty 28 BooleanValue (JSBoolean true) false].

Definition grabMessage : list Z :=
  grabHeader
  ++ [0xf0; 0x00; 0x02; 0x00; 0x40;
      0x10; 0x00;
      0x8f; 0x9e; 0x0f; 0x5a; 0x58; 0xc5; 0x44; 0x70; 0x8e; 0xef; 0x15; 0xd8; 0x68; 0x38;
      0x19; 0x1c;
      0x01].

(** A color whose [red] is not a number. *)
Definition badColor : JSValue :=
  JSObject [("red", JSString []); ("green", JSNumber (num 37)); ("blue", JSNumber (num 148))].

(* ===================================================================== *)
(** * Proofs *)
(* ===================================================================== *)

Example setBigUint128_be_example :
  setBigUint128 1 0x0102030405060708090a0b0c0d0e0f10 false (repeat 0 18)
  = Normal tt [0; 1; 2; 3; 4; 5; 6; 7; 8; 9; 10; 11; 12; 13; 14; 15; 16; 0].
Proof. vm_compute. reflexivity. Qed.

Example getBigUint128_le_example :
  getBigUint128 1 true [0; 1; 2; 3; 4; 5; 6; 7; 8; 9; 10; 11; 12; 13; 14; 15; 16; 0]
  = Normal 0x100f0e0d0c0b0a090807060504030201
           [0; 1; 2; 3; 4; 5; 6; 7; 8; 9; 10; 11; 12; 13; 14; 15; 16; 0].
Proof. vm_compute. reflexivity. Qed.

(** ** Bytes and integers *)

Lemma length_le_bytes n v : length (le_bytes n v) = n.
Proof. revert v. induction n as [|n IH]; intros v; simpl; [done | by rewrite IH]. Qed.

Lemma length_uint_bytes n v le : length (uint_bytes n v le) = n.
Proof.
  unfold uint_bytes. destruct le; [| rewrite length_rev]; apply length_le_bytes.
Qed.

Lemma le_value_le_bytes n v : le_value (le_bytes n v) = v mod 2 ^ (8 * Z.of_nat n).
Proof.
  revert v. induction n as [|n IH]; intros v.
  - simpl. by rewrite Z.mod_1_r.
  - cbn [le_bytes le_value]. rewrite IH.
    replace (8 * Z.of_nat (S n)) with (8 + 8 * Z.of_nat n) by lia.
    rewrite Z.pow_add_r by lia. change (2 ^ 8) with 256.
    rewrite Z.rem_mul_r by lia. reflexivity.
Qed.

Lemma uint_value_uint_bytes n v le :
  uint_value (uint_bytes n v le) le = v mod 2 ^ (8 * Z.of_nat n).
Proof.
  unfold uint_value, uint_bytes. destruct le; [| rewrite rev_involutive];
    apply le_value_le_bytes.
Qed.

(** ** Splicing bytes into a view *)

Lemma length_splice off bs (data : DataView) :
  (off + length bs <= length data)%nat -> length (splice off bs data) = length data.
Proof.
  intros H. unfold splice. rewrite !length_app, length_take, length_drop. lia.
Qed.

Lemma splice_nil off (data : DataView) : splice off [] data = data.
Proof. unfold splice. simpl. rewrite Nat.add_0_r. apply take_drop. Qed.

Lemma take_splice_le n off bs (data : DataView) :
  (n <= off <= length data)%nat -> take n (splice off bs data) = take n data.
Proof.
  intros H. unfold splice. rewrite take_app_le by (rewrite length_take; lia).
  rewrite take_take. f_equal. lia.
Qed.

Lemma drop_splice_ge n off bs (data : DataView) :
  (off + length bs <= n)%nat -> (off <= length data)%nat ->
  drop n (splice off bs data) = drop n data.
Proof.
  intros Hn H. unfold splice. rewrite app_assoc.
  rewrite drop_app_ge by (rewrite length_app, length_take; lia).
  rewrite length_app, length_take, Nat.min_l by lia.
  rewrite drop_drop. f_equal. lia.
Qed.

Lemma take_splice_end off bs (data : DataView) :
  (off <= length data)%nat ->
  take (off + length bs) (splice off bs data) = take off data ++ bs.
Proof.
  intros H. unfold splice. rewrite app_assoc.
  rewrite take_app_length'; [done |]. rewrite length_app, length_take. lia.
Qed.

Lemma drop_splice_start off bs (data : DataView) :
  (off <= length data)%nat ->
  drop off (splice off bs data) = bs ++ drop (off + length bs) data.
Proof.
  intros H. unfold splice. rewrite drop_app_length'; [done |].
  rewrite length_take. lia.
Qed.

(** Writing [a] and then [b] right after it is writing [a ++ b]. *)
Lemma splice_app off a b (data : DataView) :
  (off + length a + length b <= length data)%nat ->
  splice (off + length a) b (splice off a data) = splice off (a ++ b) data.
Proof.
  intros H. unfold splice at 1.
  rewrite take_splice_end, drop_splice_ge by lia.
  unfold splice. rewrite length_app, <- !app_assoc, Nat.add_assoc. reflexivity.
Qed.

(** The same two writes in the other order. *)
Lemma splice_app_rev off a b (data : DataView) :
  (off + length a + length b <= length data)%nat ->
  splice off a (splice (off + length a) b data) = splice off (a ++ b) data.
Proof.
  intros H. unfold splice at 1.
  rewrite take_splice_le, drop_splice_start by lia.
  unfold splice. rewrite length_app, <- !app_assoc, Nat.add_assoc. reflexivity.
Qed.

(** Reading back a segment of what was written. *)
Lemma take_drop_splice off a b c (data : DataView) :
  (off <= length data)%nat ->
  take (length b) (drop (off + length a) (splice off (a ++ b ++ c) data)) = b.
Proof.
  intros H. unfold splice.
  rewrite drop_app_ge by (rewrite length_take; lia).
  rewrite length_take, Nat.min_l by lia.
  replace (off + length a - off)%nat with (length a) by lia.
  rewrite <- !app_assoc, drop_app_length, take_app_length. reflexivity.
Qed.

(** ** DataView accessors *)

Lemma byteLength_splice off bs (data : DataView) :
  (off + length bs <= length data)%nat -> byteLength (splice off bs data) = byteLength data.
Proof. intros H. unfold byteLength. by rewrite length_splice. Qed.

Lemma store_in_view off bs (data : DataView) :
  0 <= off -> off + Z.of_nat (length bs) <= byteLength data ->
  store off bs data = Normal tt (splice (Z.to_nat off) bs data).
Proof.
  intros H0 H1. unfold store, in_view.
  destruct (Z.leb_spec 0 off); [| lia].
  destruct (Z.leb_spec (off + Z.of_nat (length bs)) (byteLength data)); [done | lia].
Qed.

Lemma store_out_of_view off bs (data : DataView) :
  off < 0 \/ byteLength data < off + Z.of_nat (length bs) ->
  store off bs data = Throw RangeError data.
Proof.
  intros H. unfold store, in_view.
  destruct (Z.leb_spec 0 off); [| done].
  destruct (Z.leb_spec (off + Z.of_nat (length bs)) (byteLength data)); [lia | done].
Qed.

Lemma load_in_view off n (data : DataView) :
  0 <= off -> off + Z.of_nat n <= byteLength data ->
  load off n data = Normal (take n (drop (Z.to_nat off) data)) data.
Proof.
  intros H0 H1. unfold load, in_view.
  destruct (Z.leb_spec 0 off); [| lia].
  destruct (Z.leb_spec (off + Z.of_nat n) (byteLength data)); [done | lia].
Qed.

(** ** DataViewExtensions: the 128-bit accessors *)

Lemma split_u128 x :
  0 <= x < 2 ^ 128 ->
  Z.shiftl (Z.shiftr x SHIFT_64_BITS mod 2 ^ 64) SHIFT_64_BITS
  + Z.land x MASK_64_BITS mod 2 ^ 64 = x.
Proof.
  intros Hx. unfold SHIFT_64_BITS, MASK_64_BITS.
  change 0xffffffffffffffff with (Z.ones 64).
  rewrite Z.land_ones, Z.shiftr_div_pow2, Z.shiftl_mul_pow2 by lia.
  rewrite Z.mod_mod by lia.
  rewrite (Z.mod_small (x / 2 ^ 64)).
  - pose proof (Z.div_mod x (2 ^ 64)). lia.
  - split; [apply Z.div_pos; lia |].
    apply Z.div_lt_upper_bound; [lia |]. change (2 ^ 64 * 2 ^ 64) with (2 ^ 128). lia.
Qed.

Lemma length_u128_bytes value le : length (u128_bytes value le) = 16%nat.
Proof.
  unfold u128_bytes. destruct le; rewrite length_app, !length_uint_bytes; reflexivity.
Qed.

Lemma setBigUint128_in_view off value le (data : DataView) :
  0 <= off -> off + 16 <= byteLength data ->
  setBigUint128 off value le data
  = Normal tt (splice (Z.to_nat off) (u128_bytes value le) data).
Proof.
  intros H0 H1. unfold setBigUint128, u128_bytes, setBigUint64.
  unfold byteLength in H1.
  set (sv := if value >? MAX_U128_VALUE then 0 else value).
  set (hi := Z.shiftr sv SHIFT_64_BITS). set (lo := Z.land sv MASK_64_BITS).
  destruct le; unfold mbind, M_bind, bind.
  - rewrite store_in_view by (rewrite ?length_uint_bytes; unfold byteLength; lia).
    rewrite store_in_view
      by (rewrite ?byteLength_splice; rewrite ?length_uint_bytes; unfold byteLength; lia).
    f_equal.
    replace (Z.to_nat (off + 8)) with (Z.to_nat off + length (uint_bytes 8 lo true))%nat
      by (rewrite length_uint_bytes; lia).
    apply splice_app_rev. rewrite !length_uint_bytes. lia.
  - rewrite store_in_view by (rewrite ?length_uint_bytes; unfold byteLength; lia).
    rewrite store_in_view
      by (rewrite ?byteLength_splice; rewrite ?length_uint_bytes; unfold byteLength; lia).
    f_equal.
    replace (Z.to_nat (off + 8)) with (Z.to_nat off + length (uint_bytes 8 hi false))%nat
      by (rewrite length_uint_bytes; lia).
    apply splice_app. rewrite !length_uint_bytes. lia.
Qed.

Lemma getBigUint128_splice off hi lo le (data : DataView) :
  0 <= off -> off + 16 <= byteLength data ->
  getBigUint128 off le
    (splice (Z.to_nat off)
       (if le then uint_bytes 8 lo le ++ uint_bytes 8 hi le
        else uint_bytes 8 hi le ++ uint_bytes 8 lo le) data)
  = Normal (Z.shiftl (hi mod 2 ^ 64) SHIFT_64_BITS + lo mod 2 ^ 64)
      (splice (Z.to_nat off)
         (if le then uint_bytes 8 lo le ++ uint_bytes 8 hi le
          else uint_bytes 8 hi le ++ uint_bytes 8 lo le) data).
Proof.
  intros H0 H1. unfold byteLength in H1.
  assert (Hlen : forall a b : list Z, length a = 8%nat -> length b = 8%nat ->
            byteLength (splice (Z.to_nat off) (a ++ b) data) = byteLength data).
  { intros a b Ha Hb. apply byteLength_splice. rewrite length_app. lia. }
  assert (Hfst : forall a b : list Z, length a = 8%nat ->
            take 8 (drop (Z.to_nat off) (splice (Z.to_nat off) (a ++ b) data)) = a).
  { intros a b Ha. pose proof (take_drop_splice (Z.to_nat off) [] a b data) as E.
    simpl in E. rewrite Nat.add_0_r, Ha in E. apply E. lia. }
  assert (Hsnd : forall a b : list Z, length a = 8%nat -> length b = 8%nat ->
            take 8 (drop (Z.to_nat (off + 8)) (splice (Z.to_nat off) (a ++ b) data)) = b).
  { intros a b Ha Hb. pose proof (take_drop_splice (Z.to_nat off) a b [] data) as E.
    rewrite app_nil_r, Ha, Hb in E.
    replace (Z.to_nat (off + 8)) with (Z.to_nat off + 8)%nat by lia. apply E. lia. }
  unfold getBigUint128, getBigUint64. destruct le; unfold mbind, M_bind, bind, ret.
  - rewrite load_in_view
      by (rewrite ?Hlen by apply length_uint_bytes; unfold byteLength; lia).
    cbv beta iota. rewrite load_in_view
      by (rewrite ?Hlen by apply length_uint_bytes; unfold byteLength; lia).
    rewrite Hsnd, Hfst by apply length_uint_bytes.
    by rewrite !uint_value_uint_bytes.
  - rewrite load_in_view
      by (rewrite ?Hlen by apply length_uint_bytes; unfold byteLength; lia).
    cbv beta iota. rewrite load_in_view
      by (rewrite ?Hlen by apply length_uint_bytes; unfold byteLength; lia).
    rewrite Hsnd, Hfst by apply length_uint_bytes.
    by rewrite !uint_value_uint_bytes.
Qed.

(** C5. Writing a value below [2^128] with [setBigUint128] and reading it back
    with [getBigUint128] at the same offset and with the same endianness
    returns the value; neither call raises, given 16 bytes of room. *)
Theorem getBigUint128_setBigUint128 (x byteOffset : Z) (littleEndian : bool)
    (data : DataView) :
  0 <= x < 2 ^ 128 ->
  0 <= byteOffset -> byteOffset + 16 <= byteLength data ->
  exists data' : DataView,
    setBigUint128 byteOffset x littleEndian data = Normal tt data'
    /\ byteLength data' = byteLength data
    /\ getBigUint128 byteOffset littleEndian data' = Normal x data'.
Proof.
  intros Hx H0 H1.
  exists (splice (Z.to_nat byteOffset) (u128_bytes x littleEndian) data).
  split; [by apply setBigUint128_in_view |].
  split.
  { apply byteLength_splice. rewrite length_u128_bytes. unfold byteLength in H1. lia. }
  unfold u128_bytes.
  destruct (Z.gtb_spec x MAX_U128_VALUE) as [Hgt | _];
    [unfold MAX_U128_VALUE in Hgt; lia |].
  rewrite getBigUint128_splice by assumption.
  by rewrite split_u128.
Qed.

Lemma getBigUint128_setBigUint128_witness :
  exists data' : DataView,
    setBigUint128 2 0xa82f40b6ee8946ccb50402b88d72a546 false (repeat 0 20)
    = Normal tt data'
    /\ byteLength data' = byteLength (repeat 0 20)
    /\ getBigUint128 2 false data' = Normal 0xa82f40b6ee8946ccb50402b88d72a546 data'.
Proof.
  apply (getBigUint128_setBigUint128 0xa82f40b6ee8946ccb50402b88d72a546 2 false
           (repeat 0 20)); [lia | lia | vm_compute; discriminate].
Defined.

Example float32_bits_15 : float32_bits (num 15) = 0x41700000.
Proof. vm_compute. reflexivity. Qed.
Example float32_bits_half : float32_bits (decimal 5 0) = 0x40a00000.
Proof. vm_compute. reflexivity. Qed.

(** ** The typed appenders on the values of the unit tests *)

Example appendColorValue_test :
  let r := appendColorValue 1 7 testColor (mkStore (repeat 0 5) emptyContext []) in
  result_value r = Some 3 /\ data (result_store r) = [0; 0xf0; 0x25; 0x94; 0].
Proof. vm_compute. split; reflexivity. Qed.

Example appendUuidValue_test :
  let r := appendUuidValue 0 7
             (JSUuid (mkUuid 0xa82f40b6ee8946ccb50402b88d72a546 false))
             (mkStore (repeat 0 18) emptyContext []) in
  result_value r = Some 18
  /\ data (result_store r)
     = [0x10; 0x00; 0xa8; 0x2f; 0x40; 0xb6; 0xee; 0x89; 0x46; 0xcc; 0xb5; 0x04;
        0x02; 0xb8; 0x8d; 0x72; 0xa5; 0x46].
Proof. vm_compute. split; reflexivity. Qed.

Example appendFloat32Value_test :
  let r := appendFloat32Value 0 7 (JSNumber (num 15)) LITTLE_ENDIAN
             (mkStore (repeat 0 4) emptyContext []) in
  result_value r = Some 4 /\ data (result_store r) = [0x00; 0x00; 0x70; 0x41].
Proof. vm_compute. split; reflexivity. Qed.

Example appendBooleanArray_test :
  let value := JSArray (map JSBoolean
    [true; false; false; false; false; false; false; true; true; true]) in
  let r := appendBooleanArray 0 7 value (mkStore (repeat 0 5) emptyContext []) in
  result_value r = Some 4 /\ data (result_store r) = [10; 0; 0x81; 0x03; 0].
Proof. vm_compute. split; reflexivity. Qed.

Example appendStringValue_test :
  let r := appendStringValue 0 7 (JSString [0x53; 0xE9; 0x20AC; 0xD83D; 0xDE00])
             (mkStore (repeat 0 12) emptyContext []) in
  result_value r = Some 12
  /\ data (result_store r)
     = [10; 0; 0x53; 0xC3; 0xA9; 0xE2; 0x82; 0xAC; 0xF0; 0x9F; 0x98; 0x80].
Proof. vm_compute. split; reflexivity. Qed.

(** ** Expressions and validity checks *)

Lemma and_then_true (a b : Completion bool) :
  a &&> b = Value true <-> a = Value true /\ b = Value true.
Proof.
  unfold and_then. split.
  - destruct a as [[|]|]; intros H; try discriminate. by split.
  - intros [-> ->]. reflexivity.
Qed.

Lemma typeof_is_true (e : Completion JSValue) (t : string) :
  typeof_is e t = Value true <-> exists v, e = Value v /\ typeof v = t.
Proof.
  unfold typeof_is. split.
  - destruct e as [v|]; simpl; intros H; [| discriminate].
    exists v. split; [done |]. apply String.eqb_eq. by injection H.
  - intros (v & -> & <-). simpl. by rewrite String.eqb_refl.
Qed.

Lemma le_true (a b : Completion JSValue) :
  le a b = Value true <-> exists x y, a = Value x /\ b = Value y /\ js_leb x y = true.
Proof.
  unfold le. split.
  - destruct a as [x|]; simpl; [| discriminate].
    destruct b as [y|]; simpl; [| discriminate].
    intros H. exists x, y. repeat split. by injection H.
  - intros (x & y & -> & -> & H). simpl. by rewrite H.
Qed.

Lemma every_true (callback : JSValue -> Completion bool) (elements : list JSValue) :
  every callback elements = Value true <->
  Forall (fun element => callback element = Value true) elements.
Proof.
  induction elements as [|element rest IH]; simpl.
  - split; [constructor | reflexivity].
  - rewrite and_then_true, IH. split.
    + intros [H1 H2]. by constructor.
    + intros H. inversion H; subst. by split.
Qed.

Lemma get_raises_only_TypeError o name : raises_only_TypeError (get o name).
Proof. intros e. destruct o; simpl; congruence. Qed.

Lemma Value_raises_only_TypeError {A : Type} (a : A) : raises_only_TypeError (Value a).
Proof. intros e. discriminate. Qed.

Lemma member_raises_only_TypeError e name :
  raises_only_TypeError e -> raises_only_TypeError (member e name).
Proof.
  intros He err. unfold member. destruct e as [o|e']; simpl.
  - apply get_raises_only_TypeError.
  - intros [= <-]. by apply He.
Qed.

Lemma typeof_is_raises_only_TypeError e t :
  raises_only_TypeError e -> raises_only_TypeError (typeof_is e t).
Proof.
  intros He err. unfold typeof_is. destruct e as [o|e']; simpl; [discriminate |].
  intros [= <-]. by apply He.
Qed.

Lemma le_raises_only_TypeError a b :
  raises_only_TypeError a -> raises_only_TypeError b -> raises_only_TypeError (le a b).
Proof.
  intros Ha Hb err. unfold le. destruct a as [x|ea]; simpl.
  - destruct b as [y|eb]; simpl; [discriminate |]. intros [= <-]. by apply Hb.
  - intros [= <-]. by apply Ha.
Qed.

Lemma and_then_raises_only_TypeError a b :
  raises_only_TypeError a -> raises_only_TypeError b ->
  raises_only_TypeError (a &&> b).
Proof.
  intros Ha Hb err. unfold and_then. destruct a as [[|]|ea].
  - apply Hb.
  - discriminate.
  - intros [= <-]. by apply Ha.
Qed.

Lemma every_raises_only_TypeError callback elements :
  (forall element, raises_only_TypeError (callback element)) ->
  raises_only_TypeError (every callback elements).
Proof.
  intros Hc. induction elements as [|element rest IH]; simpl.
  - apply Value_raises_only_TypeError.
  - by apply and_then_raises_only_TypeError.
Qed.

Create HintDb validity.
#[export] Hint Resolve get_raises_only_TypeError Value_raises_only_TypeError
  member_raises_only_TypeError typeof_is_raises_only_TypeError
  le_raises_only_TypeError and_then_raises_only_TypeError
  every_raises_only_TypeError : validity.

Lemma valid_raises_only_TypeError a value : raises_only_TypeError (valid a value).
Proof.
  destruct a; cbn [valid];
    unfold validAACubeValue, validArrayBufferValue, validBooleanArray,
      validBooleanValue, validColorValue, validFloat32Value, validQuatArray,
      validQuatValue, validRectValue, validStringValue, validUint8Value,
      validUint16Value, validUint32Value, validUint64Value, validUuidArray,
      validUuidValue, validVec2Value, validVec3Array, validVec3Value, validVec3,
      var, lit, mret, Completion_ret;
    auto 30 with validity.
Qed.

(** ** Running the writes of an appender *)

Lemma written_nil pos s : written pos [] s = s.
Proof. unfold written. rewrite splice_nil. by destruct s. Qed.

Lemma written_app pos acc bs s :
  0 <= pos -> pos + Z.of_nat (length acc) + Z.of_nat (length bs) <= byteLength (data s) ->
  with_data (splice (Z.to_nat (pos + Z.of_nat (length acc))) bs (data (written pos acc s)))
    (written pos acc s)
  = written pos (acc ++ bs) s.
Proof.
  intros H0 H1. unfold written, with_data, byteLength in *. simpl. f_equal.
  replace (Z.to_nat (pos + Z.of_nat (length acc)))
    with (Z.to_nat pos + length acc)%nat by lia.
  apply splice_app. lia.
Qed.

Lemma byteLength_written pos acc s :
  0 <= pos -> pos + Z.of_nat (length acc) <= byteLength (data s) ->
  byteLength (data (written pos acc s)) = byteLength (data s).
Proof.
  intros H0 H1. unfold written, byteLength in *. simpl. rewrite length_splice; lia.
Qed.

Lemma writes_at_store off bs : writes_at off (on_data (store off bs)) bs.
Proof.
  intros pos acc s H0 -> H1. unfold on_data.
  rewrite store_in_view; [| lia | rewrite byteLength_written; lia].
  f_equal. apply written_app; lia.
Qed.

Lemma writes_at_setBigUint128 off z le :
  writes_at off (on_data (setBigUint128 off z le)) (u128_bytes z le).
Proof.
  intros pos acc s H0 -> H1. rewrite length_u128_bytes in H1. unfold on_data.
  rewrite setBigUint128_in_view; [| lia | rewrite byteLength_written; lia].
  f_equal. apply written_app; [lia |]. rewrite length_u128_bytes. lia.
Qed.

Lemma writes_at_bind off m1 m2 b1 b2 :
  writes_at off m1 b1 -> writes_at (off + Z.of_nat (length b1)) m2 b2 ->
  writes_at off (m1 ;; m2) (b1 ++ b2).
Proof.
  intros W1 W2 pos acc s H0 Hoff H1. rewrite length_app in H1.
  unfold mbind, M_bind, bind. rewrite (W1 pos acc s) by lia.
  rewrite (W2 pos (acc ++ b1) s) by (rewrite ?length_app; lia).
  by rewrite app_assoc.
Qed.

Lemma writes_at_ret off : writes_at off (mret tt) [].
Proof. intros pos acc s _ _ _. by rewrite app_nil_r. Qed.

(** Running a write in front of a continuation. *)
Lemma bind_writes_at {A : Type} off m bs (k : unit -> M Store A) pos acc s :
  writes_at off m bs ->
  0 <= pos -> off = pos + Z.of_nat (length acc) ->
  off + Z.of_nat (length bs) <= byteLength (data s) ->
  (m ≫= k) (written pos acc s) = k tt (written pos (acc ++ bs) s).
Proof.
  intros W H0 Hoff H1. unfold mbind, M_bind, bind. by rewrite (W pos acc s).
Qed.

Lemma writes_at_ext off (m m' : M Store unit) bs :
  (forall s, m s = m' s) -> writes_at off m' bs -> writes_at off m bs.
Proof. intros E W pos acc s H0 H1 H2. rewrite E. by apply W. Qed.

Lemma writes_at_data_setUint8 off v :
  writes_at off (data_setUint8 off (Value v)) (uint_bytes 1 (truncate (ToNumber v)) true).
Proof. apply (writes_at_ext _ _ _ _ (fun s => eq_refl)), writes_at_store. Qed.

Lemma writes_at_data_setUint16 off v le :
  writes_at off (data_setUint16 off (Value v) le) (uint_bytes 2 (truncate (ToNumber v)) le).
Proof. apply (writes_at_ext _ _ _ _ (fun s => eq_refl)), writes_at_store. Qed.

Lemma writes_at_data_setUint32 off v le :
  writes_at off (data_setUint32 off (Value v) le) (uint_bytes 4 (truncate (ToNumber v)) le).
Proof. apply (writes_at_ext _ _ _ _ (fun s => eq_refl)), writes_at_store. Qed.

Lemma writes_at_data_setFloat32 off v le :
  writes_at off (data_setFloat32 off (Value v) le) (uint_bytes 4 (float32_bits (ToNumber v)) le).
Proof. apply (writes_at_ext _ _ _ _ (fun s => eq_refl)), writes_at_store. Qed.

Lemma writes_at_data_setBigUint64 off z le :
  writes_at off (data_setBigUint64 off (Value (JSBigInt z)) le) (uint_bytes 8 z le).
Proof. apply (writes_at_ext _ _ _ _ (fun s => eq_refl)), writes_at_store. Qed.

Lemma writes_at_data_setBigUint128 off z le :
  writes_at off (data_setBigUint128 off (Value z) le) (u128_bytes z le).
Proof. apply (writes_at_ext _ _ _ _ (fun s => eq_refl)), writes_at_setBigUint128. Qed.

Lemma writes_at_setUint8 off z :
  writes_at off (on_data (setUint8 off z)) (uint_bytes 1 z true).
Proof. apply writes_at_store. Qed.

Lemma writes_at_setUint16 off z le :
  writes_at off (on_data (setUint16 off z le)) (uint_bytes 2 z le).
Proof. apply writes_at_store. Qed.

Lemma writes_at_packOrientationQuatToBytes packedQuat off element :
  writes_at off (packOrientationQuatToBytes packedQuat off element)
    (uint_bytes 8 (packedQuat element) LITTLE_ENDIAN).
Proof. apply writes_at_store. Qed.

Lemma writes_at_copyBytes bytes startIndex i :
  writes_at (startIndex + i) (copyBytes bytes startIndex i)
    (map (fun b => b mod 256) bytes).
Proof.
  revert i. induction bytes as [|b rest IH]; intros i; simpl.
  - apply writes_at_ret.
  - change (b mod 256 :: map (fun b => b mod 256) rest)
      with (uint_bytes 1 b true ++ map (fun b => b mod 256) rest).
    apply writes_at_bind; [apply writes_at_store |].
    rewrite length_uint_bytes.
    replace (startIndex + i + Z.of_nat 1) with (startIndex + (i + 1)) by lia. apply IH.
Qed.

Lemma writes_at_forEach (P : JSValue -> Prop) body stride :
  (forall element off, P element ->
     exists bs, Z.of_nat (length bs) = stride /\ writes_at off (body off element) bs) ->
  forall elements off, Forall P elements ->
    exists bs, Z.of_nat (length bs) = stride * Z.of_nat (length elements)
               /\ writes_at off (forEach elements off stride body) bs.
Proof.
  intros Hbody. induction elements as [|element rest IH]; intros off HP.
  - exists []. split; [simpl; lia | apply writes_at_ret].
  - inversion HP as [|? ? Hel Hrest]; subst.
    destruct (Hbody element off Hel) as (b1 & Hb1 & W1).
    destruct (IH (off + stride) Hrest) as (b2 & Hb2 & W2).
    exists (b1 ++ b2). split.
    + rewrite length_app. simpl length. lia.
    + simpl. apply writes_at_bind; [done |]. by rewrite Hb1.
Qed.

Lemma writes_at_packBooleans elements :
  forall index bit current, 0 <= bit < 8 ->
    exists bs,
      Z.of_nat (length bs)
      = match elements with
        | [] => 0
        | _ => (bit + Z.of_nat (length elements) + 7) / 8
        end
      /\ writes_at index (packBooleans elements index bit current) bs.
Proof.
  induction elements as [|element rest IH]; intros index bit current Hbit.
  - exists []. split; [done | apply writes_at_ret].
  - cbn [packBooleans].
    set (current' := if ToBoolean element then _ else _).
    assert (Hbit' : 0 <= (bit + 1) mod 8 < 8) by (apply Z.mod_pos_bound; lia).
    destruct (((bit + 1) mod 8 =? 0) || match rest with [] => true | _ => false end)
      eqn:Hflush.
    + destruct (IH (index + 1) ((bit + 1) mod 8) 0 Hbit') as (bs & Hlen & W).
      exists (uint_bytes 1 current' true ++ bs). split.
      * rewrite length_app, length_uint_bytes, Nat2Z.inj_add, Hlen.
        destruct rest as [|r rest'].
        -- simpl length. Z.div_mod_to_equations. lia.
        -- rewrite orb_false_r in Hflush. apply Z.eqb_eq in Hflush.
           rewrite Hflush. simpl length. Z.div_mod_to_equations. lia.
      * apply writes_at_bind; [apply writes_at_store | by rewrite length_uint_bytes].
    + apply orb_false_iff in Hflush as [Hne Hrest].
      destruct rest as [|r rest']; [discriminate |].
      apply Z.eqb_neq in Hne.
      destruct (IH index ((bit + 1) mod 8) current' Hbit') as (bs & Hlen & W).
      exists bs. split; [| done].
      rewrite Hlen. simpl length. Z.div_mod_to_equations. lia.
Qed.

(** ** The three ways an appender returns *)

Lemma bind_lift_Value {S A B : Type} (c : Completion A) (a : A) (k : A -> M S B) s :
  c = Value a -> (lift c ≫= k) s = k a s.
Proof. intros ->. reflexivity. Qed.

Lemma bind_lift_Abrupt {S A B : Type} (c : Completion A) e (k : A -> M S B) s :
  c = Abrupt e -> (lift c ≫= k) s = Throw e s.
Proof. intros ->. reflexivity. Qed.

Lemma run_written_nil {A : Type} (m : M Store A) pos s r :
  m (written pos [] s) = r -> m s = r.
Proof. by rewrite written_nil. Qed.

Lemma bind_byteLength_fits {A : Type} (k1 k2 : M Store A) (bound : Z) s :
  bound <= byteLength (data s) ->
  (data_byteLength ≫= fun byteLength => if bound <=? byteLength then k1 else k2) s = k1 s.
Proof.
  intros H. unfold mbind, M_bind, bind, data_byteLength, gets.
  by destruct (Z.leb_spec bound (byteLength (data s))); [| lia].
Qed.

Lemma bind_byteLength_does_not_fit {A : Type} (k1 k2 : M Store A) (bound : Z) s :
  byteLength (data s) < bound ->
  (data_byteLength ≫= fun byteLength => if bound <=? byteLength then k1 else k2) s = k2 s.
Proof.
  intros H. unfold mbind, M_bind, bind, data_byteLength, gets.
  by destruct (Z.leb_spec bound (byteLength (data s))); [lia |].
Qed.

(** Takes a validity hypothesis apart into the values of the expressions it
    evaluated. *)
Ltac valid_inv H :=
  repeat match type of H with
         | _ &&> _ = Value true =>
             let H1 := fresh "Hv" in
             apply and_then_true in H as [H1 H]; valid_inv H1
         | typeof_is _ _ = Value true =>
             let v := fresh "v" in let E := fresh "E" in let T := fresh "T" in
             apply typeof_is_true in H as (v & E & T)
         | le _ _ = Value true =>
             let x := fresh "x" in let y := fresh "y" in
             let Ex := fresh "Ex" in let Ey := fresh "Ey" in let L := fresh "L" in
             apply le_true in H as (x & y & Ex & Ey & L)
         | every _ _ = Value true => apply every_true in H
         end.

(** Runs the next write of an appender's body. *)
Ltac write_step :=
  erewrite bind_writes_at;
  [ | first [ apply writes_at_data_setUint8 | apply writes_at_data_setUint16
            | apply writes_at_data_setUint32 | apply writes_at_data_setFloat32
            | apply writes_at_data_setBigUint64 | apply writes_at_data_setBigUint128
            | apply writes_at_setUint8 | apply writes_at_setUint16
            | apply writes_at_packOrientationQuatToBytes
            | apply writes_at_copyBytes | eassumption ]
    | lia
    | rewrite ?length_app, ?length_uint_bytes, ?length_u128_bytes, ?length_map; simpl length; lia
    | rewrite ?length_app, ?length_uint_bytes, ?length_u128_bytes, ?length_map; simpl length; lia ].

Ltac rewrite_values :=
  repeat match goal with
         | E : ?e = Value _ |- context [?e] => rewrite E
         end.

Ltac length_tac :=
  rewrite ?length_app, ?length_uint_bytes, ?length_u128_bytes, ?length_map;
  simpl length; lia.

Lemma writes_at_seq off off' m1 m2 b1 b2 :
  writes_at off m1 b1 -> off' = off + Z.of_nat (length b1) -> writes_at off' m2 b2 ->
  writes_at off (m1 ;; m2) (b1 ++ b2).
Proof. intros W1 -> W2. by apply writes_at_bind. Qed.

Lemma writes_at_vec3 off element :
  validVec3 element = Value true ->
  exists bs, Z.of_nat (length bs) = 12
    /\ writes_at off
         (data_setFloat32 off element#"x" LITTLE_ENDIAN;;
          data_setFloat32 (off + 4) element#"y" LITTLE_ENDIAN;;
          data_setFloat32 (off + 8) element#"z" LITTLE_ENDIAN) bs.
Proof.
  intros Hv. unfold validVec3 in Hv. valid_inv Hv. rewrite_values.
  eexists. split; cycle 1.
  - eapply writes_at_seq; [apply writes_at_data_setFloat32 | by rewrite length_uint_bytes |].
    eapply writes_at_seq; [apply writes_at_data_setFloat32 | | apply writes_at_data_setFloat32].
    rewrite length_uint_bytes. lia.
  - length_tac.
Qed.

Lemma writes_at_uuid off uuid :
  instanceof_Uuid uuid = true ->
  exists bs, Z.of_nat (length bs) = 16
    /\ writes_at off (data_setBigUint128 off (call_value uuid) BIG_ENDIAN) bs.
Proof.
  intros Hv. destruct uuid; try discriminate. simpl call_value.
  eexists. split; [| apply writes_at_data_setBigUint128]. length_tac.
Qed.

Lemma raises_at_store off bs : raises_at off (on_data (store off bs)).
Proof.
  intros s H. unfold on_data. rewrite store_out_of_view by lia. by destruct s.
Qed.

Lemma raises_at_ext off (m m' : M Store unit) :
  (forall s, m s = m' s) -> raises_at off m' -> raises_at off m.
Proof. intros E W s H. rewrite E. by apply W. Qed.

Lemma raises_at_data_setUint8 off v : raises_at off (data_setUint8 off (Value v)).
Proof. apply (raises_at_ext _ _ _ (fun s => eq_refl)), raises_at_store. Qed.

Lemma raises_at_data_setUint16 off v le : raises_at off (data_setUint16 off (Value v) le).
Proof. apply (raises_at_ext _ _ _ (fun s => eq_refl)), raises_at_store. Qed.

Lemma raises_at_data_setUint32 off v le : raises_at off (data_setUint32 off (Value v) le).
Proof. apply (raises_at_ext _ _ _ (fun s => eq_refl)), raises_at_store. Qed.

Lemma raises_at_data_setFloat32 off v le : raises_at off (data_setFloat32 off (Value v) le).
Proof. apply (raises_at_ext _ _ _ (fun s => eq_refl)), raises_at_store. Qed.

Lemma raises_at_data_setBigUint64 off z le :
  raises_at off (data_setBigUint64 off (Value (JSBigInt z)) le).
Proof. apply (raises_at_ext _ _ _ (fun s => eq_refl)), raises_at_store. Qed.

Lemma raises_at_setUint8 off z : raises_at off (on_data (setUint8 off z)).
Proof. apply raises_at_store. Qed.

Lemma raises_at_setUint16 off z le : raises_at off (on_data (setUint16 off z le)).
Proof. apply raises_at_store. Qed.

Lemma raises_at_packOrientationQuatToBytes packedQuat off element :
  raises_at off (packOrientationQuatToBytes packedQuat off element).
Proof. apply raises_at_store. Qed.

Lemma bind_raises_at {A : Type} off m (k : unit -> M Store A) s :
  raises_at off m -> off < 0 -> (m ≫= k) s = Throw RangeError s.
Proof. intros W H. unfold mbind, M_bind, bind. by rewrite (W s H). Qed.

Section Appenders.

Variable packedQuat : JSValue -> Z.

Ltac open_appender Hv :=
  match goal with
  | |- context [?f ?pos ?flag ?value ?s] =>
      match type of s with Store => unfold f end
  | |- context [?f ?pos ?flag ?value ?le ?s] =>
      match type of s with Store => unfold f end
  end;
  rewrite (bind_lift_Value _ _ _ _ Hv); cbn [negb]; cbv zeta.

Ltac simple_fit Hv pos :=
  open_appender Hv;
  rewrite bind_byteLength_fits by lia;
  repeat match type of Hv with ?v _ = _ => unfold v in Hv end;
  valid_inv Hv;
  eexists; split; cycle 1;
  [ apply run_written_nil with pos; rewrite_values; repeat write_step; reflexivity
  | length_tac ].

(** A valid value that fits is written in full. *)
Lemma append_fit a pos flag value littleEndian s :
  valid a value = Value true ->
  0 <= pos -> pos + serializedSize a value <= byteLength (data s) ->
  exists bs, Z.of_nat (length bs) = serializedSize a value
    /\ append packedQuat a pos flag value littleEndian s
       = Normal (serializedSize a value) (appended flag pos bs s).
Proof.
  intros Hv H0 H1.
  destruct a; cbn [valid serializedSize append] in *; try (simple_fit Hv pos).
  - (* boolean array *)
    open_appender Hv. rewrite bind_byteLength_fits by lia.
    unfold validBooleanArray in Hv. valid_inv Hv.
    destruct value; try discriminate. cbn [elements_of] in *.
    destruct (writes_at_packBooleans elements (pos + 2) 0 0 ltac:(lia)) as (bs & Hlen & W).
    assert (Hlen' : Z.of_nat (length bs) = (Z.of_nat (length elements) + 7) / 8)
      by (rewrite Hlen; destruct elements; reflexivity).
    clear Hlen. eexists. split; cycle 1.
    + apply run_written_nil with pos. do 2 write_step. reflexivity.
    + rewrite !length_app, length_uint_bytes, !Nat2Z.inj_add, Hlen'. simpl length. lia.
  - (* quat array *)
    open_appender Hv. rewrite bind_byteLength_fits by lia.
    unfold validQuatArray in Hv. valid_inv Hv.
    destruct value; try discriminate. cbn [elements_of] in *.
    rewrite (Z.mul_comm _ 8).
    destruct (writes_at_forEach (fun _ => True)
                (fun index element => packOrientationQuatToBytes packedQuat index element)
                8) with (elements := elements) (off := pos + 2) as (bs & Hlen & W).
    { intros element off _. eexists. split;
        [| apply writes_at_packOrientationQuatToBytes]. length_tac. }
    { by apply Forall_true. }
    eexists. split; cycle 1.
    + apply run_written_nil with pos. do 2 write_step. reflexivity.
    + rewrite !length_app, length_uint_bytes, !Nat2Z.inj_add, Hlen. simpl length. lia.
  - (* uint64 *)
    open_appender Hv. rewrite bind_byteLength_fits by lia.
    unfold validUint64Value in Hv. valid_inv Hv.
    injection E as <-. destruct value; try discriminate.
    eexists. split; cycle 1.
    + apply run_written_nil with pos. write_step. reflexivity.
    + length_tac.
  - (* UUID array *)
    open_appender Hv. rewrite bind_byteLength_fits by lia.
    unfold validUuidArray in Hv. valid_inv Hv.
    destruct value; try discriminate. cbn [elements_of] in *.
    rewrite (Z.mul_comm _ 16).
    destruct (writes_at_forEach (fun uuid => instanceof_Uuid uuid = true)
                (fun index uuid => data_setBigUint128 index (call_value uuid) BIG_ENDIAN)
                16) with (elements := elements) (off := pos + 2) as (bs & Hlen & W).
    { intros uuid off Hu. by apply writes_at_uuid. }
    { eapply Forall_impl; [exact Hv |]. intros uuid Hu. by injection Hu. }
    eexists. split; cycle 1.
    + apply run_written_nil with pos. do 2 write_step. reflexivity.
    + rewrite !length_app, length_uint_bytes, !Nat2Z.inj_add, Hlen. simpl length. lia.
  - (* UUID *)
    unfold appendUuidValue. rewrite (bind_lift_Value _ _ _ _ Hv). cbn [negb].
    destruct value; try discriminate. simpl call_isNull.
    rewrite (bind_lift_Value _ _ _ _ eq_refl).
    destruct (Uuid_isNull u); cbv zeta; rewrite bind_byteLength_fits by lia.
    + eexists. split; cycle 1.
      * apply run_written_nil with pos. write_step. reflexivity.
      * length_tac.
    + simpl call_value. eexists. split; cycle 1.
      * apply run_written_nil with pos. do 2 write_step. reflexivity.
      * length_tac.
  - (* vec3 array *)
    open_appender Hv. rewrite bind_byteLength_fits by lia.
    unfold validVec3Array in Hv. valid_inv Hv.
    destruct value; try discriminate. cbn [elements_of] in *.
    rewrite (Z.mul_comm _ 12).
    destruct (writes_at_forEach (fun element => validVec3 element = Value true)
                (fun index element =>
                   data_setFloat32 index element#"x" LITTLE_ENDIAN;;
                   data_setFloat32 (index + 4) element#"y" LITTLE_ENDIAN;;
                   data_setFloat32 (index + 8) element#"z" LITTLE_ENDIAN)
                12) with (elements := elements) (off := pos + 2) as (bs & Hlen & W).
    { intros element off He. by apply writes_at_vec3. }
    { exact Hv. }
    eexists. split; cycle 1.
    + apply run_written_nil with pos. do 2 write_step. reflexivity.
    + rewrite !length_app, length_uint_bytes, !Nat2Z.inj_add, Hlen. simpl length. lia.
Qed.

(** A valid value that does not fit: nothing is written, the state becomes
    PARTIAL. *)
Lemma append_does_not_fit a pos flag value littleEndian s :
  valid a value = Value true ->
  byteLength (data s) < pos + serializedSize a value ->
  append packedQuat a pos flag value littleEndian s
  = Normal 0 (with_context (partial (packetContext s)) s).
Proof.
  intros Hv H1.
  destruct a; cbn [valid serializedSize append] in *;
    try (open_appender Hv; rewrite bind_byteLength_does_not_fit by lia; reflexivity).
  unfold appendUuidValue. rewrite (bind_lift_Value _ _ _ _ Hv). cbn [negb].
  destruct value; try discriminate. simpl call_isNull.
  rewrite (bind_lift_Value _ _ _ _ eq_refl).
  destruct (Uuid_isNull u); cbv zeta;
    rewrite bind_byteLength_does_not_fit by lia; reflexivity.
Qed.

(** An invalid value: the error is logged and nothing else changes. *)
Lemma append_invalid a pos flag value littleEndian s :
  valid a value = Value false ->
  append packedQuat a pos flag value littleEndian s
  = Normal 0 (logged (errorMessage a) s).
Proof.
  intros Hv.
  destruct a; cbn [valid errorMessage append] in *;
    match goal with
    | |- context [?f ?pos ?flag ?value ?s] =>
        match type of s with Store => unfold f end
    | |- context [?f ?pos ?flag ?value ?le ?s] =>
        match type of s with Store => unfold f end
    end;
    rewrite (bind_lift_Value _ _ _ _ Hv); reflexivity.
Qed.

(** A validity check that raises: the appender raises the same error and
    nothing changes. *)
Lemma append_abrupt a pos flag value littleEndian s e :
  valid a value = Abrupt e ->
  append packedQuat a pos flag value littleEndian s = Throw e s.
Proof.
  intros Hv.
  destruct a; cbn [valid append] in *;
    match goal with
    | |- context [?f ?pos ?flag ?value ?s] =>
        match type of s with Store => unfold f end
    | |- context [?f ?pos ?flag ?value ?le ?s] =>
        match type of s with Store => unfold f end
    end;
    rewrite (bind_lift_Abrupt _ _ _ _ Hv); reflexivity.
Qed.

(** A valid value at a negative position: the first access to the view
    raises [RangeError], and nothing changes. *)
Lemma append_negative_position a pos flag value littleEndian s :
  valid a value = Value true ->
  pos < 0 -> pos + serializedSize a value <= byteLength (data s) ->
  append packedQuat a pos flag value littleEndian s = Throw RangeError s.
Proof.
  intros Hv H0 H1.
  assert (Hgo : forall (m : M Store unit) (k : unit -> M Store Z),
            raises_at pos m -> (m ≫= k) s = Throw RangeError s)
    by (intros m k W; by apply bind_raises_at with pos).
  destruct a; cbn [valid serializedSize append] in *;
    try (open_appender Hv; rewrite bind_byteLength_fits by lia;
         repeat match type of Hv with ?v _ = _ => unfold v in Hv end;
         valid_inv Hv; rewrite_values;
         apply Hgo;
         first [ apply raises_at_data_setUint8 | apply raises_at_data_setUint16
               | apply raises_at_data_setUint32 | apply raises_at_data_setFloat32
               | apply raises_at_data_setBigUint64
               | apply raises_at_setUint8 | apply raises_at_setUint16
               | apply raises_at_packOrientationQuatToBytes ]).
  - open_appender Hv. rewrite bind_byteLength_fits by lia.
    unfold validUint64Value in Hv. valid_inv Hv.
    injection E as <-. destruct value; try discriminate.
    apply Hgo, raises_at_data_setBigUint64.
  - unfold appendUuidValue. rewrite (bind_lift_Value _ _ _ _ Hv). cbn [negb].
    destruct value; try discriminate. simpl call_isNull.
    rewrite (bind_lift_Value _ _ _ _ eq_refl).
    destruct (Uuid_isNull u); cbv zeta; rewrite bind_byteLength_fits by lia;
      apply Hgo, raises_at_setUint16.
Qed.

(** C2. An appender whose value is valid but does not fit returns 0, writes
    nothing, sets [appendState] to PARTIAL and leaves the rest of the packet
    context as it was.  Consequently, whatever the arguments and however the
    call ends: the view keeps its length; at a non-negative position no
    access leaves the view (no [RangeError] is raised); and a byte count
    returned for a position inside the view stays inside it, being 0 or the
    size of a value that was checked to fit. *)
Theorem append_buffer_safety a dataPosition flag value littleEndian s :
  (valid a value = Value true ->
   byteLength (data s) < dataPosition + serializedSize a value ->
   exists s' : Store,
     append packedQuat a dataPosition flag value littleEndian s = Normal 0 s'
     /\ data s' = data s
     /\ appendState (packetContext s') = PARTIAL
     /\ propertiesToWrite (packetContext s') = propertiesToWrite (packetContext s)
     /\ propertiesWritten (packetContext s') = propertiesWritten (packetContext s)
     /\ propertyCount (packetContext s') = propertyCount (packetContext s))
  /\ (let r := append packedQuat a dataPosition flag value littleEndian s in
      byteLength (data (result_store r)) = byteLength (data s)
      /\ (0 <= dataPosition -> forall s', r <> Throw RangeError s')
      /\ (forall n s', r = Normal n s' ->
            (n = 0 \/ (0 <= dataPosition /\ dataPosition + n <= byteLength (data s)))
            /\ (dataPosition <= byteLength (data s) ->
                dataPosition + n <= byteLength (data s)))).
Proof.
  split.
  { intros Hv H1. eexists. split; [by apply append_does_not_fit |]. by repeat split. }
  cbv zeta.
  destruct (valid a value) as [[|]|e] eqn:Hv.
  - destruct (Z_lt_le_dec (byteLength (data s)) (dataPosition + serializedSize a value))
      as [Hno | Hfit].
    + rewrite (append_does_not_fit a _ flag value littleEndian s Hv Hno).
      split; [done |]. split; [discriminate |].
      intros n s' [= <- <-]. split; [by left | lia].
    + destruct (Z_lt_le_dec dataPosition 0) as [Hneg | Hpos].
      * rewrite (append_negative_position a _ flag value littleEndian s Hv Hneg Hfit).
        split; [done |]. split; [lia | discriminate].
      * destruct (append_fit a _ flag value littleEndian s Hv Hpos Hfit)
          as (bs & Hlen & ->).
        split.
        { cbn [result_store appended data]. apply byteLength_splice.
          unfold byteLength in Hfit. lia. }
        split; [discriminate |].
        intros n s' [= <- <-]. split; [right |]; lia.
  - rewrite (append_invalid a _ flag value littleEndian s Hv).
    split; [done |]. split; [discriminate |].
    intros n s' [= <- <-]. split; [by left | lia].
  - rewrite (append_abrupt a _ flag value littleEndian s e Hv).
    split; [done |]. split; [| discriminate].
    intros _ s' [= Hvalid]. subst e.
    by pose proof (valid_raises_only_TypeError a value _ Hv).
Qed.

(** C4. An appender whose value fails its validity check logs its error
    message, returns 0, and changes neither the bytes of the packet nor the
    packet context.  In particular an array of more than 65535 elements fails
    the validity check of each array appender, with this outcome. *)
Theorem append_invalid_value a dataPosition flag value littleEndian s :
  (valid a value = Value false ->
   exists s' : Store,
     append packedQuat a dataPosition flag value littleEndian s = Normal 0 s'
     /\ console s' = console s ++ [errorMessage a]
     /\ data s' = data s
     /\ packetContext s' = packetContext s)
  /\ (is_array_appender a = true ->
      forall elements : list JSValue,
        value = JSArray elements -> 65535 < Z.of_nat (length elements) ->
        valid a value = Value false
        /\ exists s' : Store,
             append packedQuat a dataPosition flag value littleEndian s = Normal 0 s'
             /\ console s' = console s ++ [errorMessage a]
             /\ data s' = data s
             /\ packetContext s' = packetContext s).
Proof.
  assert (Hinvalid : valid a value = Value false ->
            exists s' : Store,
              append packedQuat a dataPosition flag value littleEndian s = Normal 0 s'
              /\ console s' = console s ++ [errorMessage a]
              /\ data s' = data s
              /\ packetContext s' = packetContext s).
  { intros Hv. exists (logged (errorMessage a) s).
    split; [by apply append_invalid | by repeat split]. }
  split; [exact Hinvalid |].
  intros Harray elements -> Hlong.
  assert (Hv : valid a (JSArray elements) = Value false).
  { destruct a; try discriminate; cbn [valid];
      unfold validBooleanArray, validQuatArray, validUuidArray, validVec3Array;
      cbn [Array_isArray elements_of];
      destruct (Z.leb_spec (Z.of_nat (length elements)) 65535); (lia || reflexivity). }
  split; [exact Hv | by apply Hinvalid].
Qed.

(** C6. If [propertiesToWrite] and [propertiesWritten] share no flag before a
    call of an appender, they share none in the store the call leaves,
    whether the value was invalid, did not fit or was written, and also when
    the call raised. *)
Theorem append_preserves_disjointness a dataPosition flag value littleEndian s :
  propertiesToWrite (packetContext s) ∩ propertiesWritten (packetContext s) = ∅ ->
  let s' := result_store (append packedQuat a dataPosition flag value littleEndian s) in
  propertiesToWrite (packetContext s') ∩ propertiesWritten (packetContext s') = ∅.
Proof.
  intros Hdisjoint. cbv zeta.
  destruct (valid a value) as [[|]|e] eqn:Hv.
  - destruct (Z_lt_le_dec (byteLength (data s)) (dataPosition + serializedSize a value))
      as [Hno | Hfit].
    + by rewrite (append_does_not_fit a _ flag value littleEndian s Hv Hno).
    + destruct (Z_lt_le_dec dataPosition 0) as [Hneg | Hpos].
      * by rewrite (append_negative_position a _ flag value littleEndian s Hv Hneg Hfit).
      * destruct (append_fit a _ flag value littleEndian s Hv Hpos Hfit)
          as (bs & Hlen & ->).
        cbn [result_store appended packetContext committed propertiesToWrite
             propertiesWritten].
        apply leibniz_equiv. intros x.
        rewrite elem_of_intersection, elem_of_difference, elem_of_union,
          elem_of_singleton.
        split; [| by intros ?%not_elem_of_empty].
        intros [[Hto Hne] [Hwr | Heq]]; [| done].
        exfalso. apply (not_elem_of_empty (C := gset Z) x).
        rewrite <- Hdisjoint. by apply elem_of_intersection.
  - by rewrite (append_invalid a _ flag value littleEndian s Hv).
  - by rewrite (append_abrupt a _ flag value littleEndian s e Hv).
Qed.

End Appenders.

(** ** The appenders' contract at concrete calls *)

Lemma append_buffer_safety_witness :
  exists s' : Store,
    append noQuat Vec3Value 0 7 testVec3 false testStore = Normal 0 s'
    /\ data s' = data testStore
    /\ appendState (packetContext s') = PARTIAL
    /\ propertiesToWrite (packetContext s') = propertiesToWrite (packetContext testStore)
    /\ propertiesWritten (packetContext s') = propertiesWritten (packetContext testStore)
    /\ propertyCount (packetContext s') = propertyCount (packetContext testStore).
Proof.
  apply (append_buffer_safety noQuat Vec3Value 0 7 testVec3 false testStore);
    [vm_compute; reflexivity | vm_compute; reflexivity].
Defined.

Lemma append_invalid_value_witness :
  (exists s' : Store,
     append noQuat BooleanArray 0 7 longArray false testStore = Normal 0 s'
     /\ console s' = console testStore ++ [errorMessage BooleanArray]
     /\ data s' = data testStore
     /\ packetContext s' = packetContext testStore)
  /\ valid BooleanArray longArray = Value false.
Proof.
  destruct (append_invalid_value noQuat BooleanArray 0 7 longArray false testStore)
    as [Hinvalid Hlong].
  split.
  - apply Hinvalid. vm_compute. reflexivity.
  - apply (Hlong eq_refl (repeat (JSBoolean true) (Z.to_nat 65536)) eq_refl).
    vm_compute. reflexivity.
Defined.

Lemma append_preserves_disjointness_witness :
  let s' := result_store (append noQuat ColorValue 1 7 testColor false testStore) in
  propertiesToWrite (packetContext s') ∩ propertiesWritten (packetContext s') = ∅.
Proof.
  apply (append_preserves_disjointness noQuat ColorValue 1 7 testColor false testStore).
  vm_compute. reflexivity.
Defined.

(** ** appendFloat32Value and the range of binary32 *)

Lemma MAX_FLOAT32_eq : MAX_FLOAT32 = S754_finite false 9007198806847480 75.
Proof. vm_compute. reflexivity. Qed.

Lemma validFloat32Value_number x :
  validFloat32Value (JSNumber x)
  = Value (SFleb (SFopp MAX_FLOAT32) x && SFleb x MAX_FLOAT32).
Proof.
  unfold validFloat32Value, typeof_is, le, lit, var, and_then. cbn [mbind Completion_bind typeof].
  cbn [mret Completion_ret String.eqb Ascii.eqb Bool.eqb js_leb].
  by destruct (SFleb (SFopp MAX_FLOAT32) x).
Qed.

(** [-M <= x && x <= M] is [|x| <= M], for a positive finite [M]. *)
Lemma SFleb_abs mM eM x :
  isFinite x = true ->
  SFleb (SFopp (S754_finite false mM eM)) x && SFleb x (S754_finite false mM eM)
  = SFleb (SFabs x) (S754_finite false mM eM).
Proof.
  destruct x as [s| |  |s m e]; try discriminate; intros _.
  - by destruct s.
  - destruct s; unfold SFleb, SFopp, SFabs, SFcompare; cbn [negb andb].
    + change (PosDef.Pos.compare_cont Eq mM m) with (Pos.compare mM m).
      change (PosDef.Pos.compare_cont Eq m mM) with (Pos.compare m mM).
      rewrite (Z.compare_antisym e eM), (Pos.compare_antisym m mM).
      destruct (e ?= eM); cbn [CompOpp]; try reflexivity.
      by destruct (Pos.compare m mM).
    + reflexivity.
Qed.

Lemma SFltb_not_SFleb mM eM x :
  SFltb (S754_finite false mM eM) (SFabs x) = true ->
  SFleb (SFabs x) (S754_finite false mM eM) = false.
Proof.
  destruct x as [s|s| |s m e]; try discriminate; try reflexivity.
  unfold SFltb, SFleb, SFabs, SFcompare.
  change (PosDef.Pos.compare_cont Eq mM m) with (Pos.compare mM m).
  change (PosDef.Pos.compare_cont Eq m mM) with (Pos.compare m mM).
  rewrite (Z.compare_antisym e eM), (Pos.compare_antisym m mM).
  destruct (e ?= eM); cbn [CompOpp]; try discriminate; try reflexivity.
  by destruct (Pos.compare m mM).
Qed.

(** C7. [appendFloat32Value] rejects NaN, both infinities and every number of
    magnitude above 3.4028235e38: it returns 0 and changes neither the bytes
    nor the packet context.  A finite number of magnitude at most
    3.4028235e38 that fits at a position of the packet is written as the four
    bytes of its binary32 value, in the byte order asked for, and 4 is
    returned. *)
Theorem appendFloat32Value_finite_only dataPosition flag x littleEndian s :
  (x = S754_nan \/ x = S754_infinity false \/ x = S754_infinity true
   \/ SFltb MAX_FLOAT32 (SFabs x) = true ->
   exists s' : Store,
     appendFloat32Value dataPosition flag (JSNumber x) littleEndian s = Normal 0 s'
     /\ data s' = data s
     /\ packetContext s' = packetContext s)
  /\ (isFinite x = true -> SFleb (SFabs x) MAX_FLOAT32 = true ->
      0 <= dataPosition -> dataPosition + 4 <= byteLength (data s) ->
      exists s' : Store,
        appendFloat32Value dataPosition flag (JSNumber x) littleEndian s = Normal 4 s'
        /\ data s' = take (Z.to_nat dataPosition) (data s)
                     ++ uint_bytes 4 (float32_bits x) littleEndian
                     ++ drop (Z.to_nat (dataPosition + 4)) (data s)
        /\ packetContext s' = committed flag (packetContext s)).
Proof.
  split.
  - intros Hx.
    assert (Hv : valid Float32Value (JSNumber x) = Value false).
    { cbn [valid]. rewrite validFloat32Value_number. f_equal.
      rewrite MAX_FLOAT32_eq in *.
      destruct Hx as [-> | [-> | [-> | Hx]]]; try reflexivity.
      destruct (isFinite x) eqn:Hfin.
      - rewrite SFleb_abs by exact Hfin. by apply SFltb_not_SFleb.
      - destruct x as [? | [|] | | ]; try discriminate; reflexivity. }
    exists (logged (errorMessage Float32Value) s).
    split; [| by split].
    apply (append_invalid (fun _ => 0) Float32Value dataPosition flag _ littleEndian s Hv).
  - intros Hfin Hle H0 H1.
    assert (Hv : validFloat32Value (JSNumber x) = Value true).
    { rewrite validFloat32Value_number. f_equal.
      rewrite MAX_FLOAT32_eq in *. by rewrite SFleb_abs. }
    exists (appended flag dataPosition (uint_bytes 4 (float32_bits x) littleEndian) s).
    split; [| split; [| reflexivity]].
    + unfold appendFloat32Value. rewrite (bind_lift_Value _ _ _ _ Hv). cbn [negb]. cbv zeta.
      rewrite bind_byteLength_fits by lia.
      apply run_written_nil with dataPosition. unfold var. write_step. reflexivity.
    + cbn [appended data]. unfold splice. rewrite length_uint_bytes.
      do 3 f_equal. lia.
Qed.

Lemma appendFloat32Value_finite_only_witness :
  (exists s' : Store,
     appendFloat32Value 0 7 (JSNumber S754_nan) LITTLE_ENDIAN testStore = Normal 0 s'
     /\ data s' = data testStore
     /\ packetContext s' = packetContext testStore)
  /\ (exists s' : Store,
        appendFloat32Value 0 7 (JSNumber (num 15)) LITTLE_ENDIAN testStore = Normal 4 s'
        /\ data s' = take (Z.to_nat 0) (data testStore)
                     ++ uint_bytes 4 (float32_bits (num 15)) LITTLE_ENDIAN
                     ++ drop (Z.to_nat (0 + 4)) (data testStore)
        /\ packetContext s' = committed 7 (packetContext testStore)).
Proof.
  split.
  - apply (appendFloat32Value_finite_only 0 7 S754_nan LITTLE_ENDIAN testStore).
    left. reflexivity.
  - apply (appendFloat32Value_finite_only 0 7 (num 15) LITTLE_ENDIAN testStore);
      [vm_compute; reflexivity | vm_compute; reflexivity | lia | vm_compute; discriminate].
Defined.

(** ** appendUuidValue and the big-endian image of a UUID *)

Lemma le_bytes_add n m v :
  le_bytes (n + m) v = le_bytes n v ++ le_bytes m (v / 2 ^ (8 * Z.of_nat n)).
Proof.
  revert v. induction n as [|n IH]; intros v.
  - simpl. by rewrite Z.div_1_r.
  - cbn [Nat.add le_bytes app]. rewrite IH. do 3 f_equal.
    replace (8 * Z.of_nat (S n)) with (8 + 8 * Z.of_nat n) by lia.
    rewrite Z.pow_add_r by lia. change (2 ^ 8) with 256.
    rewrite Z.div_div by lia. reflexivity.
Qed.

Lemma le_bytes_mod n v : le_bytes n (v mod 2 ^ (8 * Z.of_nat n)) = le_bytes n v.
Proof.
  revert v. induction n as [|n IH]; intros v; [reflexivity |].
  cbn [le_bytes].
  replace (8 * Z.of_nat (S n)) with (8 + 8 * Z.of_nat n) by lia.
  rewrite Z.pow_add_r by lia. change (2 ^ 8) with 256.
  rewrite Z.rem_mul_r by lia.
  f_equal.
  - rewrite (Z.mul_comm 256), Z.mod_add by lia. apply Z.mod_mod. lia.
  - rewrite (Z.mul_comm 256), Z.div_add by lia.
    rewrite Z.div_small by (apply Z.mod_pos_bound; lia). apply IH.
Qed.

(** Big-endian, [setBigUint128] writes the 16 bytes of the value, most
    significant first, for every value that it does not replace by 0. *)
Lemma u128_bytes_big_endian v :
  v <= MAX_U128_VALUE -> u128_bytes v BIG_ENDIAN = uint_bytes 16 v BIG_ENDIAN.
Proof.
  intros Hv. unfold u128_bytes, uint_bytes, BIG_ENDIAN.
  destruct (Z.gtb_spec v MAX_U128_VALUE); [lia |].
  rewrite <- rev_app_distr. f_equal.
  change 16%nat with (8 + 8)%nat. rewrite le_bytes_add.
  unfold SHIFT_64_BITS, MASK_64_BITS. change 0xffffffffffffffff with (Z.ones 64).
  rewrite Z.land_ones, Z.shiftr_div_pow2 by lia.
  change (8 * Z.of_nat 8) with 64. f_equal.
  apply (le_bytes_mod 8 v).
Qed.

(** C8. [appendUuidValue] encodes a null UUID as the two bytes of a
    little-endian u16 length 0 and returns 2; it encodes a non-null UUID as
    the two bytes of the length 16 followed by the 16 bytes of the UUID's
    128-bit value, most significant byte first, and returns 18; in both cases
    provided the bytes fit at the position. *)
Theorem appendUuidValue_layout dataPosition flag u s :
  0 <= dataPosition ->
  (Uuid_isNull u = true -> dataPosition + 2 <= byteLength (data s) ->
   exists s' : Store,
     appendUuidValue dataPosition flag (JSUuid u) s = Normal 2 s'
     /\ data s' = take (Z.to_nat dataPosition) (data s) ++ [0; 0]
                  ++ drop (Z.to_nat (dataPosition + 2)) (data s)
     /\ packetContext s' = committed flag (packetContext s))
  /\ (Uuid_isNull u = false -> 0 <= Uuid_value u < 2 ^ 128 ->
      dataPosition + 18 <= byteLength (data s) ->
      exists s' : Store,
        appendUuidValue dataPosition flag (JSUuid u) s = Normal 18 s'
        /\ data s' = take (Z.to_nat dataPosition) (data s)
                     ++ ([16; 0] ++ rev (le_bytes 16 (Uuid_value u)))
                     ++ drop (Z.to_nat (dataPosition + 18)) (data s)
        /\ packetContext s' = committed flag (packetContext s)).
Proof.
  intros H0. split.
  - intros Hnull H1.
    exists (appended flag dataPosition (uint_bytes 2 0 LITTLE_ENDIAN) s).
    split; [| split; [| reflexivity]].
    + unfold appendUuidValue. rewrite (bind_lift_Value _ true _ _ eq_refl). cbn [negb].
      simpl call_isNull. rewrite (bind_lift_Value _ _ _ _ eq_refl).
      rewrite Hnull. cbv zeta. rewrite bind_byteLength_fits by lia.
      apply run_written_nil with dataPosition. write_step. reflexivity.
    + cbn [appended data]. unfold splice. simpl length. do 3 f_equal. lia.
  - intros Hnull Hrange H1.
    exists (appended flag dataPosition
              (uint_bytes 2 16 LITTLE_ENDIAN ++ u128_bytes (Uuid_value u) BIG_ENDIAN) s).
    split; [| split; [| reflexivity]].
    + unfold appendUuidValue. rewrite (bind_lift_Value _ true _ _ eq_refl). cbn [negb].
      simpl call_isNull. rewrite (bind_lift_Value _ _ _ _ eq_refl).
      rewrite Hnull. cbv zeta. rewrite bind_byteLength_fits by lia.
      simpl call_value.
      apply run_written_nil with dataPosition. do 2 write_step. reflexivity.
    + cbn [appended data]. unfold splice.
      rewrite u128_bytes_big_endian by (unfold MAX_U128_VALUE; lia).
      rewrite length_app, !length_uint_bytes.
      change (uint_bytes 2 16 LITTLE_ENDIAN) with [16; 0].
      unfold uint_bytes, BIG_ENDIAN. do 3 f_equal. lia.
Qed.

Lemma appendUuidValue_layout_witness :
  (exists s' : Store,
     appendUuidValue 1 7 (JSUuid (mkUuid 0 true)) testStore = Normal 2 s'
     /\ data s' = take (Z.to_nat 1) (data testStore) ++ [0; 0]
                  ++ drop (Z.to_nat (1 + 2)) (data testStore)
     /\ packetContext s' = committed 7 (packetContext testStore))
  /\ (exists s' : Store,
        appendUuidValue 0 7 (JSUuid (mkUuid 0xa82f40b6ee8946ccb50402b88d72a546 false))
          (mkStore (repeat 0 18) emptyContext []) = Normal 18 s'
        /\ data s' = take (Z.to_nat 0) (repeat 0 18)
                     ++ ([16; 0] ++ rev (le_bytes 16 0xa82f40b6ee8946ccb50402b88d72a546))
                     ++ drop (Z.to_nat (0 + 18)) (repeat 0 18)
        /\ packetContext s' = committed 7 emptyContext).
Proof.
  split.
  - apply (appendUuidValue_layout 1 7 (mkUuid 0 true) testStore);
      [lia | reflexivity | vm_compute; discriminate].
  - apply (appendUuidValue_layout 0 7 (mkUuid 0xa82f40b6ee8946ccb50402b88d72a546 false)
             (mkStore (repeat 0 18) emptyContext []));
      [lia | reflexivity | cbn [Uuid_value]; lia | vm_compute; discriminate].
Defined.

(** ** appendColorValue and components outside 0 - 255 *)

(** The validity check of [appendColorValue] looks at the types of the
    components only: every color whose components are numbers passes it. *)
Lemma validColorValue_any_numbers red green blue :
  validColorValue (colorOf red green blue) = Value true.
Proof. reflexivity. Qed.

(** C9 (the code at a color with red = 300).  [appendColorValue] does not
    treat the color as invalid: it logs nothing, returns 3, writes 300 mod 256
    = 44 for the red component and marks the property as written, whereas
    [appendUint8Value] rejects the same number 300. *)
Theorem appendColorValue_out_of_range :
  let value := colorOf (num 300) (num 37) (num 148) in
  let s := mkStore [0; 0; 0] (mkContext {[7]} ∅ 0 COMPLETED) [] in
  appendColorValue 0 7 value s
  = Normal 3 (mkStore [44; 37; 148] (committed 7 (packetContext s)) [])
  /\ appendUint8Value 0 7 (JSNumber (num 300)) s
     = Normal 0 (logged "[EntityServer] Cannot write invalid uint8 value to packet!" s).
Proof. cbv zeta. split; reflexivity. Qed.

(** ** src/domain/entities/RingGizmoPropertyGroup.ts *)

Lemma if_add (b : bool) (x n : Z) : (if b then x + n else x) = x + (if b then n else 0).
Proof. destruct b; lia. Qed.

Lemma foldl_fields (propertyFlags : gset Z) (fields : list (Z * Z)) (dataPosition : Z) :
  foldl (fun dataPosition field =>
           if getHasProperty field.1 propertyFlags then dataPosition + field.2
           else dataPosition) dataPosition fields
  = dataPosition + presentFieldBytes fields propertyFlags.
Proof.
  revert dataPosition. induction fields as [|field fields IH]; intros dataPosition.
  - simpl. lia.
  - cbn [foldl presentFieldBytes foldr]. rewrite IH, if_add. unfold presentFieldBytes. lia.
Qed.

(** C10. For every view, start position and set of property flags,
    [readEntitySubclassDataFromBuffer] returns (it never raises, whatever the
    length of the view and the position) the empty properties record and, as
    [bytesRead], the sum of the field sizes of the ring-gizmo flags in the set;
    the view is left as it was, and the result does not depend on it. *)
Theorem readEntitySubclassDataFromBuffer_bytesRead
    (EntityPropertyList : RingGizmoPropertyList) (data : DataView) (position : Z)
    (propertyFlags : gset Z) :
  readEntitySubclassDataFromBuffer EntityPropertyList position propertyFlags data
  = Normal (mkSubclassData
              (presentFieldBytes (ringGizmoFields EntityPropertyList) propertyFlags) [])
           data
  /\ forall data' : DataView,
       result_value (readEntitySubclassDataFromBuffer EntityPropertyList position
                       propertyFlags data')
       = result_value (readEntitySubclassDataFromBuffer EntityPropertyList position
                         propertyFlags data).
Proof.
  split; [| reflexivity].
  rewrite <- (Z.add_simpl_l position
                (presentFieldBytes (ringGizmoFields EntityPropertyList) propertyFlags)).
  rewrite <- foldl_fields. reflexivity.
Qed.

Example readEntitySubclassDataFromBuffer_test :
  let E := mkRingGizmoPropertyList 1 2 3 4 5 6 7 8 9 10 11 12 13 14 15 16 17 18 in
  readEntitySubclassDataFromBuffer E 1000 {[1; 4; 12; 99]} []
  = Normal (mkSubclassData 8 []) [].
Proof. vm_compute. reflexivity. Qed.

(** ** The entity-edit encoder when nothing fits *)

Lemma length_encodeFlagsAt len flags :
  0 <= len -> Z.of_nat (length (encodeFlagsAt len flags)) = len.
Proof. intros H. unfold encodeFlagsAt. rewrite length_map, length_seqZ. lia. Qed.

Section EntityItemPropertiesProofs.

Variable packedQuat : JSValue -> Z.
Variable maximumFlagsLength : Z.
Hypothesis maximumFlagsLength_nonneg : 0 <= maximumFlagsLength.

(** Properties none of which fits: each call returns PARTIAL and is marked, no
    byte of a property is written and none is counted. *)
Lemma appendProperties_none headerFits requestedProperties flagsPosition dataPosition
    properties :
  forall state didntFit s,
    (headerFits = true ->
     0 <= flagsPosition /\ flagsPosition + maximumFlagsLength <= byteLength (data s)) ->
    Forall (cannot_fit (byteLength (data s)) dataPosition) properties ->
    exists s',
      appendProperties packedQuat maximumFlagsLength headerFits requestedProperties
        flagsPosition properties dataPosition state didntFit s
      = Normal (dataPosition, match properties with [] => state | _ => PARTIAL end,
                didntFit ∪ list_to_set (map propertyFlag properties)) s'
      /\ propertyCount (packetContext s') = propertyCount (packetContext s)
      /\ byteLength (data s') = byteLength (data s).
Proof.
  induction properties as [|property rest IH]; intros state didntFit s Hfits Hall.
  - exists s. split; [| done]. cbn. do 2 f_equal. by rewrite (right_id_L ∅ (∪)).
  - inversion Hall as [|? ? [Hv Hno] Hrest]; subst.
    cbn [appendProperties]. unfold mbind at 1, M_bind at 1, bind at 1.
    unfold appendState_assign at 1, modify at 1.
    set (s0 := with_context _ s).
    assert (Hs0 : data s0 = data s) by reflexivity.
    unfold mbind at 1, M_bind at 1, bind at 1.
    rewrite (append_does_not_fit packedQuat _ _ _ _ _ s0 Hv) by (by rewrite Hs0).
    unfold mbind at 1, M_bind at 1, bind at 1, gets.
    cbn [with_context packetContext partial appendState is_PARTIAL]. cbv zeta.
    set (didntFit' := didntFit ∪ {[propertyFlag property]}).
    set (s1 := with_context (partial (packetContext s0)) s0).
    assert (Hnext : forall s2,
              byteLength (data s2) = byteLength (data s) ->
              propertyCount (packetContext s2) = propertyCount (packetContext s) ->
              exists s',
                appendProperties packedQuat maximumFlagsLength headerFits requestedProperties
                  flagsPosition rest dataPosition PARTIAL didntFit' s2
                = Normal (dataPosition, PARTIAL,
                          didntFit ∪ list_to_set (map propertyFlag (property :: rest))) s'
                /\ propertyCount (packetContext s') = propertyCount (packetContext s)
                /\ byteLength (data s') = byteLength (data s)).
    { intros s2 Hlen Hcount.
      destruct (IH PARTIAL didntFit' s2) as (s' & Hrun & Hcount' & Hlen').
      { intros Hh. rewrite Hlen. by apply Hfits. }
      { by rewrite Hlen. }
      exists s'. split; [| split; congruence].
      rewrite Hrun. do 2 f_equal.
      - f_equal. by destruct rest.
      - subst didntFit'. cbn [map list_to_set]. by rewrite (assoc_L (∪)). }
    destruct headerFits.
    + destruct (Hfits eq_refl) as [Hf0 Hf1].
      unfold mbind at 1, M_bind at 1, bind at 1, on_data.
      assert (Hs1 : data s1 = data s) by reflexivity.
      rewrite store_in_view
        by (rewrite ?length_encodeFlagsAt by exact maximumFlagsLength_nonneg;
            rewrite ?Hs1; lia).
      apply Hnext; [| reflexivity].
      cbn [with_data data]. rewrite Hs1.
      apply byteLength_splice.
      pose proof (length_encodeFlagsAt maximumFlagsLength
                    (requestedProperties ∖ didntFit') maximumFlagsLength_nonneg).
      unfold byteLength in Hf1. lia.
    + unfold mbind at 1, M_bind at 1, bind at 1. cbn [mret M_ret ret].
      apply Hnext; reflexivity.
Qed.

(** C3. If none of the requested properties fits into the buffer (each is
    valid, and too long for the room that is left behind the header and the
    reserved flag block, if there is any room at all),
    [encodeEntityEditPacket] returns NONE, every requested flag is in
    [didntFitProperties], and the position of the message is the one it had
    before the call.  This holds for every size of the buffer, also one in
    which the header and the flag block do not fit: no error is raised. *)
Theorem encodeEntityEditPacket_none header properties es :
  0 <= messageDataPosition es ->
  Forall (cannot_fit (byteLength (messageBuffer es))
            (messageDataPosition es + Z.of_nat (length header) + maximumFlagsLength))
         properties ->
  exists es' : EditStore,
    encodeEntityEditPacket packedQuat maximumFlagsLength header properties es
    = Normal NONE es'
    /\ (forall property, property ∈ properties ->
          getHasProperty (propertyFlag property) (didntFitProperties es') = true)
    /\ didntFitProperties es'
       = didntFitProperties es ∪ list_to_set (map propertyFlag properties)
    /\ messageDataPosition es' = messageDataPosition es.
Proof.
  intros H0 Hall. unfold encodeEntityEditPacket. cbv zeta.
  set (requestedProperties := list_to_set (map propertyFlag properties) : gset Z).
  set (flagsPosition := messageDataPosition es + Z.of_nat (length header)).
  set (dataPosition := flagsPosition + maximumFlagsLength) in *.
  set (s0 := mkStore (messageBuffer es) _ (editConsole es)).
  assert (Hheader : exists s1,
            (if dataPosition <=? byteLength (messageBuffer es)
             then on_data (store (messageDataPosition es)
                             (header ++ encodeFlagsAt maximumFlagsLength requestedProperties))
             else mret tt) s0 = Normal tt s1
            /\ byteLength (data s1) = byteLength (messageBuffer es)
            /\ propertyCount (packetContext s1) = 0).
  { destruct (Z.leb_spec dataPosition (byteLength (messageBuffer es))) as [Hfit | Hno].
    - pose proof (length_encodeFlagsAt maximumFlagsLength requestedProperties
                    maximumFlagsLength_nonneg) as Hlen.
      unfold on_data. subst s0. cbn [data].
      rewrite store_in_view
        by (rewrite ?length_app, ?Nat2Z.inj_add, ?Hlen; subst dataPosition flagsPosition; lia).
      eexists. split; [reflexivity |]. split; [| reflexivity].
      cbn [with_data data]. apply byteLength_splice.
      rewrite length_app. unfold byteLength in Hfit. subst dataPosition flagsPosition. lia.
    - exists s0. repeat split. }
  destruct Hheader as (s1 & Hrun1 & Hlen1 & Hcount1).
  unfold mbind at 1, M_bind at 1, bind at 1. rewrite Hrun1.
  destruct (appendProperties_none (dataPosition <=? byteLength (messageBuffer es))
              requestedProperties flagsPosition dataPosition properties COMPLETED
              (didntFitProperties es) s1) as (s' & Hrun & Hcount & Hlen).
  { intros Hfit. apply Z.leb_le in Hfit. rewrite Hlen1.
    subst dataPosition flagsPosition. lia. }
  { by rewrite Hlen1. }
  unfold mbind at 1, M_bind at 1, bind at 1. rewrite Hrun.
  unfold mbind at 1, M_bind at 1, bind at 1, gets. rewrite Hcount, Hcount1.
  cbn [Z.eqb mret M_ret ret].
  eexists. split; [reflexivity |]. split; [| split; reflexivity].
  intros property Hin. cbn [didntFitProperties]. apply bool_decide_eq_true.
  apply elem_of_union_r, elem_of_list_to_set, list_elem_of_fmap. by exists property.
Qed.

End EntityItemPropertiesProofs.

(** ** The encoder on the scenarios of EntityItemProperties.unit.test.js *)

(** The flag block of the first test's expected message: PROP_LAST_EDITED_BY is
    flag 17 and PROP_COLOR flag 84 there. *)
Example encodeFlagsAt_test :
  encodeFlagsAt 13 {[17; 84]}
  = [0xff; 0xf0; 0x00; 0x02; 0x00; 0x00; 0x00; 0x00; 0x00; 0x00; 0x00; 0x00; 0x40].
Proof. vm_compute. reflexivity. Qed.

(** The lengths of the flag blocks in the expected messages of the four
    tests that encode. *)
Example flagsLength_test :
  flagsLength {[17; 84]} = 13 /\ flagsLength {[84]} = 13
  /\ flagsLength {[17; 104]} = 15 /\ flagsLength {[17; 28]} = 5.
Proof. vm_compute. repeat split; reflexivity. Qed.

(** "If no entity properties can fit in the packet then the encode return value
    reflects this": a buffer of 48 bytes leaves 2 bytes after the flag block.
    In a buffer of 40 bytes not even the header and the flag block fit. *)
Lemma encodeEntityEditPacket_none_witness :
  (exists es' : EditStore,
     encodeEntityEditPacket noQuat 19 testHeader testProperties (testMessage 48)
     = Normal NONE es'
     /\ (forall property, property ∈ testProperties ->
           getHasProperty (propertyFlag property) (didntFitProperties es') = true)
     /\ didntFitProperties es'
        = didntFitProperties (testMessage 48)
          ∪ list_to_set (map propertyFlag testProperties)
     /\ messageDataPosition es' = messageDataPosition (testMessage 48))
  /\ (exists es' : EditStore,
        encodeEntityEditPacket noQuat 19 testHeader testProperties (testMessage 40)
        = Normal NONE es'
        /\ (forall property, property ∈ testProperties ->
              getHasProperty (propertyFlag property) (didntFitProperties es') = true)
        /\ didntFitProperties es'
           = didntFitProperties (testMessage 40)
             ∪ list_to_set (map propertyFlag testProperties)
        /\ messageDataPosition es' = messageDataPosition (testMessage 40)).
Proof.
  split.
  - apply (encodeEntityEditPacket_none noQuat 19 ltac:(lia) testHeader testProperties
             (testMessage 48)).
    + simpl. lia.
    + repeat constructor; vm_compute; reflexivity.
  - apply (encodeEntityEditPacket_none noQuat 19 ltac:(lia) testHeader testProperties
             (testMessage 40)).
    + simpl. lia.
    + repeat constructor; vm_compute; reflexivity.
Defined.

(** The same test run: NONE, both flags marked, the position 0, and in the
    buffer of 40 bytes no byte written. *)
Example encodeEntityEditPacket_none_test :
  let r := encodeEntityEditPacket noQuat 19 testHeader testProperties (testMessage 48) in
  let r' := encodeEntityEditPacket noQuat 19 testHeader testProperties (testMessage 40) in
  result_value r = Some NONE
  /\ getHasProperty 17 (didntFitProperties (result_store r)) = true
  /\ getHasProperty 84 (didntFitProperties (result_store r)) = true
  /\ messageDataPosition (result_store r) = 0
  /\ result_value r' = Some NONE
  /\ getHasProperty 17 (didntFitProperties (result_store r')) = true
  /\ getHasProperty 84 (didntFitProperties (result_store r')) = true
  /\ messageDataPosition (result_store r') = 0
  /\ messageBuffer (result_store r') = repeat 0 40.
Proof. vm_compute. repeat split; reflexivity. Qed.

(** "Can encode an entity edit with some properties that didn't fit": the
    buffer has the 43 bytes of the expected message, 6 for the flag block at
    its reserved length and 2 more; the UUID does not fit and the color does.
    The message is the expected one, byte for byte. *)
Example encodeEntityEditPacket_partial_test :
  let r := encodeEntityEditPacket noQuat 19 testHeader testProperties (testMessage 51) in
  result_value r = Some PARTIAL
  /\ getHasProperty 17 (didntFitProperties (result_store r)) = true
  /\ getHasProperty 84 (didntFitProperties (result_store r)) = false
  /\ messageDataPosition (result_store r) = 43
  /\ take 43 (messageBuffer (result_store r)) = partialMessage.
Proof. vm_compute. repeat split; reflexivity. Qed.

(** "Can encode an entity edit with all properties fitting and less than max
    size property flags", in a buffer of 1492 bytes. *)
Example encodeEntityEditPacket_completed_test :
  let r := encodeEntityEditPacket noQuat 19 testHeader testProperties (testMessage 1492) in
  result_value r = Some COMPLETED
  /\ didntFitProperties (result_store r) = ∅
  /\ messageDataPosition (result_store r) = 61
  /\ take 61 (messageBuffer (result_store r)) = fullMessage.
Proof. vm_compute. repeat split; reflexivity. Qed.

(** "Can encode entity properties that include entity group properties" and
    "... that include grab properties". *)
Example encodeEntityEditPacket_groups_test :
  let r := encodeEntityEditPacket noQuat 19 animationHeader animationProperties
             (testMessage 1492) in
  let r' := encodeEntityEditPacket noQuat 19 grabHeader grabProperties (testMessage 1492) in
  result_value r = Some COMPLETED
  /\ didntFitProperties (result_store r) = ∅
  /\ messageDataPosition (result_store r) = 64
  /\ take 64 (messageBuffer (result_store r)) = animationMessage
  /\ result_value r' = Some COMPLETED
  /\ didntFitProperties (result_store r') = ∅
  /\ messageDataPosition (result_store r') = 51
  /\ take 51 (messageBuffer (result_store r')) = grabMessage.
Proof. vm_compute. repeat split; reflexivity. Qed.

(** A property is marked when its own appender returns PARTIAL: an invalid
    value is logged and not marked, whether it comes before or after a value
    that does not fit.  Where there is room, the message holds the flag and
    the bytes of the valid property only. *)
Example encodeEntityEditPacket_invalid_test :
  let uuid := mkProperty 17 UuidValue
                (JSUuid (mkUuid 0xa82f40b6ee8946ccb50402b88d72a546 false)) false in
  let bad := mkProperty 84 ColorValue badColor false in
  let r := encodeEntityEditPacket noQuat 19 testHeader [uuid; bad] (testMessage 51) in
  let r' := encodeEntityEditPacket noQuat 19 testHeader [bad; uuid] (testMessage 51) in
  let r'' := encodeEntityEditPacket noQuat 19 testHeader [uuid; bad] (testMessage 1492) in
  result_value r = Some NONE
  /\ didntFitProperties (result_store r) = {[17]}
  /\ result_value r' = Some NONE
  /\ didntFitProperties (result_store r') = {[17]}
  /\ result_value r'' = Some COMPLETED
  /\ didntFitProperties (result_store r'') = ∅
  /\ messageDataPosition (result_store r'') = 48
  /\ take 48 (messageBuffer (result_store r''))
     = testHeader ++ encodePropertyFlags {[17]}
       ++ serialized noQuat UuidValue (propertyValue uuid) false
  /\ editConsole (result_store r'')
     = ["[EntityServer] Cannot write invalid color value to packet!"].
Proof. vm_compute. repeat split; reflexivity. Qed.

(* ===================================================================== *)
(** * Layouts, round trips and edge cases of the code *)
(* ===================================================================== *)

(** ** DataViewExtensions: the 16 bytes as one integer *)

Lemma u128_bytes_uint_bytes value le :
  u128_bytes value le
  = uint_bytes 16 (if value >? MAX_U128_VALUE then 0 else value) le.
Proof.
  unfold u128_bytes, uint_bytes.
  set (sv := if value >? MAX_U128_VALUE then 0 else value).
  assert (E : le_bytes 16 sv
              = le_bytes 8 (Z.land sv MASK_64_BITS) ++ le_bytes 8 (Z.shiftr sv SHIFT_64_BITS)).
  { change 16%nat with (8 + 8)%nat. rewrite le_bytes_add.
    unfold SHIFT_64_BITS, MASK_64_BITS. change 0xffffffffffffffff with (Z.ones 64).
    rewrite Z.land_ones, Z.shiftr_div_pow2 by lia.
    change (8 * Z.of_nat 8) with 64. f_equal. symmetry. apply (le_bytes_mod 8 sv). }
  destruct le; rewrite E; [reflexivity |]. by rewrite rev_app_distr.
Qed.

Lemma le_value_app a b :
  le_value (a ++ b) = le_value a + 2 ^ (8 * Z.of_nat (length a)) * le_value b.
Proof.
  induction a as [|x a IH]; [simpl; lia |].
  cbn [app le_value length]. rewrite IH.
  replace (8 * Z.of_nat (S (length a))) with (8 + 8 * Z.of_nat (length a)) by lia.
  rewrite Z.pow_add_r by lia. change (2 ^ 8) with 256. lia.
Qed.

Lemma le_value_range bs :
  Forall (fun b => 0 <= b < 256) bs -> 0 <= le_value bs < 2 ^ (8 * Z.of_nat (length bs)).
Proof.
  induction 1 as [|b bs Hb _ IH]; [simpl; lia |].
  cbn [le_value length].
  replace (8 * Z.of_nat (S (length bs))) with (8 + 8 * Z.of_nat (length bs)) by lia.
  rewrite Z.pow_add_r by lia. change (2 ^ 8) with 256. lia.
Qed.

Lemma le_bytes_le_value bs :
  Forall (fun b => 0 <= b < 256) bs -> le_bytes (length bs) (le_value bs) = bs.
Proof.
  induction 1 as [|b bs Hb _ IH]; [reflexivity |].
  cbn [le_value length le_bytes]. f_equal.
  - rewrite (Z.mul_comm 256), Z.mod_add by lia. apply Z.mod_small. lia.
  - rewrite (Z.mul_comm 256), Z.div_add by lia.
    rewrite Z.div_small by lia. exact IH.
Qed.

Lemma uint_bytes_uint_value bs le :
  Forall (fun b => 0 <= b < 256) bs -> uint_bytes (length bs) (uint_value bs le) le = bs.
Proof.
  intros H. unfold uint_bytes, uint_value. destruct le.
  - by apply le_bytes_le_value.
  - rewrite <- (length_rev bs), le_bytes_le_value by (by apply Forall_rev).
    apply rev_involutive.
Qed.

Lemma uint_value_range bs le :
  Forall (fun b => 0 <= b < 256) bs ->
  0 <= uint_value bs le < 2 ^ (8 * Z.of_nat (length bs)).
Proof.
  intros H. unfold uint_value. destruct le; [by apply le_value_range |].
  rewrite <- (length_rev bs). apply le_value_range. by apply Forall_rev.
Qed.

Lemma splice_take_drop off n (data : DataView) :
  splice off (take n (drop off data)) data = data.
Proof.
  unfold splice. rewrite length_take, length_drop.
  destruct (decide (off + n <= length data)%nat).
  - rewrite Nat.min_l by lia. rewrite <- drop_drop, take_drop. apply take_drop.
  - rewrite Nat.min_r by lia. rewrite (take_ge (drop off data)) by (rewrite length_drop; lia).
    destruct (decide (off <= length data)%nat).
    + replace (off + (length data - off))%nat with (length data) by lia.
      rewrite drop_all, app_nil_r. apply take_drop.
    + rewrite !drop_ge by lia. rewrite app_nil_r. apply take_ge. lia.
Qed.

Lemma in_view_true (data : DataView) off size :
  in_view data off size = true <-> 0 <= off /\ off + size <= byteLength data.
Proof. unfold in_view. rewrite andb_true_iff, !Z.leb_le. reflexivity. Qed.

Lemma in_view_false (data : DataView) off size :
  in_view data off size = false <-> off < 0 \/ byteLength data < off + size.
Proof. unfold in_view. rewrite andb_false_iff, !Z.leb_gt. reflexivity. Qed.

Lemma load_out_of_view off n (data : DataView) :
  off < 0 \/ byteLength data < off + Z.of_nat n ->
  load off n data = Throw RangeError data.
Proof. intros H. unfold load. by rewrite (proj2 (in_view_false _ _ _) H). Qed.

Lemma take_drop_add (data : DataView) off n m :
  take (n + m) (drop off data) = take n (drop off data) ++ take m (drop (off + n) data).
Proof.
  rewrite <- (take_drop n (drop off data)) at 1.
  rewrite take_app_ge by (rewrite length_take; lia).
  rewrite length_take.
  destruct (decide (n <= length (drop off data))%nat).
  - rewrite Nat.min_l by lia. replace (n + m - n)%nat with m by lia.
    rewrite drop_drop. reflexivity.
  - rewrite drop_drop. rewrite !(drop_ge data (off + n)) by (rewrite length_drop in *; lia).
    by rewrite !take_nil.
Qed.

Lemma getBigUint128_in_view off le (data : DataView) :
  0 <= off -> off + 16 <= byteLength data ->
  getBigUint128 off le data
  = Normal (uint_value (take 16 (drop (Z.to_nat off) data)) le) data.
Proof.
  intros H0 H1.
  assert (L1 : length (take 8 (drop (Z.to_nat off) data)) = 8%nat).
  { rewrite length_take, length_drop. unfold byteLength in H1. lia. }
  assert (L2 : length (take 8 (drop (Z.to_nat off + 8) data)) = 8%nat).
  { rewrite length_take, length_drop. unfold byteLength in H1. lia. }
  unfold getBigUint128, getBigUint64.
  destruct le; unfold mbind, M_bind, bind, ret.
  - rewrite load_in_view by lia. cbv beta iota. rewrite load_in_view by lia.
    f_equal. unfold uint_value, SHIFT_64_BITS.
    change 16%nat with (8 + 8)%nat. rewrite take_drop_add, le_value_app, L1.
    rewrite Z.shiftl_mul_pow2 by lia.
    replace (Z.to_nat (off + 8)) with (Z.to_nat off + 8)%nat by lia.
    change (8 * Z.of_nat 8) with 64. lia.
  - rewrite load_in_view by lia. cbv beta iota. rewrite load_in_view by lia.
    f_equal. unfold uint_value, SHIFT_64_BITS.
    change 16%nat with (8 + 8)%nat. rewrite take_drop_add, rev_app_distr, le_value_app.
    rewrite length_rev, L2.
    rewrite Z.shiftl_mul_pow2 by lia.
    replace (Z.to_nat (off + 8)) with (Z.to_nat off + 8)%nat by lia.
    change (8 * Z.of_nat 8) with 64. lia.
Qed.

Lemma getBigUint128_out_of_view off le (data : DataView) :
  off < 0 \/ byteLength data < off + 16 ->
  getBigUint128 off le data = Throw RangeError data.
Proof.
  intros H. unfold getBigUint128, getBigUint64.
  destruct le; unfold mbind, M_bind, bind, ret.
  - destruct (in_view data (off + 8) 8) eqn:E.
    + apply in_view_true in E. rewrite load_in_view by lia. cbv beta iota.
      by rewrite load_out_of_view by lia.
    + apply in_view_false in E. by rewrite load_out_of_view by lia.
  - destruct (in_view data off 8) eqn:E.
    + apply in_view_true in E. rewrite load_in_view by lia. cbv beta iota.
      by rewrite load_out_of_view by lia.
    + apply in_view_false in E. by rewrite load_out_of_view by lia.
Qed.

(** X1. Within the view, [setBigUint128] never raises and writes exactly the
    16 bytes of its value as one unsigned 128-bit integer, in the byte order
    asked for: the value itself reduced modulo [2^128], or 0 for a value above
    [2^128 - 1].  The other bytes of the view are left as they were. *)
Theorem setBigUint128_writes_uint128 (byteOffset value : Z) (littleEndian : bool)
    (data : DataView) :
  0 <= byteOffset -> byteOffset + 16 <= byteLength data ->
  setBigUint128 byteOffset value littleEndian data
  = Normal tt
      (take (Z.to_nat byteOffset) data
       ++ uint_bytes 16 (if value >? MAX_U128_VALUE then 0 else value) littleEndian
       ++ drop (Z.to_nat (byteOffset + 16)) data).
Proof.
  intros H0 H1. rewrite setBigUint128_in_view by assumption.
  rewrite u128_bytes_uint_bytes. unfold splice. rewrite length_uint_bytes.
  do 4 f_equal. lia.
Qed.

Lemma setBigUint128_writes_uint128_witness :
  setBigUint128 1 (-1) true (repeat 0 18)
  = Normal tt
      (take (Z.to_nat 1) (repeat 0 18)
       ++ uint_bytes 16 (if -1 >? MAX_U128_VALUE then 0 else -1) true
       ++ drop (Z.to_nat (1 + 16)) (repeat 0 18)).
Proof.
  apply (setBigUint128_writes_uint128 1 (-1) true (repeat 0 18));
    [lia | vm_compute; discriminate].
Defined.

(** X2. What [getBigUint128] reads back after [setBigUint128], for every
    bigint: 0 for a value above [2^128 - 1], and otherwise the value modulo
    [2^128], so that a negative value [v] comes back as [v + 2^128] when
    [-2^128 <= v]. *)
Theorem getBigUint128_setBigUint128_sanitized (value byteOffset : Z)
    (littleEndian : bool) (data : DataView) :
  0 <= byteOffset -> byteOffset + 16 <= byteLength data ->
  exists data' : DataView,
    setBigUint128 byteOffset value littleEndian data = Normal tt data'
    /\ getBigUint128 byteOffset littleEndian data'
       = Normal (if value >? MAX_U128_VALUE then 0 else value mod 2 ^ 128) data'.
Proof.
  intros H0 H1.
  exists (splice (Z.to_nat byteOffset) (u128_bytes value littleEndian) data).
  split; [by apply setBigUint128_in_view |].
  unfold u128_bytes. rewrite getBigUint128_splice by assumption. f_equal.
  set (sv := if value >? MAX_U128_VALUE then 0 else value).
  assert (E : Z.shiftl (Z.shiftr sv SHIFT_64_BITS mod 2 ^ 64) SHIFT_64_BITS
              + Z.land sv MASK_64_BITS mod 2 ^ 64 = sv mod 2 ^ 128).
  { unfold SHIFT_64_BITS, MASK_64_BITS. change 0xffffffffffffffff with (Z.ones 64).
    rewrite Z.land_ones, Z.shiftr_div_pow2, Z.shiftl_mul_pow2 by lia.
    rewrite Z.mod_mod by lia. change (2 ^ 128) with (2 ^ 64 * 2 ^ 64).
    rewrite Z.rem_mul_r by lia. lia. }
  rewrite E. unfold sv. by destruct (value >? MAX_U128_VALUE).
Qed.

Lemma getBigUint128_setBigUint128_sanitized_witness :
  exists data' : DataView,
    setBigUint128 0 (2 ^ 128) false (repeat 7 16) = Normal tt data'
    /\ getBigUint128 0 false data'
       = Normal (if 2 ^ 128 >? MAX_U128_VALUE then 0 else 2 ^ 128 mod 2 ^ 128) data'.
Proof.
  apply (getBigUint128_setBigUint128_sanitized (2 ^ 128) 0 false (repeat 7 16));
    [lia | vm_compute; discriminate].
Defined.

(** X3. [setBigUint128] at an offset from which 16 bytes do not fit raises
    [RangeError].  Little-endian, the view is left as it was.  Big-endian,
    the view is left as it was only if not even 8 bytes fit: with room for 8
    bytes, these have been overwritten by the high half of the value when the
    error is raised. *)
Theorem setBigUint128_past_the_end (byteOffset value : Z) (data : DataView) :
  0 <= byteOffset -> byteLength data < byteOffset + 16 ->
  setBigUint128 byteOffset value true data = Throw RangeError data
  /\ (byteLength data < byteOffset + 8 ->
      setBigUint128 byteOffset value false data = Throw RangeError data)
  /\ (byteOffset + 8 <= byteLength data ->
      setBigUint128 byteOffset value false data
      = Throw RangeError
          (take (Z.to_nat byteOffset) data
           ++ uint_bytes 8
                (Z.shiftr (if value >? MAX_U128_VALUE then 0 else value) 64) false
           ++ drop (Z.to_nat (byteOffset + 8)) data)).
Proof.
  intros H0 H1. unfold setBigUint128, setBigUint64, mbind, M_bind, bind.
  repeat split.
  - by rewrite store_out_of_view by (rewrite length_uint_bytes; lia).
  - intros H2. by rewrite store_out_of_view by (rewrite length_uint_bytes; lia).
  - intros H2. rewrite store_in_view by (rewrite ?length_uint_bytes; lia).
    rewrite store_out_of_view.
    + unfold splice, SHIFT_64_BITS. rewrite length_uint_bytes. do 4 f_equal. lia.
    + right. rewrite byteLength_splice, length_uint_bytes.
      * lia.
      * rewrite length_uint_bytes. unfold byteLength in H2. lia.
Qed.

Lemma setBigUint128_past_the_end_witness :
  setBigUint128 2 (2 ^ 64) true (repeat 0 12) = Throw RangeError (repeat 0 12)
  /\ setBigUint128 2 (2 ^ 64) false (repeat 0 12)
     = Throw RangeError [0; 0; 0; 0; 0; 0; 0; 0; 0; 1; 0; 0].
Proof.
  destruct (setBigUint128_past_the_end 2 (2 ^ 64) (repeat 0 12)) as (Hle & _ & Hbe);
    [lia | vm_compute; reflexivity |].
  split; [exact Hle |]. apply Hbe. vm_compute. discriminate.
Defined.

(** X4. [getBigUint128] returns the 16 bytes at its offset read as one
    unsigned integer in the byte order asked for, and leaves the view as it
    was; it raises [RangeError] exactly when the 16 bytes do not lie in the
    view. *)
Theorem getBigUint128_reads_uint128 (byteOffset : Z) (littleEndian : bool)
    (data : DataView) :
  getBigUint128 byteOffset littleEndian data
  = if in_view data byteOffset 16
    then Normal (uint_value (take 16 (drop (Z.to_nat byteOffset) data)) littleEndian) data
    else Throw RangeError data.
Proof.
  destruct (in_view data byteOffset 16) eqn:E.
  - apply in_view_true in E. apply getBigUint128_in_view; lia.
  - apply in_view_false in E. by apply getBigUint128_out_of_view.
Qed.

(** X5. Writing back with [setBigUint128] the value that [getBigUint128] has
    read, at the same offset and in the same byte order, changes no byte of
    the view. *)
Theorem setBigUint128_getBigUint128 (byteOffset value : Z) (littleEndian : bool)
    (data : DataView) :
  Forall (fun b => 0 <= b < 256) data ->
  getBigUint128 byteOffset littleEndian data = Normal value data ->
  setBigUint128 byteOffset value littleEndian data = Normal tt data.
Proof.
  intros Hbytes Hget.
  destruct (in_view data byteOffset 16) eqn:E.
  2: { apply in_view_false in E. by rewrite getBigUint128_out_of_view in Hget. }
  apply in_view_true in E as [H0 H1].
  rewrite getBigUint128_in_view in Hget by assumption. injection Hget as <-.
  set (bs := take 16 (drop (Z.to_nat byteOffset) data)).
  assert (Hlen : length bs = 16%nat).
  { unfold bs. rewrite length_take, length_drop. unfold byteLength in H1. lia. }
  assert (Hbs : Forall (fun b => 0 <= b < 256) bs).
  { unfold bs. by apply Forall_take, Forall_drop. }
  pose proof (uint_value_range bs littleEndian Hbs) as Hrange.
  rewrite Hlen in Hrange. change (8 * Z.of_nat 16) with 128 in Hrange.
  rewrite setBigUint128_in_view, u128_bytes_uint_bytes by assumption.
  destruct (Z.gtb_spec (uint_value bs littleEndian) MAX_U128_VALUE) as [Hgt | _];
    [unfold MAX_U128_VALUE in Hgt; lia |].
  rewrite <- Hlen at 1. rewrite uint_bytes_uint_value by assumption.
  f_equal. apply splice_take_drop.
Qed.

Lemma setBigUint128_getBigUint128_witness :
  setBigUint128 1 0x100f0e0d0c0b0a090807060504030201 true
    [0; 1; 2; 3; 4; 5; 6; 7; 8; 9; 10; 11; 12; 13; 14; 15; 16; 0]
  = Normal tt [0; 1; 2; 3; 4; 5; 6; 7; 8; 9; 10; 11; 12; 13; 14; 15; 16; 0].
Proof.
  apply (setBigUint128_getBigUint128 1 0x100f0e0d0c0b0a090807060504030201 true
           [0; 1; 2; 3; 4; 5; 6; 7; 8; 9; 10; 11; 12; 13; 14; 15; 16; 0]).
  - repeat constructor; lia.
  - vm_compute. reflexivity.
Defined.

(** ** The typed appenders: every outcome at once *)

Lemma serializedSize_pos a value :
  valid a value = Value true -> 0 < serializedSize a value.
Proof.
  intros Hv. destruct a; cbn [serializedSize]; try lia.
  - pose proof (Z.div_pos (Z.of_nat (length (elements_of value)) + 7) 8). lia.
  - cbn [valid] in Hv. unfold validUuidValue in Hv.
    destruct value; try discriminate. by destruct (Uuid_isNull u).
Qed.

Section AppenderOutcomes.

Variable packedQuat : JSValue -> Z.

(** The four ways a call of an appender ends. *)
Lemma append_cases a pos flag value littleEndian s :
  (exists bs,
     valid a value = Value true /\ 0 <= pos
     /\ pos + serializedSize a value <= byteLength (data s)
     /\ Z.of_nat (length bs) = serializedSize a value
     /\ append packedQuat a pos flag value littleEndian s
        = Normal (serializedSize a value) (appended flag pos bs s))
  \/ append packedQuat a pos flag value littleEndian s
     = Normal 0 (with_context (partial (packetContext s)) s)
  \/ append packedQuat a pos flag value littleEndian s
     = Normal 0 (logged (errorMessage a) s)
  \/ exists e, append packedQuat a pos flag value littleEndian s = Throw e s.
Proof.
  destruct (valid a value) as [[|]|e] eqn:Hv.
  - destruct (Z_lt_le_dec (byteLength (data s)) (pos + serializedSize a value))
      as [Hno | Hfit].
    + right; left. by apply append_does_not_fit.
    + destruct (Z_lt_le_dec pos 0) as [Hneg | Hpos].
      * right; right; right. exists RangeError. by apply append_negative_position.
      * left. destruct (append_fit packedQuat a _ flag value littleEndian s Hv Hpos Hfit)
          as (bs & Hlen & E).
        by exists bs.
  - right; right; left. by apply append_invalid.
  - right; right; right. exists e. by apply append_abrupt.
Qed.

(** X6. Whatever its arguments and however it ends, a call of an appender
    never puts a flag back into [propertiesToWrite], never takes a flag out
    of [propertiesWritten], loses no flag of the two sets together, never
    decreases [propertyCount] and increases it by at most one, and leaves
    [appendState] as it was or sets it to PARTIAL: a PARTIAL state is never
    reset.  The count it returns is never negative, and it is positive
    exactly when the property was counted as written. *)
Theorem append_context_monotone a dataPosition flag value littleEndian s :
  let r := append packedQuat a dataPosition flag value littleEndian s in
  let c := packetContext s in
  let c' := packetContext (result_store r) in
  propertiesToWrite c' ⊆ propertiesToWrite c
  /\ propertiesWritten c ⊆ propertiesWritten c'
  /\ propertiesToWrite c ∪ propertiesWritten c ⊆ propertiesToWrite c' ∪ propertiesWritten c'
  /\ propertyCount c <= propertyCount c' <= propertyCount c + 1
  /\ (appendState c' = appendState c \/ appendState c' = PARTIAL)
  /\ forall n s', r = Normal n s' ->
       0 <= n /\ (0 < n <-> propertyCount c' = propertyCount c + 1).
Proof.
  cbv zeta.
  destruct (append_cases a dataPosition flag value littleEndian s)
    as [(bs & Hv & H0 & H1 & Hlen & ->) | [-> | [-> | [e ->]]]];
    cbn [result_store appended with_context logged packetContext committed partial
         propertiesToWrite propertiesWritten propertyCount appendState].
  - pose proof (serializedSize_pos a value Hv) as Hpos.
    repeat split; intros; simplify_eq; try lia.
    + apply subseteq_difference_l. reflexivity.
    + apply union_subseteq_l.
    + intros x. rewrite !elem_of_union, elem_of_difference, elem_of_singleton.
      destruct (decide (x = flag)); tauto.
    + by left.
  - repeat split; intros; simplify_eq; try reflexivity; try lia. by right.
  - repeat split; intros; simplify_eq; try reflexivity; try lia. by left.
  - repeat split; intros; simplify_eq; try reflexivity; try lia. by left.
Qed.

(** X7. A call of an appender changes no byte of the packet outside the
    range it reports: the bytes before [dataPosition] and those from
    [dataPosition] plus the returned count on are as they were, the view keeps
    its length, and a call that returns 0 or raises changes no byte at all. *)
Theorem append_frame a dataPosition flag value littleEndian s :
  let r := append packedQuat a dataPosition flag value littleEndian s in
  let n := default 0 (result_value r) in
  length (data (result_store r)) = length (data s)
  /\ (n = 0 -> data (result_store r) = data s)
  /\ forall i : nat,
       Z.of_nat i < dataPosition \/ dataPosition + n <= Z.of_nat i ->
       data (result_store r) !! i = data s !! i.
Proof.
  cbv zeta.
  destruct (append_cases a dataPosition flag value littleEndian s)
    as [(bs & Hv & H0 & H1 & Hlen & ->) | [-> | [-> | [e ->]]]];
    cbn [result_store result_value from_option id appended with_context logged data];
    try (split; [reflexivity | split; reflexivity]).
  pose proof (serializedSize_pos a value Hv) as Hpos.
  unfold byteLength in H1.
  split; [apply length_splice; lia |]. split; [lia |].
  intros i Hi. unfold splice. rewrite <- Hlen in Hi.
  destruct Hi as [Hi | Hi].
  - rewrite lookup_app_l by (rewrite length_take; lia).
    apply lookup_take_lt. lia.
  - rewrite app_assoc, lookup_app_r by (rewrite length_app, length_take; lia).
    rewrite length_app, length_take, lookup_drop. f_equal. lia.
Qed.

End AppenderOutcomes.

(** ** The integer appenders *)

Lemma digits2_pos_bound m : Zpos m < 2 ^ Zpos (digits2_pos m).
Proof.
  induction m as [m IH | m IH |]; cbn [digits2_pos]; [| | reflexivity].
  all: rewrite Pos2Z.inj_succ, Z.pow_succ_r by lia; lia.
Qed.

(** The mantissa of a binary64 number has at most 53 bits. *)
Lemma binary64_mantissa s m e :
  valid_binary 53 1024 (S754_finite s m e) = true -> Zpos m < 2 ^ 53.
Proof.
  cbn [valid_binary]. unfold bounded, canonical_mantissa, fexp, emin.
  intros [Hc _]%andb_true_iff. apply Z.eqb_eq in Hc.
  pose proof (digits2_pos_bound m) as Hm.
  assert (Hd : Zpos (digits2_pos m) <= 53) by lia.
  eapply Z.lt_le_trans; [exact Hm |]. apply Z.pow_le_mono_r; lia.
Qed.

(** A binary64 number between 0 and a binary64 bound with a negative exponent
    has its integer part between 0 and that of the bound. *)
Lemma truncate_between x mM eM :
  valid_binary 53 1024 x = true ->
  eM < 0 -> 2 ^ 52 <= Zpos mM ->
  SFleb (S754_zero false) x = true -> SFleb x (S754_finite false mM eM) = true ->
  0 <= truncate x <= Zpos mM / 2 ^ (- eM).
Proof.
  intros Hvalid HeM HmM H0 H1.
  destruct x as [s | s | | s m e]; try discriminate.
  - cbn [truncate]. split; [lia |]. apply Z.div_pos; lia.
  - by destruct s.
  - apply binary64_mantissa in Hvalid.
    destruct s; [discriminate |].
    unfold SFleb, SFcompare in H1. cbn [truncate cond_Zopp].
    assert (Hpow : 0 < 2 ^ (- eM)) by (apply Z.pow_pos_nonneg; lia).
    destruct (Z.compare_spec e eM) as [-> | Hlt | Hgt]; [| | discriminate].
    + change (PosDef.Pos.compare_cont Eq m mM) with (Pos.compare m mM) in H1.
      assert (Hle : Zpos m <= Zpos mM).
      { destruct (Pos.compare_spec m mM); try discriminate; lia. }
      destruct (Z.leb_spec 0 eM); [lia |].
      split; [apply Z.div_pos; lia | apply Z.div_le_mono; lia].
    + destruct (Z.leb_spec 0 e); [lia |].
      split; [apply Z.div_pos; [lia | apply Z.pow_pos_nonneg; lia] |].
      replace (- e) with (- eM + (- e + eM)) by lia.
      rewrite Z.pow_add_r by lia.
      rewrite <- Z.div_div by (try apply Z.pow_pos_nonneg; lia).
      assert (Hk : 2 <= 2 ^ (- e + eM)).
      { change 2 with (2 ^ 1) at 1. apply Z.pow_le_mono_r; lia. }
      assert (Hq : 0 <= Zpos m / 2 ^ (- eM)) by (apply Z.div_pos; lia).
      assert (Hq2 : Zpos m / 2 ^ (- eM) <= 2 * (Zpos mM / 2 ^ (- eM)) + 1).
      { apply Z.lt_succ_r. apply Z.div_lt_upper_bound; [lia |].
        pose proof (Z.mul_succ_div_gt (Zpos mM) (2 ^ (- eM)) Hpow). lia. }
      apply Z.lt_succ_r. apply Z.div_lt_upper_bound; [lia |].
      nia.
Qed.

Lemma validUintValue_number a x :
  a = Uint8Value \/ a = Uint16Value \/ a = Uint32Value ->
  valid a (JSNumber x)
  = Value (SFleb (num 0) x
           && SFleb x (num (match a with
                            | Uint8Value => 0xff
                            | Uint16Value => 0xffff
                            | _ => 0xffffffff
                            end))).
Proof.
  intros [-> | [-> | ->]]; cbn [valid];
    unfold validUint8Value, validUint16Value, validUint32Value,
      typeof_is, le, lit, var, and_then;
    cbn [mbind Completion_bind typeof mret Completion_ret String.eqb Ascii.eqb
         Bool.eqb js_leb];
    by destruct (SFleb (num 0) x).
Qed.

Lemma uint_bytes_1 v le : uint_bytes 1 v le = [v mod 256].
Proof. by destruct le. Qed.

Lemma num_uint_max :
  num 0xff = S754_finite false 8972014882652160 (-45)
  /\ num 0xffff = S754_finite false 9007061815787520 (-37)
  /\ num 0xffffffff = S754_finite false 9007199252643840 (-21).
Proof. vm_compute. repeat split; reflexivity. Qed.

Section IntegerAppenders.

Variable packedQuat : JSValue -> Z.

(** X9. The uint8, uint16 and uint32 appenders accept every number between 0
    and the maximum of their width, integer or not, and write its integer
    part: the fraction is dropped, nothing wraps around, and reading the bytes
    back in the same byte order gives that integer. *)
Theorem appendUintValue_integer_part a size x dataPosition flag littleEndian s :
  In (a, size) [(Uint8Value, 1%nat); (Uint16Value, 2%nat); (Uint32Value, 4%nat)] ->
  valid_binary 53 1024 x = true ->
  valid a (JSNumber x) = Value true ->
  0 <= dataPosition -> dataPosition + Z.of_nat size <= byteLength (data s) ->
  0 <= truncate x < 2 ^ (8 * Z.of_nat size)
  /\ exists s' : Store,
       append packedQuat a dataPosition flag (JSNumber x) littleEndian s
       = Normal (Z.of_nat size) s'
       /\ data s' = take (Z.to_nat dataPosition) (data s)
                    ++ uint_bytes size (truncate x) littleEndian
                    ++ drop (Z.to_nat dataPosition + size) (data s)
       /\ uint_value (take size (drop (Z.to_nat dataPosition) (data s'))) littleEndian
          = truncate x
       /\ packetContext s' = committed flag (packetContext s).
Proof.
  intros Ha Hbin Hv H0 H1.
  assert (Ha' : a = Uint8Value \/ a = Uint16Value \/ a = Uint32Value).
  { cbn [In] in Ha. destruct Ha as [E | [E | [E | []]]]; injection E as <- _; auto. }
  pose proof Hv as Hv'. rewrite (validUintValue_number a x Ha') in Hv'.
  injection Hv' as Hv'. apply andb_true_iff in Hv' as [Hlo Hhi].
  change (num 0) with (S754_zero false) in Hlo.
  destruct num_uint_max as (E8 & E16 & E32).
  assert (Hrange : 0 <= truncate x < 2 ^ (8 * Z.of_nat size)).
  { cbn [In] in Ha. destruct Ha as [E | [E | [E | []]]]; injection E as <- <-.
    - rewrite E8 in Hhi.
      pose proof (truncate_between x 8972014882652160 (-45) Hbin ltac:(lia) ltac:(lia) Hlo Hhi) as Ht.
      change (Z.pos 8972014882652160 / 2 ^ (- -45)) with 255 in Ht.
      change (2 ^ (8 * Z.of_nat 1)) with 256. lia.
    - rewrite E16 in Hhi.
      pose proof (truncate_between x 9007061815787520 (-37) Hbin ltac:(lia) ltac:(lia) Hlo Hhi) as Ht.
      change (Z.pos 9007061815787520 / 2 ^ (- -37)) with 65535 in Ht.
      change (2 ^ (8 * Z.of_nat 2)) with 65536. lia.
    - rewrite E32 in Hhi.
      pose proof (truncate_between x 9007199252643840 (-21) Hbin ltac:(lia) ltac:(lia) Hlo Hhi) as Ht.
      change (Z.pos 9007199252643840 / 2 ^ (- -21)) with 4294967295 in Ht.
      change (2 ^ (8 * Z.of_nat 4)) with 4294967296. lia. }
  split; [exact Hrange |].
  exists (appended flag dataPosition (uint_bytes size (truncate x) littleEndian) s).
  assert (Hsplice : data (appended flag dataPosition
                            (uint_bytes size (truncate x) littleEndian) s)
                    = take (Z.to_nat dataPosition) (data s)
                      ++ uint_bytes size (truncate x) littleEndian
                      ++ drop (Z.to_nat dataPosition + size) (data s)).
  { cbn [appended data]. unfold splice. by rewrite length_uint_bytes. }
  split; [| split; [exact Hsplice | split; [| reflexivity]]].
  - cbn [In] in Ha. destruct Ha as [E | [E | [E | []]]]; injection E as <- <-;
      cbn [append valid] in *.
    + unfold appendUint8Value. rewrite (bind_lift_Value _ _ _ _ Hv). cbn [negb]. cbv zeta.
      rewrite bind_byteLength_fits by lia.
      apply run_written_nil with dataPosition. unfold var. write_step.
      rewrite (uint_bytes_1 _ littleEndian), (uint_bytes_1 _ true). reflexivity.
    + unfold appendUint16Value. rewrite (bind_lift_Value _ _ _ _ Hv). cbn [negb]. cbv zeta.
      rewrite bind_byteLength_fits by lia.
      apply run_written_nil with dataPosition. unfold var. write_step. reflexivity.
    + unfold appendUint32Value. rewrite (bind_lift_Value _ _ _ _ Hv). cbn [negb]. cbv zeta.
      rewrite bind_byteLength_fits by lia.
      apply run_written_nil with dataPosition. unfold var. write_step. reflexivity.
  - rewrite Hsplice. rewrite drop_app_length' by (rewrite length_take; unfold byteLength in H1; lia).
    rewrite take_app_length' by (by rewrite length_uint_bytes).
    rewrite uint_value_uint_bytes. apply Z.mod_small. exact Hrange.
Qed.

End IntegerAppenders.

Lemma appendUintValue_integer_part_witness :
  0 <= truncate (S754_finite false 5629499534213120 (-51)) < 2 ^ (8 * Z.of_nat 2)
  /\ exists s' : Store,
       append noQuat Uint16Value 1 7 (JSNumber (S754_finite false 5629499534213120 (-51))) false testStore
       = Normal (Z.of_nat 2) s'
       /\ data s' = take (Z.to_nat 1) (data testStore)
                    ++ uint_bytes 2 (truncate (S754_finite false 5629499534213120 (-51))) false
                    ++ drop (Z.to_nat 1 + 2) (data testStore)
       /\ uint_value (take 2 (drop (Z.to_nat 1) (data s'))) false
          = truncate (S754_finite false 5629499534213120 (-51))
       /\ packetContext s' = committed 7 (packetContext testStore).
Proof.
  apply (appendUintValue_integer_part noQuat Uint16Value 2 (S754_finite false 5629499534213120 (-51)) 1 7 false
           testStore).
  - right; left. reflexivity.
  - vm_compute. reflexivity.
  - vm_compute. reflexivity.
  - lia.
  - vm_compute. discriminate.
Defined.

(** ** Values read back with the getters of DataView *)

Lemma validUint64Value_bigint z :
  validUint64Value (JSBigInt z) = Value ((0 <=? z) && (z <=? 0xffffffffffffffff)).
Proof.
  unfold validUint64Value, typeof_is, le, lit, var, and_then.
  cbn [mbind Completion_bind typeof mret Completion_ret String.eqb Ascii.eqb
       Bool.eqb js_leb].
  change (num 0) with (S754_zero false). cbn [SFcompare_Z].
  destruct (Z.leb_spec 0 z) as [H | H]; destruct (Z.compare_spec 0 z); try lia; reflexivity.
Qed.

Lemma getBigUint64_splice off z le (data : DataView) :
  0 <= off -> off + 8 <= byteLength data ->
  getBigUint64 off le (splice (Z.to_nat off) (uint_bytes 8 z le) data)
  = Normal (z mod 2 ^ 64) (splice (Z.to_nat off) (uint_bytes 8 z le) data).
Proof.
  intros H0 H1. unfold byteLength in H1. unfold getBigUint64, mbind, M_bind, bind, ret.
  rewrite load_in_view
    by (rewrite ?byteLength_splice; rewrite ?length_uint_bytes; unfold byteLength; lia).
  f_equal. rewrite drop_splice_start by lia.
  rewrite <- (length_uint_bytes 8 z le) at 1. rewrite take_app_length.
  apply uint_value_uint_bytes.
Qed.

(** X10. [appendUint64Value] accepts exactly the bigints from 0 to
    [2^64 - 1].  One that fits is written so that [getBigUint64] at the same
    position and in the same byte order reads it back; a bigint outside the
    range is rejected: the error is logged, 0 is returned, and neither the
    bytes nor the packet context change. *)
Theorem appendUint64Value_getBigUint64 z dataPosition flag littleEndian s :
  (0 <= z <= 0xffffffffffffffff ->
   0 <= dataPosition -> dataPosition + 8 <= byteLength (data s) ->
   exists s' : Store,
     appendUint64Value dataPosition flag (JSBigInt z) littleEndian s = Normal 8 s'
     /\ getBigUint64 dataPosition littleEndian (data s') = Normal z (data s')
     /\ packetContext s' = committed flag (packetContext s))
  /\ (z < 0 \/ 0xffffffffffffffff < z ->
      appendUint64Value dataPosition flag (JSBigInt z) littleEndian s
      = Normal 0 (logged "[EntityServer] Cannot write invalid uint64 value to packet!" s)).
Proof.
  split.
  - intros Hz H0 H1.
    assert (Hv : validUint64Value (JSBigInt z) = Value true).
    { rewrite validUint64Value_bigint. f_equal. apply andb_true_iff.
      rewrite !Z.leb_le. lia. }
    exists (appended flag dataPosition (uint_bytes 8 z littleEndian) s).
    split; [| split; [| reflexivity]].
    + unfold appendUint64Value. rewrite (bind_lift_Value _ _ _ _ Hv). cbn [negb]. cbv zeta.
      rewrite bind_byteLength_fits by lia.
      apply run_written_nil with dataPosition. unfold var. write_step. reflexivity.
    + cbn [appended data]. rewrite getBigUint64_splice by assumption.
      f_equal. apply Z.mod_small. lia.
  - intros Hz.
    assert (Hv : validUint64Value (JSBigInt z) = Value false).
    { rewrite validUint64Value_bigint. f_equal. apply andb_false_iff.
      rewrite !Z.leb_gt. lia. }
    unfold appendUint64Value. by rewrite (bind_lift_Value _ _ _ _ Hv).
Qed.

Lemma appendUint64Value_getBigUint64_witness :
  (exists s' : Store,
     appendUint64Value 0 7 (JSBigInt 0xffffffffffffffff) true
       (mkStore (repeat 0 9) emptyContext []) = Normal 8 s'
     /\ getBigUint64 0 true (data s') = Normal 0xffffffffffffffff (data s')
     /\ packetContext s' = committed 7 emptyContext)
  /\ appendUint64Value 0 7 (JSBigInt (-1)) true testStore
     = Normal 0 (logged "[EntityServer] Cannot write invalid uint64 value to packet!"
                   testStore).
Proof.
  split.
  - apply (appendUint64Value_getBigUint64 0xffffffffffffffff 0 7 true
             (mkStore (repeat 0 9) emptyContext [])); [lia | lia | vm_compute; discriminate].
  - apply (appendUint64Value_getBigUint64 (-1) 0 7 true testStore). lia.
Defined.

(** X11. A UUID written by [appendUuidValue] is read back by [getBigUint128]:
    after a non-null UUID has been appended at [dataPosition], the two bytes
    there are the length 16 and the big-endian 128-bit read at
    [dataPosition + 2] returns the UUID's value. *)
Theorem appendUuidValue_getBigUint128 u dataPosition flag s :
  Uuid_isNull u = false -> 0 <= Uuid_value u < 2 ^ 128 ->
  0 <= dataPosition -> dataPosition + 18 <= byteLength (data s) ->
  exists s' : Store,
    appendUuidValue dataPosition flag (JSUuid u) s = Normal 18 s'
    /\ take 2 (drop (Z.to_nat dataPosition) (data s')) = [16; 0]
    /\ getBigUint128 (dataPosition + 2) BIG_ENDIAN (data s')
       = Normal (Uuid_value u) (data s').
Proof.
  intros Hnull Hrange H0 H1.
  exists (appended flag dataPosition
            (uint_bytes 2 16 LITTLE_ENDIAN ++ u128_bytes (Uuid_value u) BIG_ENDIAN) s).
  pose proof H1 as H1'. unfold byteLength in H1'.
  split; [| split].
  - unfold appendUuidValue. rewrite (bind_lift_Value _ true _ _ eq_refl). cbn [negb].
    simpl call_isNull. rewrite (bind_lift_Value _ _ _ _ eq_refl).
    rewrite Hnull. cbv zeta. rewrite bind_byteLength_fits by lia.
    simpl call_value.
    apply run_written_nil with dataPosition. do 2 write_step. reflexivity.
  - cbn [appended data]. rewrite drop_splice_start by lia.
    rewrite <- app_assoc. reflexivity.
  - cbn [appended data].
    set (data' := splice _ _ _).
    assert (Hlen' : byteLength data' = byteLength (data s)).
    { apply byteLength_splice. rewrite length_app, length_uint_bytes, length_u128_bytes. lia. }
    rewrite getBigUint128_in_view by (rewrite ?Hlen'; unfold byteLength; lia).
    f_equal.
    replace (Z.to_nat (dataPosition + 2))
      with (Z.to_nat dataPosition + length (uint_bytes 2 16 LITTLE_ENDIAN))%nat
      by (rewrite length_uint_bytes; lia).
    rewrite <- (length_u128_bytes (Uuid_value u) BIG_ENDIAN).
    unfold data'.
    rewrite <- (app_nil_r (u128_bytes (Uuid_value u) BIG_ENDIAN)) at 2.
    rewrite take_drop_splice by lia.
    rewrite u128_bytes_uint_bytes.
    destruct (Z.gtb_spec (Uuid_value u) MAX_U128_VALUE) as [Hgt | _];
      [unfold MAX_U128_VALUE in Hgt; lia |].
    rewrite uint_value_uint_bytes. apply Z.mod_small. change (8 * Z.of_nat 16) with 128. lia.
Qed.

Lemma appendUuidValue_getBigUint128_witness :
  exists s' : Store,
    appendUuidValue 1 7 (JSUuid (mkUuid 0xa82f40b6ee8946ccb50402b88d72a546 false))
      (mkStore (repeat 0 20) emptyContext []) = Normal 18 s'
    /\ take 2 (drop (Z.to_nat 1) (data s')) = [16; 0]
    /\ getBigUint128 (1 + 2) BIG_ENDIAN (data s')
       = Normal 0xa82f40b6ee8946ccb50402b88d72a546 (data s').
Proof.
  apply (appendUuidValue_getBigUint128 (mkUuid 0xa82f40b6ee8946ccb50402b88d72a546 false)
           1 7 (mkStore (repeat 0 20) emptyContext []));
    [reflexivity | cbn [Uuid_value]; lia | lia | vm_compute; discriminate].
Defined.

(** ** appendBooleanArray: where each element goes *)

Lemma testbit_set_bit (b : bool) current bit i :
  0 <= bit -> 0 <= i ->
  Z.testbit (if b then Z.lor current (Z.shiftl 1 bit) else current) i
  = Z.testbit current i || (b && (bit =? i)).
Proof.
  intros Hbit Hi. destruct b; [| by rewrite orb_false_r].
  rewrite Z.lor_spec, Z.shiftl_1_l, Z.pow2_bits_eqb by lia. reflexivity.
Qed.

(** The loop of [appendBooleanArray], entered with [bit] elements already
    gathered in [current]: bit [i mod 8] of byte [i / 8] is element [i],
    counted from the first element of the byte being gathered. *)
Lemma packBooleans_bits (bools : list bool) :
  forall index bit current,
    0 <= bit < 8 -> (forall i, bit <= i -> Z.testbit current i = false) ->
    exists bs,
      writes_at index (packBooleans (map JSBoolean bools) index bit current) bs
      /\ Z.of_nat (length bs)
         = match bools with
           | [] => 0
           | _ => (bit + Z.of_nat (length bools) + 7) / 8
           end
      /\ Forall (fun b => 0 <= b < 256) bs
      /\ forall i, 0 <= i < 8 * Z.of_nat (length bs) ->
           Z.testbit (nth (Z.to_nat (i / 8)) bs 0) (i mod 8)
           = if i <? bit then Z.testbit current i
             else nth (Z.to_nat (i - bit)) bools false.
Proof.
  induction bools as [|b rest IH]; intros index bit current Hbit Hhigh.
  - exists []. split; [apply writes_at_ret |]. split; [done |]. split; [constructor |].
    simpl. intros i Hi. lia.
  - cbn [map packBooleans ToBoolean].
    set (current' := if b then Z.lor current (Z.shiftl 1 bit) else current).
    assert (Hbit' : 0 <= (bit + 1) mod 8 < 8) by (apply Z.mod_pos_bound; lia).
    assert (Hcur : forall i, 0 <= i ->
              Z.testbit current' i = Z.testbit current i || (b && (bit =? i))).
    { intros i Hi. apply testbit_set_bit; lia. }
    destruct (((bit + 1) mod 8 =? 0)
              || match map JSBoolean rest with [] => true | _ => false end) eqn:Hflush.
    + destruct (IH (index + 1) ((bit + 1) mod 8) 0 Hbit' ltac:(intros; apply Z.bits_0))
        as (bs & W & Hlen & Hrange & Hbits).
      exists (uint_bytes 1 current' true ++ bs).
      split; [apply writes_at_bind; [apply writes_at_store | by rewrite length_uint_bytes] |].
      split.
      { rewrite length_app, length_uint_bytes, Nat2Z.inj_add, Hlen.
        destruct rest as [|r rest'].
        - simpl length. Z.div_mod_to_equations. lia.
        - rewrite orb_false_r in Hflush. apply Z.eqb_eq in Hflush.
          rewrite Hflush. simpl length. Z.div_mod_to_equations. lia. }
      split.
      { apply Forall_app. split; [| exact Hrange].
        repeat constructor; apply Z.mod_pos_bound; lia. }
      intros i Hi. cbn [uint_bytes le_bytes app length] in *.
      destruct (Z_lt_le_dec i 8) as [Hlow | Hup].
      * replace (Z.to_nat (i / 8)) with 0%nat by (Z.div_mod_to_equations; lia).
        cbn [nth]. rewrite (Z.mod_small i) by lia.
        change 256 with (2 ^ 8). rewrite Z.mod_pow2_bits_low by lia.
        rewrite Hcur by lia.
        destruct (Z.ltb_spec i bit).
        -- rewrite (proj2 (Z.eqb_neq bit i)) by lia. by rewrite andb_false_r, orb_false_r.
        -- rewrite Hhigh by lia. cbn [orb].
           destruct (Z.eqb_spec bit i) as [-> | Hne].
           ++ rewrite Z.sub_diag, andb_true_r. reflexivity.
           ++ rewrite andb_false_r.
              destruct rest as [|r rest'].
              ** replace (Z.to_nat (i - bit)) with (S (Z.to_nat (i - bit - 1))) by lia.
                 cbn [nth]. by destruct (Z.to_nat (i - bit - 1)).
              ** rewrite orb_false_r in Hflush. apply Z.eqb_eq in Hflush.
                 Z.div_mod_to_equations. lia.
      * destruct rest as [|r rest']; [simpl in Hlen; lia |].
        rewrite orb_false_r in Hflush. apply Z.eqb_eq in Hflush.
        assert (bit = 7) as -> by (Z.div_mod_to_equations; lia).
        replace (Z.to_nat (i / 8)) with (S (Z.to_nat ((i - 8) / 8)))
          by (Z.div_mod_to_equations; lia).
        cbn [nth]. replace (i mod 8) with ((i - 8) mod 8)
          by (Z.div_mod_to_equations; lia).
        rewrite Hbits by lia. rewrite Hflush.
        destruct (Z.ltb_spec (i - 8) 0); [lia |].
        destruct (Z.ltb_spec i 7); [lia |].
        replace (Z.to_nat (i - 7)) with (S (Z.to_nat (i - 8 - 0))) by lia.
        reflexivity.
    + apply orb_false_iff in Hflush as [Hne Hrest].
      destruct rest as [|r rest']; [discriminate |].
      apply Z.eqb_neq in Hne.
      assert (Hmod : (bit + 1) mod 8 = bit + 1) by (Z.div_mod_to_equations; lia).
      destruct (IH index ((bit + 1) mod 8) current' Hbit') as (bs & W & Hlen & Hrange & Hbits).
      { intros i Hi. rewrite Hcur by lia. rewrite Hhigh by lia.
        rewrite (proj2 (Z.eqb_neq bit i)) by lia. by rewrite andb_false_r. }
      exists bs. split; [exact W |]. split.
      { rewrite Hlen. simpl length. Z.div_mod_to_equations. lia. }
      split; [exact Hrange |].
      intros i Hi. rewrite Hbits by exact Hi. rewrite Hmod.
      destruct (Z.ltb_spec i (bit + 1)); destruct (Z.ltb_spec i bit); try lia.
      * rewrite Hcur by lia. rewrite (proj2 (Z.eqb_neq bit i)) by lia.
        by rewrite andb_false_r, orb_false_r.
      * assert (i = bit) as -> by lia. rewrite Hcur by lia.
        rewrite Hhigh by lia. rewrite Z.eqb_refl, Z.sub_diag, andb_true_r. reflexivity.
      * replace (Z.to_nat (i - bit)) with (S (Z.to_nat (i - (bit + 1)))) by lia.
        reflexivity.
Qed.

Lemma every_boolean (bools : list bool) :
  every (fun element => typeof_is element "boolean") (map JSBoolean bools) = Value true.
Proof. induction bools as [|b rest IH]; [reflexivity | exact IH]. Qed.

Lemma validBooleanArray_booleans (bools : list bool) :
  Z.of_nat (length bools) <= 0xffff ->
  validBooleanArray (JSArray (map JSBoolean bools)) = Value true.
Proof.
  intros Hlen. unfold validBooleanArray.
  cbn [Array_isArray elements_of mret Completion_ret and_then].
  rewrite length_map. destruct (Z.leb_spec (Z.of_nat (length bools)) 65535); [| lia].
  apply every_boolean.
Qed.

(** X12. [appendBooleanArray] packs the elements eight to a byte, the first
    of each eight in the least significant bit.  For an array of at most 65535
    booleans that fits, the bytes written are the little-endian u16 count
    followed by [ceil(n / 8)] bytes in which bit [i mod 8] of byte [i / 8] is
    element [i]; the bits of the last byte beyond the last element are 0. *)
Theorem appendBooleanArray_bits (bools : list bool) dataPosition flag s :
  let n := Z.of_nat (length bools) in
  n <= 0xffff ->
  0 <= dataPosition -> dataPosition + 2 + (n + 7) / 8 <= byteLength (data s) ->
  exists (packed : list Z) (s' : Store),
    appendBooleanArray dataPosition flag (JSArray (map JSBoolean bools)) s
    = Normal (2 + (n + 7) / 8) s'
    /\ data s' = take (Z.to_nat dataPosition) (data s)
                 ++ (uint_bytes 2 n LITTLE_ENDIAN ++ packed)
                 ++ drop (Z.to_nat (dataPosition + 2 + (n + 7) / 8)) (data s)
    /\ Z.of_nat (length packed) = (n + 7) / 8
    /\ Forall (fun b => 0 <= b < 256) packed
    /\ forall i, 0 <= i < 8 * ((n + 7) / 8) ->
         Z.testbit (nth (Z.to_nat (i / 8)) packed 0) (i mod 8)
         = nth (Z.to_nat i) bools false.
Proof.
  cbv zeta. intros Hn H0 H1.
  pose proof (validBooleanArray_booleans bools Hn) as Hv.
  destruct (packBooleans_bits bools (dataPosition + 2) 0 0 ltac:(lia)
              ltac:(intros; apply Z.bits_0)) as (bs & W & Hlen & Hrange & Hbits).
  assert (Hlen' : Z.of_nat (length bs) = (Z.of_nat (length bools) + 7) / 8)
    by (rewrite Hlen; destruct bools; reflexivity).
  exists bs, (appended flag dataPosition
                (uint_bytes 2 (Z.of_nat (length bools)) LITTLE_ENDIAN ++ bs) s).
  split; [| split; [| split; [exact Hlen' | split; [exact Hrange |]]]].
  - unfold appendBooleanArray. rewrite (bind_lift_Value _ _ _ _ Hv). cbn [negb]. cbv zeta.
    cbn [elements_of]. rewrite length_map.
    rewrite bind_byteLength_fits by lia.
    apply run_written_nil with dataPosition. do 2 write_step. reflexivity.
  - cbn [appended data]. unfold splice. rewrite length_app, length_uint_bytes.
    do 3 f_equal. lia.
  - intros i Hi. rewrite Hbits by lia.
    destruct (Z.ltb_spec i 0); [lia |]. by rewrite Z.sub_0_r.
Qed.

Lemma appendBooleanArray_bits_witness :
  exists (packed : list Z) (s' : Store),
    appendBooleanArray 0 7 (JSArray (map JSBoolean [true; false; true])) testStore
    = Normal (2 + (Z.of_nat 3 + 7) / 8) s'
    /\ data s' = take (Z.to_nat 0) (data testStore)
                 ++ (uint_bytes 2 (Z.of_nat 3) LITTLE_ENDIAN ++ packed)
                 ++ drop (Z.to_nat (0 + 2 + (Z.of_nat 3 + 7) / 8)) (data testStore)
    /\ Z.of_nat (length packed) = (Z.of_nat 3 + 7) / 8
    /\ Forall (fun b => 0 <= b < 256) packed
    /\ forall i, 0 <= i < 8 * ((Z.of_nat 3 + 7) / 8) ->
         Z.testbit (nth (Z.to_nat (i / 8)) packed 0) (i mod 8)
         = nth (Z.to_nat i) [true; false; true] false.
Proof.
  apply (appendBooleanArray_bits [true; false; true] 0 7 testStore);
    [vm_compute; discriminate | lia | vm_compute; discriminate].
Defined.

(** ** The array appenders: the count and the elements *)

Lemma writes_at_forEach_concat (P : JSValue -> Prop) body stride (f : JSValue -> list Z) :
  (forall element off, P element ->
     Z.of_nat (length (f element)) = stride /\ writes_at off (body off element) (f element)) ->
  forall elements off, Forall P elements ->
    writes_at off (forEach elements off stride body) (concat (map f elements)).
Proof.
  intros Hbody. induction elements as [|element rest IH]; intros off HP.
  - apply writes_at_ret.
  - inversion HP as [|? ? Hel Hrest]; subst.
    destruct (Hbody element off Hel) as (Hlen & W).
    cbn [forEach map concat]. apply writes_at_bind; [exact W |].
    rewrite Hlen. by apply IH.
Qed.

Lemma length_concat_map {A : Type} (f : A -> list Z) (k : nat) (l : list A) :
  (forall x, In x l -> length (f x) = k) -> length (concat (map f l)) = (k * length l)%nat.
Proof.
  induction l as [|x l IH]; intros Hf; [simpl; lia |].
  cbn [map concat length]. rewrite length_app, (Hf x) by (by left).
  rewrite IH by (intros y Hy; apply Hf; by right). lia.
Qed.

(** The [i]-th chunk of a concatenation of chunks of [k] elements each. *)
Lemma take_drop_concat_map {A : Type} (f : A -> list Z) (k : nat) (l : list A) (i : nat) x
    (tail : list Z) :
  (forall y, In y l -> length (f y) = k) ->
  l !! i = Some x ->
  take k (drop (k * i) (concat (map f l) ++ tail)) = f x.
Proof.
  revert i. induction l as [|y l IH]; intros i Hf Hi; [done |].
  cbn [map concat]. destruct i as [|i].
  - injection Hi as ->. rewrite Nat.mul_0_r, drop_0, <- app_assoc.
    rewrite <- (Hf x) by (by left). apply take_app_length.
  - cbn [lookup list_lookup] in Hi.
    replace (k * S i)%nat with (length (f y) + k * i)%nat
      by (rewrite (Hf y) by (by left); lia).
    rewrite <- app_assoc, <- drop_drop, drop_app_length.
    apply IH; [| exact Hi]. intros z Hz. apply Hf. by right.
Qed.

Lemma every_uuid (uuids : list Uuid) :
  every (fun element => mret (instanceof_Uuid element)) (map JSUuid uuids) = Value true.
Proof. induction uuids as [|u rest IH]; [reflexivity | exact IH]. Qed.

Lemma validUuidArray_uuids (uuids : list Uuid) :
  Z.of_nat (length uuids) <= 0xffff ->
  validUuidArray (JSArray (map JSUuid uuids)) = Value true.
Proof.
  intros Hlen. unfold validUuidArray.
  cbn [Array_isArray elements_of mret Completion_ret and_then].
  rewrite length_map. destruct (Z.leb_spec (Z.of_nat (length uuids)) 65535); [| lia].
  apply every_uuid.
Qed.

(** X13. [appendUuidArray] writes the little-endian u16 count of the elements
    and then, for each element in order, the 16 bytes of its value, most
    significant first: there is no length in front of an element, and a null
    UUID is written like any other.  With the values below [2^128], the
    big-endian 128-bit read at [dataPosition + 2 + 16 i] returns the value of
    element [i]. *)
Theorem appendUuidArray_layout (uuids : list Uuid) dataPosition flag s :
  let n := Z.of_nat (length uuids) in
  n <= 0xffff ->
  0 <= dataPosition -> dataPosition + 2 + n * 16 <= byteLength (data s) ->
  exists s' : Store,
    appendUuidArray dataPosition flag (JSArray (map JSUuid uuids)) s
    = Normal (2 + n * 16) s'
    /\ data s'
       = take (Z.to_nat dataPosition) (data s)
         ++ (uint_bytes 2 n LITTLE_ENDIAN
             ++ concat (map (fun u => uint_bytes 16
                                        (if Uuid_value u >? MAX_U128_VALUE then 0
                                         else Uuid_value u) BIG_ENDIAN) uuids))
         ++ drop (Z.to_nat (dataPosition + 2 + n * 16)) (data s)
    /\ uint_value (take 2 (drop (Z.to_nat dataPosition) (data s'))) LITTLE_ENDIAN = n
    /\ forall (i : nat) (u : Uuid),
         uuids !! i = Some u -> 0 <= Uuid_value u < 2 ^ 128 ->
         getBigUint128 (dataPosition + 2 + 16 * Z.of_nat i) BIG_ENDIAN (data s')
         = Normal (Uuid_value u) (data s').
Proof.
  cbv zeta. intros Hn H0 H1.
  set (n := Z.of_nat (length uuids)) in *.
  set (f := fun u => uint_bytes 16
                       (if Uuid_value u >? MAX_U128_VALUE then 0 else Uuid_value u)
                       BIG_ENDIAN).
  pose proof (validUuidArray_uuids uuids Hn) as Hv.
  assert (Hf : forall u, In u uuids -> length (f u) = 16%nat)
    by (intros; apply length_uint_bytes).
  assert (Hlenf : Z.of_nat (length (concat (map f uuids))) = n * 16).
  { rewrite (length_concat_map f 16) by exact Hf. unfold n. lia. }
  assert (W : writes_at (dataPosition + 2)
                (forEach (map JSUuid uuids) (dataPosition + 2) 16
                   (fun index uuid => data_setBigUint128 index (call_value uuid) BIG_ENDIAN))
                (concat (map f uuids))).
  { replace (concat (map f uuids))
      with (concat (map (fun v => match v with JSUuid u => f u | _ => [] end)
                      (map JSUuid uuids)))
      by (by rewrite map_map).
    apply (writes_at_forEach_concat (fun v => exists u, v = JSUuid u)).
    - intros element off [u ->]. split; [unfold f; by rewrite length_uint_bytes |].
      cbn [call_value]. unfold f. rewrite <- u128_bytes_uint_bytes.
      apply writes_at_data_setBigUint128.
    - clear. induction uuids as [|u rest IH]; constructor; [by exists u | exact IH]. }
  set (bs := uint_bytes 2 n LITTLE_ENDIAN ++ concat (map f uuids)).
  assert (Hbs : Z.of_nat (length bs) = 2 + n * 16).
  { unfold bs. rewrite length_app, length_uint_bytes, Nat2Z.inj_add, Hlenf. lia. }
  pose proof H1 as H1'. unfold byteLength in H1'.
  exists (appended flag dataPosition bs s).
  assert (Hdata : data (appended flag dataPosition bs s)
                  = take (Z.to_nat dataPosition) (data s) ++ bs
                    ++ drop (Z.to_nat (dataPosition + 2 + n * 16)) (data s)).
  { cbn [appended data]. unfold splice. do 3 f_equal. lia. }
  split; [| split; [exact Hdata | split]].
  - unfold appendUuidArray. rewrite (bind_lift_Value _ _ _ _ Hv). cbn [negb]. cbv zeta.
    cbn [elements_of]. rewrite length_map. fold n.
    rewrite bind_byteLength_fits by lia.
    apply run_written_nil with dataPosition. do 2 write_step. reflexivity.
  - rewrite Hdata. rewrite drop_app_length' by (rewrite length_take; lia).
    unfold bs. rewrite <- !app_assoc.
    rewrite take_app_length' by (by rewrite length_uint_bytes).
    rewrite uint_value_uint_bytes. apply Z.mod_small.
    change (2 ^ (8 * Z.of_nat 2)) with 65536. unfold n. lia.
  - intros i u Hi Hu.
    assert (Hilt : (i < length uuids)%nat) by (by apply lookup_lt_Some in Hi).
    assert (Hlen' : byteLength (data (appended flag dataPosition bs s))
                    = byteLength (data s)).
    { cbn [appended data]. apply byteLength_splice. lia. }
    rewrite getBigUint128_in_view by (rewrite ?Hlen'; unfold n in *; lia).
    f_equal. rewrite Hdata.
    replace (Z.to_nat (dataPosition + 2 + 16 * Z.of_nat i))
      with (length (take (Z.to_nat dataPosition) (data s)
                    ++ uint_bytes 2 n LITTLE_ENDIAN) + 16 * i)%nat
      by (rewrite length_app, length_take, length_uint_bytes; lia).
    unfold bs. rewrite <- !app_assoc, (app_assoc (take _ _)).
    rewrite <- drop_drop, drop_app_length.
    rewrite (take_drop_concat_map f 16 uuids i u) by assumption.
    unfold f. destruct (Z.gtb_spec (Uuid_value u) MAX_U128_VALUE) as [Hgt | _];
      [unfold MAX_U128_VALUE in Hgt; lia |].
    rewrite uint_value_uint_bytes. apply Z.mod_small.
    change (8 * Z.of_nat 16) with 128. lia.
Qed.

Lemma appendUuidArray_layout_witness :
  exists s' : Store,
    appendUuidArray 1 7 (JSArray (map JSUuid [mkUuid 5 false; mkUuid 0 true]))
      (mkStore (repeat 0 40) emptyContext [])
    = Normal (2 + Z.of_nat 2 * 16) s'
    /\ data s'
       = take (Z.to_nat 1) (repeat 0 40)
         ++ (uint_bytes 2 (Z.of_nat 2) LITTLE_ENDIAN
             ++ concat (map (fun u => uint_bytes 16
                                        (if Uuid_value u >? MAX_U128_VALUE then 0
                                         else Uuid_value u) BIG_ENDIAN)
                          [mkUuid 5 false; mkUuid 0 true]))
         ++ drop (Z.to_nat (1 + 2 + Z.of_nat 2 * 16)) (repeat 0 40)
    /\ uint_value (take 2 (drop (Z.to_nat 1) (data s'))) LITTLE_ENDIAN = Z.of_nat 2
    /\ forall (i : nat) (u : Uuid),
         [mkUuid 5 false; mkUuid 0 true] !! i = Some u -> 0 <= Uuid_value u < 2 ^ 128 ->
         getBigUint128 (1 + 2 + 16 * Z.of_nat i) BIG_ENDIAN (data s')
         = Normal (Uuid_value u) (data s').
Proof.
  apply (appendUuidArray_layout [mkUuid 5 false; mkUuid 0 true] 1 7
           (mkStore (repeat 0 40) emptyContext []));
    [vm_compute; discriminate | lia | vm_compute; discriminate].
Defined.

Section ArrayElements.

Variable packedQuat : JSValue -> Z.

Lemma vec3_chunk element :
  validVec3 element = Value true ->
  Z.of_nat (length (vec3Bytes element)) = 12
  /\ (forall off,
        writes_at off
          (data_setFloat32 off element#"x" LITTLE_ENDIAN;;
           data_setFloat32 (off + 4) element#"y" LITTLE_ENDIAN;;
           data_setFloat32 (off + 8) element#"z" LITTLE_ENDIAN) (vec3Bytes element))
  /\ forall pos flag s,
       0 <= pos -> pos + 12 <= byteLength (data s) ->
       appendVec3Value pos flag element s
       = Normal 12 (appended flag pos (vec3Bytes element) s).
Proof.
  intros Hv. pose proof Hv as Hv'. unfold validVec3 in Hv'.
  apply and_then_true in Hv' as [(v & E & _)%typeof_is_true Hv'].
  apply and_then_true in Hv' as [(v0 & E0 & _)%typeof_is_true Hv'].
  apply and_then_true in Hv' as [(v1 & E1 & _)%typeof_is_true _].
  unfold vec3Bytes. rewrite E, E0, E1.
  split; [length_tac |]. split.
  - intros off.
    eapply writes_at_seq; [apply writes_at_data_setFloat32 | by rewrite length_uint_bytes |].
    eapply writes_at_seq; [apply writes_at_data_setFloat32 | | apply writes_at_data_setFloat32].
    rewrite length_uint_bytes. lia.
  - intros pos flag s H0 H1. unfold appendVec3Value, validVec3Value.
    rewrite (bind_lift_Value _ _ _ _ Hv). cbn [negb]. cbv zeta.
    rewrite bind_byteLength_fits by lia.
    apply run_written_nil with pos. rewrite E, E0, E1. repeat write_step. reflexivity.
Qed.

Lemma quat_chunk element :
  validQuatValue element = Value true ->
  forall pos flag s,
    0 <= pos -> pos + 8 <= byteLength (data s) ->
    appendQuatValue packedQuat pos flag element s
    = Normal 8 (appended flag pos (uint_bytes 8 (packedQuat element) LITTLE_ENDIAN) s).
Proof.
  intros Hv pos flag s H0 H1. unfold appendQuatValue.
  rewrite (bind_lift_Value _ _ _ _ Hv). cbn [negb]. cbv zeta.
  rewrite bind_byteLength_fits by lia.
  apply run_written_nil with pos. write_step. reflexivity.
Qed.

(** X14. [appendQuatArray] and [appendVec3Array] write the little-endian u16
    count of the elements and then the elements in order, each as the very
    bytes (8 and 12) that [appendQuatValue] and [appendVec3Value] write for
    it; every element of a valid array is a valid value of the single-value
    appender. *)
Theorem appendArray_elements a a0 size elements dataPosition flag littleEndian s :
  In (a, a0, size) [(QuatArray, QuatValue, 8); (Vec3Array, Vec3Value, 12)] ->
  valid a (JSArray elements) = Value true ->
  let n := Z.of_nat (length elements) in
  0 <= dataPosition -> dataPosition + 2 + size * n <= byteLength (data s) ->
  exists (chunks : list (list Z)) (s' : Store),
    append packedQuat a dataPosition flag (JSArray elements) littleEndian s
    = Normal (2 + size * n) s'
    /\ data s' = take (Z.to_nat dataPosition) (data s)
                 ++ (uint_bytes 2 n LITTLE_ENDIAN ++ concat chunks)
                 ++ drop (Z.to_nat (dataPosition + 2 + size * n)) (data s)
    /\ Forall2
         (fun element chunk =>
            Z.of_nat (length chunk) = size
            /\ valid a0 element = Value true
            /\ forall pos' flag' le' s0,
                 0 <= pos' -> pos' + size <= byteLength (data s0) ->
                 append packedQuat a0 pos' flag' element le' s0
                 = Normal size (appended flag' pos' chunk s0))
         elements chunks.
Proof.
  intros Ha Hv n H0 H1.
  assert (Hmain : exists f : JSValue -> list Z,
            writes_at (dataPosition + 2)
              (match a with
               | QuatArray =>
                   forEach elements (dataPosition + 2) 8 (fun index element =>
                     packOrientationQuatToBytes packedQuat index element)
               | _ =>
                   forEach elements (dataPosition + 2) 12 (fun index element =>
                     data_setFloat32 index element#"x" LITTLE_ENDIAN;;
                     data_setFloat32 (index + 4) element#"y" LITTLE_ENDIAN;;
                     data_setFloat32 (index + 8) element#"z" LITTLE_ENDIAN)
               end) (concat (map f elements))
            /\ Forall (fun element =>
                 Z.of_nat (length (f element)) = size
                 /\ valid a0 element = Value true
                 /\ forall pos' flag' le' s0,
                      0 <= pos' -> pos' + size <= byteLength (data s0) ->
                      append packedQuat a0 pos' flag' element le' s0
                      = Normal size (appended flag' pos' (f element) s0)) elements).
  { cbn [In] in Ha. destruct Ha as [E | [E | []]]; injection E as <- <- <-;
      cbn [valid] in Hv.
    - unfold validQuatArray in Hv. valid_inv Hv. cbn [elements_of] in Hv.
      exists (fun element => uint_bytes 8 (packedQuat element) LITTLE_ENDIAN).
      split.
      + apply (writes_at_forEach_concat (fun _ => True)).
        * intros element off _. split; [by rewrite length_uint_bytes |].
          apply writes_at_packOrientationQuatToBytes.
        * by apply Forall_true.
      + eapply Forall_impl; [exact Hv |]. intros element He. cbn beta in He.
        apply and_then_true in He as [_ He].
        split; [by rewrite length_uint_bytes |]. split; [exact He |].
        intros pos' flag' le' s0 Hp Hfit. cbn [append]. by apply quat_chunk.
    - unfold validVec3Array in Hv. valid_inv Hv. cbn [elements_of] in Hv.
      exists vec3Bytes. split.
      + apply (writes_at_forEach_concat (fun element => validVec3 element = Value true)).
        * intros element off He. destruct (vec3_chunk element He) as (Hlen & W & _).
          split; [exact Hlen | apply W].
        * exact Hv.
      + eapply Forall_impl; [exact Hv |]. intros element He. cbn beta in He.
        destruct (vec3_chunk element He) as (Hlen & _ & Happ).
        split; [exact Hlen |]. split; [exact He |].
        intros pos' flag' le' s0 Hp Hfit. cbn [append]. by apply Happ. }
  destruct Hmain as (f & W & Hall).
  assert (Hlenf : Z.of_nat (length (concat (map f elements))) = size * n).
  { unfold n. clear -Hall. induction Hall as [|element rest (Hlen & _) _ IH]; [simpl; lia |].
    cbn [map concat length]. rewrite length_app, Nat2Z.inj_add, IH, Hlen. lia. }
  set (bs := uint_bytes 2 n LITTLE_ENDIAN ++ concat (map f elements)).
  assert (Hbs : Z.of_nat (length bs) = 2 + size * n).
  { unfold bs. rewrite length_app, length_uint_bytes, Nat2Z.inj_add, Hlenf. lia. }
  exists (map f elements), (appended flag dataPosition bs s).
  split; [| split].
  - cbn [In] in Ha. destruct Ha as [E | [E | []]]; injection E as <- <- <-;
      cbn [valid append] in *.
    + unfold appendQuatArray. rewrite (bind_lift_Value _ _ _ _ Hv). cbn [negb]. cbv zeta.
      cbn [elements_of]. fold n.
      rewrite bind_byteLength_fits by lia.
      apply run_written_nil with dataPosition. do 2 write_step.
      rewrite (Z.mul_comm n 8). reflexivity.
    + unfold appendVec3Array. rewrite (bind_lift_Value _ _ _ _ Hv). cbn [negb]. cbv zeta.
      cbn [elements_of]. fold n.
      rewrite bind_byteLength_fits by lia.
      apply run_written_nil with dataPosition. do 2 write_step.
      rewrite (Z.mul_comm n 12). reflexivity.
  - cbn [appended data]. unfold splice. do 3 f_equal. lia.
  - clear -Hall. induction Hall as [|element rest He _ IH]; constructor; assumption.
Qed.

End ArrayElements.

Lemma appendArray_elements_witness :
  exists (chunks : list (list Z)) (s' : Store),
    append noQuat Vec3Array 0 7 (JSArray [testVec3; testVec3]) false
      (mkStore (repeat 0 30) emptyContext [])
    = Normal (2 + 12 * Z.of_nat 2) s'
    /\ data s' = take (Z.to_nat 0) (repeat 0 30)
                 ++ (uint_bytes 2 (Z.of_nat 2) LITTLE_ENDIAN ++ concat chunks)
                 ++ drop (Z.to_nat (0 + 2 + 12 * Z.of_nat 2)) (repeat 0 30)
    /\ Forall2
         (fun element chunk =>
            Z.of_nat (length chunk) = 12
            /\ valid Vec3Value element = Value true
            /\ forall pos' flag' le' s0,
                 0 <= pos' -> pos' + 12 <= byteLength (data s0) ->
                 append noQuat Vec3Value pos' flag' element le' s0
                 = Normal 12 (appended flag' pos' chunk s0))
         [testVec3; testVec3] chunks.
Proof.
  apply (appendArray_elements noQuat Vec3Array Vec3Value 12 [testVec3; testVec3] 0 7 false
           (mkStore (repeat 0 30) emptyContext [])).
  - right; left. reflexivity.
  - vm_compute. reflexivity.
  - lia.
  - vm_compute. discriminate.
Defined.

(** ** Strings and byte arrays: the length in front *)

Lemma utf8_code_point_bytes c :
  0 <= c < 0x110000 -> Forall (fun b => 0 <= b < 256) (utf8_code_point c).
Proof.
  intros Hc. unfold utf8_code_point.
  repeat match goal with
         | |- context [?x <? ?y] => destruct (Z.ltb_spec x y)
         end;
    repeat constructor; Z.div_mod_to_equations; lia.
Qed.

Lemma utf8_encode_bytes units :
  Forall (fun u => 0 <= u < 65536) units ->
  Forall (fun b => 0 <= b < 256) (utf8_encode units).
Proof.
  remember (length units) as n eqn:Hn.
  assert (Hle : (length units <= n)%nat) by lia. clear Hn.
  revert units Hle. induction n as [|n IH]; intros units Hle Hunits.
  - destruct units; [constructor | simpl in Hle; lia].
  - destruct units as [|u rest]; [constructor |].
    inversion Hunits as [|? ? Hu Hrest]; subst.
    simpl in Hle. cbn [utf8_encode].
    assert (Hrest' : Forall (fun b => 0 <= b < 256) (utf8_encode rest))
      by (apply IH; [lia | exact Hrest]).
    unfold is_high_surrogate, is_low_surrogate.
    destruct (Z.leb_spec 0xD800 u); destruct (Z.leb_spec u 0xDBFF); cbn [andb].
    + destruct rest as [|l rest'].
      * apply utf8_code_point_bytes. lia.
      * inversion Hrest as [|? ? Hl Hrest'']; subst.
        destruct (Z.leb_spec 0xDC00 l); destruct (Z.leb_spec l 0xDFFF); cbn [andb];
          apply Forall_app; split;
          try (apply utf8_code_point_bytes; lia); try exact Hrest'.
        apply IH; [simpl in Hle; lia | exact Hrest''].
    + destruct (Z.leb_spec 0xDC00 u); destruct (Z.leb_spec u 0xDFFF); cbn [andb];
        apply Forall_app; split; try (apply utf8_code_point_bytes; lia); exact Hrest'.
    + destruct (Z.leb_spec 0xDC00 u); destruct (Z.leb_spec u 0xDFFF); cbn [andb];
        apply Forall_app; split; try (apply utf8_code_point_bytes; lia); exact Hrest'.
    + lia.
Qed.

Lemma map_mod_256 bytes :
  Forall (fun b => 0 <= b < 256) bytes -> map (fun b => b mod 256) bytes = bytes.
Proof.
  induction 1 as [|b bytes Hb _ IH]; [reflexivity |].
  cbn [map]. rewrite IH, Z.mod_small by lia. reflexivity.
Qed.

Lemma uint16_prefix pos n payload (data : DataView) :
  (Z.to_nat pos <= length data)%nat ->
  uint_value
    (take 2 (drop (Z.to_nat pos)
               (take (Z.to_nat pos) data
                ++ (uint_bytes 2 n LITTLE_ENDIAN ++ payload)
                ++ drop (Z.to_nat (pos + 2 + Z.of_nat (length payload))) data)))
    LITTLE_ENDIAN
  = n mod 65536.
Proof.
  intros H. rewrite drop_app_length' by (rewrite length_take; lia).
  rewrite <- !app_assoc. rewrite take_app_length' by (by rewrite length_uint_bytes).
  apply uint_value_uint_bytes.
Qed.

(** X15. [appendStringValue] writes the little-endian u16 length in bytes of
    the UTF-8 encoding of the string and then the encoding.  The length is
    not checked against 0xffff: the u16 holds it modulo 65536, and holds the
    length itself whenever the packet is at most 65537 bytes long, which
    every string that fits then satisfies. *)
Theorem appendStringValue_layout units dataPosition flag s :
  Forall (fun u => 0 <= u < 65536) units ->
  let utf8 := utf8_encode units in
  let n := Z.of_nat (length utf8) in
  0 <= dataPosition -> dataPosition + 2 + n <= byteLength (data s) ->
  exists s' : Store,
    appendStringValue dataPosition flag (JSString units) s = Normal (2 + n) s'
    /\ data s' = take (Z.to_nat dataPosition) (data s)
                 ++ (uint_bytes 2 n LITTLE_ENDIAN ++ utf8)
                 ++ drop (Z.to_nat (dataPosition + 2 + n)) (data s)
    /\ uint_value (take 2 (drop (Z.to_nat dataPosition) (data s'))) LITTLE_ENDIAN
       = n mod 65536
    /\ (byteLength (data s) <= 65537 -> n mod 65536 = n)
    /\ packetContext s' = committed flag (packetContext s).
Proof.
  intros Hunits utf8 n H0 H1.
  pose proof (utf8_encode_bytes units Hunits) as Hbytes. fold utf8 in Hbytes.
  set (bs := uint_bytes 2 n LITTLE_ENDIAN ++ utf8).
  assert (Hbs : Z.of_nat (length bs) = 2 + n).
  { unfold bs. rewrite length_app, length_uint_bytes, Nat2Z.inj_add. unfold n. lia. }
  pose proof H1 as H1'. unfold byteLength in H1'.
  exists (appended flag dataPosition bs s).
  assert (Hdata : data (appended flag dataPosition bs s)
                  = take (Z.to_nat dataPosition) (data s) ++ bs
                    ++ drop (Z.to_nat (dataPosition + 2 + n)) (data s)).
  { cbn [appended data]. unfold splice. do 3 f_equal. lia. }
  split; [| split; [exact Hdata | split; [| split; [| reflexivity]]]].
  - unfold appendStringValue. rewrite (bind_lift_Value _ true _ _ eq_refl).
    cbn [negb]. cbv zeta. cbn [TextEncoder_encode]. fold utf8. fold n.
    rewrite bind_byteLength_fits by lia.
    apply run_written_nil with dataPosition. do 2 write_step.
    rewrite (map_mod_256 utf8 Hbytes). reflexivity.
  - rewrite Hdata. unfold bs, n. apply uint16_prefix. lia.
  - intros Hsmall. apply Z.mod_small. unfold n in *. lia.
Qed.

Lemma appendStringValue_layout_witness :
  exists s' : Store,
    appendStringValue 0 7 (JSString [0x53; 0xE9; 0x20AC; 0xD83D; 0xDE00])
      (mkStore (repeat 0 12) emptyContext [])
    = Normal (2 + Z.of_nat (length (utf8_encode [0x53; 0xE9; 0x20AC; 0xD83D; 0xDE00]))) s'
    /\ data s' = take (Z.to_nat 0) (repeat 0 12)
                 ++ (uint_bytes 2
                       (Z.of_nat (length (utf8_encode [0x53; 0xE9; 0x20AC; 0xD83D; 0xDE00])))
                       LITTLE_ENDIAN
                     ++ utf8_encode [0x53; 0xE9; 0x20AC; 0xD83D; 0xDE00])
                 ++ drop (Z.to_nat
                            (0 + 2 + Z.of_nat (length (utf8_encode
                                                         [0x53; 0xE9; 0x20AC; 0xD83D; 0xDE00]))))
                      (repeat 0 12)
    /\ uint_value (take 2 (drop (Z.to_nat 0) (data s'))) LITTLE_ENDIAN
       = Z.of_nat (length (utf8_encode [0x53; 0xE9; 0x20AC; 0xD83D; 0xDE00])) mod 65536
    /\ (byteLength (repeat 0 12) <= 65537 ->
        Z.of_nat (length (utf8_encode [0x53; 0xE9; 0x20AC; 0xD83D; 0xDE00])) mod 65536
        = Z.of_nat (length (utf8_encode [0x53; 0xE9; 0x20AC; 0xD83D; 0xDE00])))
    /\ packetContext s' = committed 7 emptyContext.
Proof.
  apply (appendStringValue_layout [0x53; 0xE9; 0x20AC; 0xD83D; 0xDE00] 0 7
           (mkStore (repeat 0 12) emptyContext [])).
  - repeat constructor; lia.
  - lia.
  - vm_compute. discriminate.
Defined.

(** X16. [appendArrayBufferValue] writes the little-endian u16 length of the
    byte array and then its bytes.  The length is not checked against
    0xffff: the u16 holds it modulo 65536, and holds the length itself
    whenever the packet is at most 65537 bytes long. *)
Theorem appendArrayBufferValue_layout bytes dataPosition flag s :
  Forall (fun b => 0 <= b < 256) bytes ->
  let n := Z.of_nat (length bytes) in
  0 <= dataPosition -> dataPosition + 2 + n <= byteLength (data s) ->
  exists s' : Store,
    appendArrayBufferValue dataPosition flag (JSArrayBuffer bytes) s = Normal (2 + n) s'
    /\ data s' = take (Z.to_nat dataPosition) (data s)
                 ++ (uint_bytes 2 n LITTLE_ENDIAN ++ bytes)
                 ++ drop (Z.to_nat (dataPosition + 2 + n)) (data s)
    /\ uint_value (take 2 (drop (Z.to_nat dataPosition) (data s'))) LITTLE_ENDIAN
       = n mod 65536
    /\ (byteLength (data s) <= 65537 -> n mod 65536 = n)
    /\ packetContext s' = committed flag (packetContext s).
Proof.
  intros Hbytes n H0 H1.
  set (bs := uint_bytes 2 n LITTLE_ENDIAN ++ bytes).
  assert (Hbs : Z.of_nat (length bs) = 2 + n).
  { unfold bs. rewrite length_app, length_uint_bytes, Nat2Z.inj_add. unfold n. lia. }
  pose proof H1 as H1'. unfold byteLength in H1'.
  exists (appended flag dataPosition bs s).
  assert (Hdata : data (appended flag dataPosition bs s)
                  = take (Z.to_nat dataPosition) (data s) ++ bs
                    ++ drop (Z.to_nat (dataPosition + 2 + n)) (data s)).
  { cbn [appended data]. unfold splice. do 3 f_equal. lia. }
  split; [| split; [exact Hdata | split; [| split; [| reflexivity]]]].
  - unfold appendArrayBufferValue. rewrite (bind_lift_Value _ true _ _ eq_refl).
    cbn [negb]. cbv zeta. cbn [ArrayBuffer_bytes]. fold n.
    rewrite bind_byteLength_fits by lia.
    apply run_written_nil with dataPosition. do 2 write_step.
    rewrite (map_mod_256 bytes Hbytes). reflexivity.
  - rewrite Hdata. unfold bs, n. apply uint16_prefix. lia.
  - intros Hsmall. apply Z.mod_small. unfold n in *. lia.
Qed.

Lemma appendArrayBufferValue_layout_witness :
  exists s' : Store,
    appendArrayBufferValue 1 7 (JSArrayBuffer [1; 2; 255]) (mkStore (repeat 0 7) emptyContext [])
    = Normal (2 + Z.of_nat (length [1; 2; 255])) s'
    /\ data s' = take (Z.to_nat 1) (repeat 0 7)
                 ++ (uint_bytes 2 (Z.of_nat (length [1; 2; 255])) LITTLE_ENDIAN ++ [1; 2; 255])
                 ++ drop (Z.to_nat (1 + 2 + Z.of_nat (length [1; 2; 255]))) (repeat 0 7)
    /\ uint_value (take 2 (drop (Z.to_nat 1) (data s'))) LITTLE_ENDIAN
       = Z.of_nat (length [1; 2; 255]) mod 65536
    /\ (byteLength (repeat 0 7) <= 65537 ->
        Z.of_nat (length [1; 2; 255]) mod 65536 = Z.of_nat (length [1; 2; 255]))
    /\ packetContext s' = committed 7 emptyContext.
Proof.
  apply (appendArrayBufferValue_layout [1; 2; 255] 1 7 (mkStore (repeat 0 7) emptyContext [])).
  - repeat constructor; lia.
  - lia.
  - vm_compute. discriminate.
Defined.

(** ** ShapeEntityItem.readEntitySubclassDataFromBuffer *)

Lemma bind_Normal {S A B : Type} (m : M S A) (k : A -> M S B) s a s' :
  m s = Normal a s' -> (m ≫= k) s = k a s'.
Proof. intros E. unfold mbind, M_bind, bind. by rewrite E. Qed.

Lemma bind_Throw {S A B : Type} (m : M S A) (k : A -> M S B) s e s' :
  m s = Throw e s' -> (m ≫= k) s = Throw e s'.
Proof. intros E. unfold mbind, M_bind, bind. by rewrite E. Qed.

Lemma reading_Normal {A : Type} (m : M DataView A) data a d :
  m (viewed data) = Normal a d -> reading m data = Normal a data.
Proof. intros E. unfold reading. by rewrite E. Qed.

Lemma reading_Throw {A : Type} (m : M DataView A) data e d :
  m (viewed data) = Throw e d -> reading m data = Throw e data.
Proof. intros E. unfold reading. by rewrite E. Qed.

Lemma getUint8_in_view off (data : DataView) :
  0 <= off -> off + 1 <= byteLength data ->
  getUint8 off data = Normal (uint_value (take 1 (drop (Z.to_nat off) data)) true) data.
Proof.
  intros H0 H1. unfold getUint8, mbind, M_bind, bind, ret.
  by rewrite load_in_view by (simpl; lia).
Qed.

Lemma getUint16_in_view off le (data : DataView) :
  0 <= off -> off + 2 <= byteLength data ->
  getUint16 off le data = Normal (uint_value (take 2 (drop (Z.to_nat off) data)) le) data.
Proof.
  intros H0 H1. unfold getUint16, mbind, M_bind, bind, ret.
  by rewrite load_in_view by (simpl; lia).
Qed.

Lemma getFloat32_in_view off le (data : DataView) :
  0 <= off -> off + 4 <= byteLength data ->
  getFloat32 off le data
  = Normal (float64 (float32_of_bits (uint_value (take 4 (drop (Z.to_nat off) data)) le)))
      data.
Proof.
  intros H0 H1. unfold getFloat32, mbind, M_bind, bind, ret.
  by rewrite load_in_view by (simpl; lia).
Qed.

Lemma getUint8_out_of_view off (data : DataView) :
  off < 0 \/ byteLength data < off + 1 -> getUint8 off data = Throw RangeError data.
Proof.
  intros H. unfold getUint8, mbind, M_bind, bind.
  by rewrite load_out_of_view by (simpl; lia).
Qed.

Lemma getFloat32_out_of_view off le (data : DataView) :
  off < 0 \/ byteLength data < off + 4 -> getFloat32 off le data = Throw RangeError data.
Proof.
  intros H. unfold getFloat32, mbind, M_bind, bind.
  by rewrite load_out_of_view by (simpl; lia).
Qed.

Section ShapeEntityItemProofs.

Variables PROP_COLOR PROP_ALPHA PROP_SHAPE : Z.
Variable PulsePropertyGroup_readEntitySubclassDataFromBuffer :
  Z -> gset Z -> M BufferView Z.
Variable TextDecoder_decode : list Z -> JSValue.

Abbreviation readShape :=
  (ShapeEntityItem.readEntitySubclassDataFromBuffer PROP_COLOR PROP_ALPHA PROP_SHAPE
     PulsePropertyGroup_readEntitySubclassDataFromBuffer TextDecoder_decode).

Lemma uint_value_take_1 (data : DataView) (p : nat) :
  (p < length data)%nat -> uint_value (take 1 (drop p data)) true = nth p data 0.
Proof.
  intros H. rewrite <- (take_drop p data) at 2.
  rewrite app_nth2 by (rewrite length_take; lia).
  rewrite length_take, Nat.min_l, Nat.sub_diag by lia.
  destruct (drop p data) as [|b rest] eqn:E.
  - apply (f_equal length) in E. rewrite length_drop in E. simpl in E. lia.
  - unfold uint_value. cbn [take le_value nth]. rewrite take_0. cbn [le_value]. lia.
Qed.

(** The color, as the three [getUint8] calls read it at [p]. *)
Lemma read_color p data :
  0 <= p -> p + 3 <= byteLength (viewed data) ->
  (red ← reading (getUint8 p);
   green ← reading (getUint8 (p + 1));
   blue ← reading (getUint8 (p + 2));
   mret (JSObject [("red", JSNumber (num red)); ("green", JSNumber (num green));
                   ("blue", JSNumber (num blue))], p + 3)) data
  = Normal (colorAt (viewed data) p, p + 3) data.
Proof.
  intros H0 H1. pose proof H1 as H1'. unfold byteLength in H1'.
  rewrite (bind_Normal _ _ _ _ _
             (reading_Normal _ _ _ _ (getUint8_in_view p (viewed data) H0 ltac:(lia)))).
  rewrite (bind_Normal _ _ _ _ _
             (reading_Normal _ _ _ _
                (getUint8_in_view (p + 1) (viewed data) ltac:(lia) ltac:(lia)))).
  rewrite (bind_Normal _ _ _ _ _
             (reading_Normal _ _ _ _
                (getUint8_in_view (p + 2) (viewed data) ltac:(lia) ltac:(lia)))).
  rewrite !uint_value_take_1 by lia. reflexivity.
Qed.

Lemma Forall_viewed data :
  Forall (fun b => 0 <= b < 256) (buffer data) ->
  Forall (fun b => 0 <= b < 256) (viewed data).
Proof. intros H. unfold viewed. by apply Forall_take, Forall_drop. Qed.

(** The run of the reader when every field whose flag is set can be read. *)
Lemma readShape_fields position propertyFlags data pulseBytesRead length :
  let hasColor := getHasProperty PROP_COLOR propertyFlags in
  let hasAlpha := getHasProperty PROP_ALPHA propertyFlags in
  let hasShape := getHasProperty PROP_SHAPE propertyFlags in
  let alphaPosition := position + (if hasColor then 3 else 0) in
  let pulsePosition := alphaPosition + (if hasAlpha then 4 else 0) in
  let shapePosition := pulsePosition + pulseBytesRead in
  (hasColor = true -> 0 <= position /\ position + 3 <= byteLength (viewed data)) ->
  (hasAlpha = true -> 0 <= alphaPosition /\ alphaPosition + 4 <= byteLength (viewed data)) ->
  PulsePropertyGroup_readEntitySubclassDataFromBuffer pulsePosition propertyFlags data
    = Normal pulseBytesRead data ->
  (hasShape = true ->
   0 <= shapePosition /\ shapePosition + 2 <= byteLength (viewed data)
   /\ uint_value (take 2 (drop (Z.to_nat shapePosition) (viewed data))) LITTLE_ENDIAN
      = length
   /\ 0 <= length
   /\ 0 <= byteOffset data
   /\ byteOffset data + shapePosition + 2 + length <= Z.of_nat (List.length (buffer data))) ->
  readShape position propertyFlags data
  = Normal (ShapeEntityItem.mkShapeEntitySubclassData
              ((if hasColor then 3 else 0) + (if hasAlpha then 4 else 0)
               + pulseBytesRead + (if hasShape then 2 + length else 0))
              [("color", if hasColor then colorAt (viewed data) position else JSUndefined);
               ("alpha", if hasAlpha then float32At (viewed data) alphaPosition
                         else JSUndefined);
               ("shape", if hasShape && (0 <? length)
                         then TextDecoder_decode
                                (take (Z.to_nat length)
                                   (drop (Z.to_nat (byteOffset data + shapePosition + 2))
                                      (buffer data)))
                         else JSUndefined)]) data.
Proof.
  intros hasColor hasAlpha hasShape alphaPosition pulsePosition shapePosition
    Hcolor Halpha Hpulse Hshape.
  unfold ShapeEntityItem.readEntitySubclassDataFromBuffer. cbv zeta.
  fold hasColor hasAlpha hasShape.
  (* color *)
  assert (Ec : (if hasColor then
                  red ← reading (getUint8 position);
                  green ← reading (getUint8 (position + 1));
                  blue ← reading (getUint8 (position + 2));
                  mret (JSObject [("red", JSNumber (num red)); ("green", JSNumber (num green));
                                  ("blue", JSNumber (num blue))], position + 3)
                else mret (JSUndefined, position)) data
               = Normal (if hasColor then colorAt (viewed data) position else JSUndefined,
                         alphaPosition) data).
  { unfold alphaPosition. destruct hasColor.
    - destruct (Hcolor eq_refl) as [H0 H1]. by apply read_color.
    - by rewrite Z.add_0_r. }
  rewrite (bind_Normal _ _ _ _ _ Ec). cbv beta iota.
  (* alpha *)
  assert (Ea : (if hasAlpha then
                  alpha ← reading (getFloat32 alphaPosition LITTLE_ENDIAN);
                  mret (JSNumber alpha, alphaPosition + 4)
                else mret (JSUndefined, alphaPosition)) data
               = Normal (if hasAlpha then float32At (viewed data) alphaPosition
                         else JSUndefined, pulsePosition) data).
  { unfold pulsePosition. destruct hasAlpha.
    - destruct (Halpha eq_refl) as [H0 H1].
      rewrite (bind_Normal _ _ _ _ _
                 (reading_Normal _ _ _ _ (getFloat32_in_view alphaPosition _ _ H0 H1))).
      reflexivity.
    - by rewrite Z.add_0_r. }
  rewrite (bind_Normal _ _ _ _ _ Ea). cbv beta iota.
  (* pulse *)
  rewrite (bind_Normal _ _ _ _ _ Hpulse). fold shapePosition.
  (* shape *)
  assert (Es : (if hasShape then
                  length0 ← reading (getUint16 shapePosition LITTLE_ENDIAN);
                  if 0 <? length0 then
                    data0 ← gets (fun data0 => data0);
                    bytes ← lift (Uint8Array (buffer data0)
                                    (byteOffset data0 + (shapePosition + 2)) length0);
                    mret (TextDecoder_decode bytes, shapePosition + 2 + length0)
                  else mret (JSUndefined, shapePosition + 2)
                else mret (JSUndefined, shapePosition)) data
               = Normal (if hasShape && (0 <? length)
                         then TextDecoder_decode
                                (take (Z.to_nat length)
                                   (drop (Z.to_nat (byteOffset data + shapePosition + 2))
                                      (buffer data)))
                         else JSUndefined,
                         shapePosition + (if hasShape then 2 + length else 0)) data).
  { destruct hasShape; cbn [andb].
    - destruct (Hshape eq_refl) as (H0 & H1 & HL & Hnonneg & Hoff & Hbuf).
      rewrite (bind_Normal _ _ _ _ _
                 (reading_Normal _ _ _ _ (getUint16_in_view shapePosition _ _ H0 H1))).
      rewrite HL. destruct (Z.ltb_spec 0 length) as [Hpos | Hzero].
      + unfold gets, mbind, M_bind, bind, lift, Uint8Array.
        destruct (Z.leb_spec 0 (byteOffset data + (shapePosition + 2))); [| lia].
        destruct (Z.leb_spec 0 length); [| lia].
        destruct (Z.leb_spec (byteOffset data + (shapePosition + 2) + length)
                    (Z.of_nat (List.length (buffer data)))); [| lia].
        cbn [andb]. unfold mret, M_ret, ret.
        replace (byteOffset data + (shapePosition + 2))
          with (byteOffset data + shapePosition + 2) by lia.
        replace (shapePosition + 2 + length) with (shapePosition + (2 + length)) by lia.
        reflexivity.
      + assert (length = 0) as -> by lia.
        unfold mret, M_ret, ret. do 2 f_equal; lia.
    - unfold mret, M_ret, ret. do 2 f_equal; lia. }
  rewrite (bind_Normal _ _ _ _ _ Es). cbv beta iota.
  unfold mret, M_ret, ret. do 2 f_equal.
  unfold shapePosition, pulsePosition, alphaPosition. lia.
Qed.

(** X17. [ShapeEntityItem.readEntitySubclassDataFromBuffer] reads the fields
    whose flags are set, in the order color, alpha, pulse group, shape, and
    reports as [bytesRead] the sum of what they take: 3 bytes for the color, 4
    for alpha, what the pulse group reports, and for the shape 2 bytes plus
    the length these two bytes hold.  The color is the three bytes as numbers,
    alpha the binary32 value of the four bytes, the shape the decoded text; a
    property whose flag is not set is [undefined], and so is the shape when
    its length is 0.  The color, alpha and the length of the shape must lie in
    the view; the text of the shape is taken from the underlying buffer and
    need only lie in the buffer. *)
Theorem ShapeEntityItem_bytesRead position propertyFlags data pulseBytesRead length :
  let hasColor := getHasProperty PROP_COLOR propertyFlags in
  let hasAlpha := getHasProperty PROP_ALPHA propertyFlags in
  let hasShape := getHasProperty PROP_SHAPE propertyFlags in
  let alphaPosition := position + (if hasColor then 3 else 0) in
  let pulsePosition := alphaPosition + (if hasAlpha then 4 else 0) in
  let shapePosition := pulsePosition + pulseBytesRead in
  Forall (fun b => 0 <= b < 256) (buffer data) ->
  (hasColor = true -> 0 <= position /\ position + 3 <= byteLength (viewed data)) ->
  (hasAlpha = true -> 0 <= alphaPosition /\ alphaPosition + 4 <= byteLength (viewed data)) ->
  PulsePropertyGroup_readEntitySubclassDataFromBuffer pulsePosition propertyFlags data
    = Normal pulseBytesRead data ->
  (hasShape = true ->
   0 <= shapePosition /\ shapePosition + 2 <= byteLength (viewed data)
   /\ uint_value (take 2 (drop (Z.to_nat shapePosition) (viewed data))) LITTLE_ENDIAN
      = length
   /\ 0 <= byteOffset data
   /\ byteOffset data + shapePosition + 2 + length <= Z.of_nat (List.length (buffer data))) ->
  readShape position propertyFlags data
  = Normal (ShapeEntityItem.mkShapeEntitySubclassData
              ((if hasColor then 3 else 0) + (if hasAlpha then 4 else 0)
               + pulseBytesRead + (if hasShape then 2 + length else 0))
              [("color", if hasColor then colorAt (viewed data) position else JSUndefined);
               ("alpha", if hasAlpha then float32At (viewed data) alphaPosition
                         else JSUndefined);
               ("shape", if hasShape && (0 <? length)
                         then TextDecoder_decode
                                (take (Z.to_nat length)
                                   (drop (Z.to_nat (byteOffset data + shapePosition + 2))
                                      (buffer data)))
                         else JSUndefined)]) data.
Proof.
  intros hasColor hasAlpha hasShape alphaPosition pulsePosition shapePosition
    Hbytes Hcolor Halpha Hpulse Hshape.
  apply readShape_fields; try assumption.
  intros Hs. destruct (Hshape Hs) as (H0 & H1 & HL & Hoff & Hbuf).
  repeat split; try assumption.
  rewrite <- HL. apply uint_value_range. apply Forall_take, Forall_drop.
  by apply Forall_viewed.
Qed.

(** X18. The reader raises [RangeError], and returns nothing, when the color
    is flagged and its three bytes do not lie in the view, and when alpha is
    flagged and its four bytes, after the color, do not lie in the view. *)
Theorem ShapeEntityItem_out_of_view position propertyFlags data :
  let hasColor := getHasProperty PROP_COLOR propertyFlags in
  let hasAlpha := getHasProperty PROP_ALPHA propertyFlags in
  let alphaPosition := position + (if hasColor then 3 else 0) in
  (hasColor = true /\ (position < 0 \/ byteLength (viewed data) < position + 3))
  \/ (hasAlpha = true
      /\ (alphaPosition < 0 \/ byteLength (viewed data) < alphaPosition + 4)) ->
  readShape position propertyFlags data = Throw RangeError data.
Proof.
  intros hasColor hasAlpha alphaPosition H.
  unfold ShapeEntityItem.readEntitySubclassDataFromBuffer. cbv zeta.
  fold hasColor hasAlpha.
  assert (Hc : hasColor = true ->
               position < 0 \/ byteLength (viewed data) < position + 3 ->
               forall k : JSValue * Z -> M BufferView ShapeEntityItem.ShapeEntitySubclassData,
                 ((red ← reading (getUint8 position);
                   green ← reading (getUint8 (position + 1));
                   blue ← reading (getUint8 (position + 2));
                   mret (JSObject [("red", JSNumber (num red));
                                   ("green", JSNumber (num green));
                                   ("blue", JSNumber (num blue))], position + 3)) ≫= k) data
                 = Throw RangeError data).
  { intros _ Hout k. apply bind_Throw.
    destruct (Z_lt_le_dec position 0) as [Hneg | Hpos].
    { apply bind_Throw. eapply reading_Throw. apply getUint8_out_of_view. lia. }
    destruct (Z_lt_le_dec (byteLength (viewed data)) (position + 1)) as [H1 | H1].
    { apply bind_Throw. eapply reading_Throw. apply getUint8_out_of_view. lia. }
    rewrite (bind_Normal _ _ _ _ _
               (reading_Normal _ _ _ _
                  (getUint8_in_view position (viewed data) Hpos H1))).
    destruct (Z_lt_le_dec (byteLength (viewed data)) (position + 2)) as [H2 | H2].
    { apply bind_Throw. eapply reading_Throw. apply getUint8_out_of_view. lia. }
    rewrite (bind_Normal _ _ _ _ _
               (reading_Normal _ _ _ _
                  (getUint8_in_view (position + 1) (viewed data) ltac:(lia) ltac:(lia)))).
    apply bind_Throw. eapply reading_Throw. apply getUint8_out_of_view. lia. }
  destruct (Z_lt_le_dec position 0) as [Hneg | Hpos].
  { destruct hasColor eqn:Ecolor.
    - apply Hc; [reflexivity | lia].
    - destruct H as [[? _] | [Ha Hout]]; [discriminate |]. rewrite Ha.
      unfold alphaPosition in Hout.
      rewrite (bind_Normal _ _ _ (JSUndefined, position) data eq_refl). cbv beta iota.
      apply bind_Throw, bind_Throw. eapply reading_Throw.
      apply getFloat32_out_of_view. lia. }
  destruct hasColor eqn:Ecolor.
  - destruct (Z_lt_le_dec (byteLength (viewed data)) (position + 3)) as [H3 | H3].
    + apply Hc; [reflexivity | lia].
    + destruct H as [[_ ?] | [Ha Hout]]; [lia |]. rewrite Ha.
      rewrite (bind_Normal _ _ _ _ _ (read_color position data Hpos H3)). cbv beta iota.
      apply bind_Throw, bind_Throw. eapply reading_Throw.
      apply getFloat32_out_of_view. exact Hout.
  - destruct H as [[? _] | [Ha Hout]]; [discriminate |]. rewrite Ha.
    unfold alphaPosition in Hout.
    rewrite (bind_Normal _ _ _ (JSUndefined, position) data eq_refl). cbv beta iota.
    apply bind_Throw, bind_Throw. eapply reading_Throw.
    apply getFloat32_out_of_view. lia.
Qed.

End ShapeEntityItemProofs.

Lemma truncate_num_byte k : 0 <= k < 256 -> truncate (num k) = k.
Proof.
  intros Hk.
  assert (H : forallb (fun k => truncate (num k) =? k) (seqZ 0 256) = true)
    by (vm_compute; reflexivity).
  rewrite forallb_forall in H. apply Z.eqb_eq, H.
  apply list_elem_of_In, elem_of_seqZ. lia.
Qed.

Lemma nth_splice (data : DataView) (off i : nat) bs :
  (off + length bs <= length data)%nat -> (i < length bs)%nat ->
  nth (off + i) (splice off bs data) 0 = nth i bs 0.
Proof.
  intros H Hi. unfold splice.
  rewrite app_nth2 by (rewrite length_take; lia).
  rewrite length_take, Nat.min_l by lia.
  replace (off + i - off)%nat with i by lia.
  by rewrite app_nth1 by lia.
Qed.

(** Bytes inside the view are those of the buffer. *)
Lemma take_drop_viewed data p n :
  0 <= byteOffset data -> 0 <= p -> 0 <= n -> p + n <= viewLength data ->
  take (Z.to_nat n) (drop (Z.to_nat (byteOffset data + p)) (buffer data))
  = take (Z.to_nat n) (drop (Z.to_nat p) (viewed data)).
Proof.
  intros Hoff Hp Hn Hfit. unfold viewed.
  rewrite (take_drop_commute (take _ _) (Z.to_nat n) (Z.to_nat p)).
  rewrite take_take, Nat.min_l by lia.
  rewrite <- take_drop_commute, drop_drop. do 2 f_equal. lia.
Qed.

Section ShapeRoundTrips.

Variables PROP_COLOR PROP_ALPHA PROP_SHAPE : Z.
Variable PulsePropertyGroup_readEntitySubclassDataFromBuffer :
  Z -> gset Z -> M BufferView Z.
Variable TextDecoder_decode : list Z -> JSValue.

Abbreviation readShape :=
  (ShapeEntityItem.readEntitySubclassDataFromBuffer PROP_COLOR PROP_ALPHA PROP_SHAPE
     PulsePropertyGroup_readEntitySubclassDataFromBuffer TextDecoder_decode).

(** X19. A color written by [appendColorValue] is read back by the Shape
    reader: for integer components from 0 to 255, reading at the position of
    the color, with the color flag set and no other field present, returns
    the same color and 3 as [bytesRead]. *)
Theorem appendColorValue_read_back red green blue dataPosition flag s :
  0 <= red < 256 -> 0 <= green < 256 -> 0 <= blue < 256 ->
  0 <= dataPosition -> dataPosition + 3 <= byteLength (data s) ->
  exists s' : Store,
    appendColorValue dataPosition flag (colorOf (num red) (num green) (num blue)) s
    = Normal 3 s'
    /\ forall (view : BufferView) (propertyFlags : gset Z),
         viewed view = data s' ->
         getHasProperty PROP_COLOR propertyFlags = true ->
         getHasProperty PROP_ALPHA propertyFlags = false ->
         getHasProperty PROP_SHAPE propertyFlags = false ->
         PulsePropertyGroup_readEntitySubclassDataFromBuffer (dataPosition + 3)
           propertyFlags view = Normal 0 view ->
         readShape dataPosition propertyFlags view
         = Normal (ShapeEntityItem.mkShapeEntitySubclassData 3
                     [("color", colorOf (num red) (num green) (num blue));
                      ("alpha", JSUndefined); ("shape", JSUndefined)]) view.
Proof.
  intros Hr Hg Hb H0 H1. pose proof H1 as H1'. unfold byteLength in H1'.
  exists (appended flag dataPosition [red; green; blue] s).
  split.
  - unfold appendColorValue. rewrite (bind_lift_Value _ true _ _ eq_refl).
    cbn [negb]. cbv zeta. rewrite bind_byteLength_fits by lia.
    apply run_written_nil with dataPosition.
    change ((colorOf (num red) (num green) (num blue))#"red") with (Value (JSNumber (num red))).
    change ((colorOf (num red) (num green) (num blue))#"green")
      with (Value (JSNumber (num green))).
    change ((colorOf (num red) (num green) (num blue))#"blue")
      with (Value (JSNumber (num blue))).
    do 3 write_step. cbn [ToNumber]. rewrite !truncate_num_byte by assumption.
    rewrite !uint_bytes_1, !Z.mod_small by assumption. reflexivity.
  - intros view propertyFlags Hview Hcolor Halpha Hshape Hpulse.
    cbn [appended data] in Hview.
    pose proof (readShape_fields PROP_COLOR PROP_ALPHA PROP_SHAPE
                  PulsePropertyGroup_readEntitySubclassDataFromBuffer TextDecoder_decode
                  dataPosition propertyFlags view 0 0) as Hrun.
    cbv zeta in Hrun. rewrite Hcolor, Halpha, Hshape in Hrun.
    rewrite Z.add_0_r in Hrun.
    rewrite Hrun; clear Hrun.
    + cbn [andb]. do 4 f_equal. unfold colorAt. rewrite Hview.
      replace (Z.to_nat dataPosition) with (Z.to_nat dataPosition + 0)%nat at 1 by lia.
      replace (Z.to_nat (dataPosition + 1)) with (Z.to_nat dataPosition + 1)%nat by lia.
      replace (Z.to_nat (dataPosition + 2)) with (Z.to_nat dataPosition + 2)%nat by lia.
      rewrite !nth_splice by (simpl; lia). reflexivity.
    + intros _. rewrite Hview, byteLength_splice by (simpl; lia). lia.
    + intros ?; discriminate.
    + exact Hpulse.
    + intros ?; discriminate.
Qed.

(** X20. A string written by [appendStringValue] is read back by the Shape
    reader: with the shape flag set and no other field present, the reader
    hands the decoder exactly the UTF-8 bytes that the appender wrote and
    reports as [bytesRead] the count the appender returned.  The empty string
    is the exception: written as the length 0, it is read back as
    [undefined]. *)
Theorem appendStringValue_read_back units dataPosition flag s :
  Forall (fun u => 0 <= u < 65536) units ->
  let utf8 := utf8_encode units in
  let n := Z.of_nat (length utf8) in
  n <= 0xffff ->
  0 <= dataPosition -> dataPosition + 2 + n <= byteLength (data s) ->
  exists s' : Store,
    appendStringValue dataPosition flag (JSString units) s = Normal (2 + n) s'
    /\ forall (view : BufferView) (propertyFlags : gset Z),
         inside_buffer view -> viewed view = data s' ->
         getHasProperty PROP_COLOR propertyFlags = false ->
         getHasProperty PROP_ALPHA propertyFlags = false ->
         getHasProperty PROP_SHAPE propertyFlags = true ->
         PulsePropertyGroup_readEntitySubclassDataFromBuffer dataPosition
           propertyFlags view = Normal 0 view ->
         readShape dataPosition propertyFlags view
         = Normal (ShapeEntityItem.mkShapeEntitySubclassData (2 + n)
                     [("color", JSUndefined); ("alpha", JSUndefined);
                      ("shape", if 0 <? n then TextDecoder_decode utf8
                                else JSUndefined)]) view.
Proof.
  intros Hunits utf8 n Hn H0 H1. pose proof H1 as H1'. unfold byteLength in H1'.
  pose proof (utf8_encode_bytes units Hunits) as Hbytes. fold utf8 in Hbytes.
  set (bs := uint_bytes 2 n LITTLE_ENDIAN ++ utf8).
  assert (Hbs : Z.of_nat (length bs) = 2 + n).
  { unfold bs. rewrite length_app, length_uint_bytes, Nat2Z.inj_add. unfold n. lia. }
  exists (appended flag dataPosition bs s).
  split.
  - unfold appendStringValue. rewrite (bind_lift_Value _ true _ _ eq_refl).
    cbn [negb]. cbv zeta. cbn [TextEncoder_encode]. fold utf8. fold n.
    rewrite bind_byteLength_fits by lia.
    apply run_written_nil with dataPosition. do 2 write_step.
    rewrite (map_mod_256 utf8 Hbytes). reflexivity.
  - intros view propertyFlags (Hoff & Hvl & Hin) Hview Hcolor Halpha Hshape Hpulse.
    cbn [appended data] in Hview.
    assert (Hlenv : byteLength (viewed view) = byteLength (data s)).
    { rewrite Hview. apply byteLength_splice. lia. }
    assert (Hvl' : byteLength (viewed view) <= viewLength view).
    { unfold byteLength, viewed. rewrite length_take. lia. }
    pose proof (readShape_fields PROP_COLOR PROP_ALPHA PROP_SHAPE
                  PulsePropertyGroup_readEntitySubclassDataFromBuffer TextDecoder_decode
                  dataPosition propertyFlags view 0 n) as Hrun.
    cbv zeta in Hrun. rewrite Hcolor, Halpha, Hshape in Hrun.
    rewrite !Z.add_0_r in Hrun.
    assert (Hprefix : take 2 (drop (Z.to_nat dataPosition) (viewed view))
                      = uint_bytes 2 n LITTLE_ENDIAN).
    { rewrite Hview, drop_splice_start by lia. unfold bs. rewrite <- app_assoc.
      apply take_app_length'. by rewrite length_uint_bytes. }
    rewrite Hrun; clear Hrun.
    + cbn [andb]. do 4 f_equal.
      destruct (Z.ltb_spec 0 n); [| reflexivity].
      replace (byteOffset view + dataPosition + 2)
        with (byteOffset view + (dataPosition + 2)) by lia.
      rewrite take_drop_viewed by lia.
      rewrite Hview.
      replace (Z.to_nat (dataPosition + 2))
        with (Z.to_nat dataPosition + length (uint_bytes 2 n LITTLE_ENDIAN))%nat
        by (rewrite length_uint_bytes; lia).
      unfold n at 1. rewrite Nat2Z.id. unfold bs.
      rewrite <- (app_nil_r utf8) at 2. rewrite take_drop_splice by lia. reflexivity.
    + intros ?; discriminate.
    + intros ?; discriminate.
    + exact Hpulse.
    + intros _. rewrite Hprefix, uint_value_uint_bytes.
      rewrite Z.mod_small by (change (2 ^ (8 * Z.of_nat 2)) with 65536; unfold n in *; lia).
      unfold n in *. repeat split; lia.
Qed.

End ShapeRoundTrips.

Lemma ShapeEntityItem_bytesRead_witness :
  ShapeEntityItem.readEntitySubclassDataFromBuffer 1 2 3 noPulse asciiDecode 0 {[1; 2; 3]}
    testShapeView
  = Normal (ShapeEntityItem.mkShapeEntitySubclassData 13
              [("color", testColor); ("alpha", JSNumber (num 15));
               ("shape", JSString [67; 117; 98; 101])]) testShapeView.
Proof.
  refine (eq_trans
            (ShapeEntityItem_bytesRead 1 2 3 noPulse asciiDecode 0 {[1; 2; 3]}
               testShapeView 0 4 _ _ _ _ _) _).
  - repeat constructor; lia.
  - intros _. vm_compute. split; discriminate.
  - intros _. vm_compute. split; discriminate.
  - reflexivity.
  - intros _. vm_compute. repeat split; discriminate.
  - vm_compute. reflexivity.
Defined.

Lemma ShapeEntityItem_out_of_view_witness :
  ShapeEntityItem.readEntitySubclassDataFromBuffer 1 2 3 noPulse asciiDecode 0 {[1]}
    (viewOf [240; 37])
  = Throw RangeError (viewOf [240; 37]).
Proof.
  apply (ShapeEntityItem_out_of_view 1 2 3 noPulse asciiDecode 0 {[1]} (viewOf [240; 37])).
  left. split; [reflexivity | right; vm_compute; reflexivity].
Defined.

Lemma appendColorValue_read_back_witness :
  exists s' : Store,
    appendColorValue 1 7 (colorOf (num 240) (num 37) (num 148)) testStore = Normal 3 s'
    /\ forall (view : BufferView) (propertyFlags : gset Z),
         viewed view = data s' ->
         getHasProperty 1 propertyFlags = true ->
         getHasProperty 2 propertyFlags = false ->
         getHasProperty 3 propertyFlags = false ->
         noPulse (1 + 3) propertyFlags view = Normal 0 view ->
         ShapeEntityItem.readEntitySubclassDataFromBuffer 1 2 3 noPulse asciiDecode 1
           propertyFlags view
         = Normal (ShapeEntityItem.mkShapeEntitySubclassData 3
                     [("color", colorOf (num 240) (num 37) (num 148));
                      ("alpha", JSUndefined); ("shape", JSUndefined)]) view.
Proof.
  apply (appendColorValue_read_back 1 2 3 noPulse asciiDecode 240 37 148 1 7 testStore);
    [lia | lia | lia | lia | vm_compute; discriminate].
Defined.

Lemma appendStringValue_read_back_witness :
  exists s' : Store,
    appendStringValue 0 7 (JSString [67; 117; 98; 101])
      (mkStore (repeat 0 6) emptyContext [])
    = Normal (2 + Z.of_nat (length (utf8_encode [67; 117; 98; 101]))) s'
    /\ forall (view : BufferView) (propertyFlags : gset Z),
         inside_buffer view -> viewed view = data s' ->
         getHasProperty 1 propertyFlags = false ->
         getHasProperty 2 propertyFlags = false ->
         getHasProperty 3 propertyFlags = true ->
         noPulse 0 propertyFlags view = Normal 0 view ->
         ShapeEntityItem.readEntitySubclassDataFromBuffer 1 2 3 noPulse asciiDecode 0
           propertyFlags view
         = Normal (ShapeEntityItem.mkShapeEntitySubclassData
                     (2 + Z.of_nat (length (utf8_encode [67; 117; 98; 101])))
                     [("color", JSUndefined); ("alpha", JSUndefined);
                      ("shape", if 0 <? Z.of_nat (length (utf8_encode [67; 117; 98; 101]))
                                then asciiDecode (utf8_encode [67; 117; 98; 101])
                                else JSUndefined)]) view.
Proof.
  apply (appendStringValue_read_back 1 2 3 noPulse asciiDecode [67; 117; 98; 101] 0 7
           (mkStore (repeat 0 6) emptyContext [])).
  - repeat constructor; lia.
  - vm_compute. discriminate.
  - lia.
  - vm_compute. discriminate.
Defined.

(** ** RingGizmoPropertyGroup: how many bytes at most *)

Lemma presentFieldBytes_bounds (fields : list (Z * Z)) (propertyFlags : gset Z) :
  Forall (fun field => 0 <= field.2) fields ->
  0 <= presentFieldBytes fields propertyFlags <= foldr (fun field total => field.2 + total) 0 fields
  /\ ((forall field, In field fields -> getHasProperty field.1 propertyFlags = false) ->
      presentFieldBytes fields propertyFlags = 0)
  /\ ((forall field, In field fields -> getHasProperty field.1 propertyFlags = true) ->
      presentFieldBytes fields propertyFlags
      = foldr (fun field total => field.2 + total) 0 fields).
Proof.
  induction 1 as [|field fields Hf _ IH]; [simpl; repeat split; lia |].
  destruct IH as (IH1 & IH2 & IH3).
  unfold presentFieldBytes in *. cbn [foldr].
  split; [destruct (getHasProperty field.1 propertyFlags); lia |]. split.
  - intros Hnone. rewrite (Hnone field) by (by left).
    rewrite IH2; [lia |]. intros f Hin. apply Hnone. by right.
  - intros Hall. rewrite (Hall field) by (by left).
    rewrite IH3; [lia |]. intros f Hin. apply Hall. by right.
Qed.

(** X21. The ring-gizmo reader skips at most 63 bytes: its [bytesRead] lies
    between 0 and 63 whatever the flags, is 0 when no ring-gizmo flag is set
    and 63 when all 18 are.  The view is not consulted: the position plus
    [bytesRead] may lie beyond its end. *)
Theorem RingGizmoPropertyGroup_bytesRead_bounds
    (EntityPropertyList : RingGizmoPropertyList) (data : DataView) (position : Z)
    (propertyFlags : gset Z) :
  exists n : Z,
    readEntitySubclassDataFromBuffer EntityPropertyList position propertyFlags data
    = Normal (mkSubclassData n []) data
    /\ 0 <= n <= 63
    /\ ((forall field, In field (ringGizmoFields EntityPropertyList) ->
           getHasProperty field.1 propertyFlags = false) -> n = 0)
    /\ ((forall field, In field (ringGizmoFields EntityPropertyList) ->
           getHasProperty field.1 propertyFlags = true) -> n = 63).
Proof.
  exists (presentFieldBytes (ringGizmoFields EntityPropertyList) propertyFlags).
  split.
  - rewrite <- (Z.add_simpl_l position
                  (presentFieldBytes (ringGizmoFields EntityPropertyList) propertyFlags)).
    rewrite <- foldl_fields. reflexivity.
  - apply (presentFieldBytes_bounds (ringGizmoFields EntityPropertyList) propertyFlags).
    repeat constructor; cbn; lia.
Qed.

(** ** Appenders that check types only, and appenders of floats *)

Section MoreAppenders.

Variable packedQuat : JSValue -> Z.

(** X22. [appendColorValue] and [appendRectValue] check only that the
    components are numbers.  Every color and every rect with numeric
    components that fits is written: each component of a color as its integer
    part modulo 256, each component of a rect as its integer part modulo
    [2^32], little-endian, with NaN and the infinities written as 0. *)
Theorem append_unchecked_numbers dataPosition flag s :
  0 <= dataPosition ->
  (forall red green blue,
     dataPosition + 3 <= byteLength (data s) ->
     appendColorValue dataPosition flag (colorOf red green blue) s
     = Normal 3 (appended flag dataPosition
                   [truncate red mod 256; truncate green mod 256; truncate blue mod 256] s))
  /\ (forall x y width height,
        dataPosition + 16 <= byteLength (data s) ->
        appendRectValue dataPosition flag (rectOf x y width height) s
        = Normal 16 (appended flag dataPosition
                       (uint_bytes 4 (truncate x) LITTLE_ENDIAN
                        ++ uint_bytes 4 (truncate y) LITTLE_ENDIAN
                        ++ uint_bytes 4 (truncate width) LITTLE_ENDIAN
                        ++ uint_bytes 4 (truncate height) LITTLE_ENDIAN) s))
  /\ truncate S754_nan = 0 /\ truncate (S754_infinity false) = 0
  /\ truncate (S754_infinity true) = 0.
Proof.
  intros H0. split; [| split; [| by repeat split]].
  - intros red green blue H1.
    unfold appendColorValue. rewrite (bind_lift_Value _ true _ _ eq_refl).
    cbn [negb]. cbv zeta. rewrite bind_byteLength_fits by lia.
    apply run_written_nil with dataPosition.
    change ((colorOf red green blue)#"red") with (Value (JSNumber red)).
    change ((colorOf red green blue)#"green") with (Value (JSNumber green)).
    change ((colorOf red green blue)#"blue") with (Value (JSNumber blue)).
    do 3 write_step. reflexivity.
  - intros x y width height H1.
    unfold appendRectValue. rewrite (bind_lift_Value _ true _ _ eq_refl).
    cbn [negb]. cbv zeta. rewrite bind_byteLength_fits by lia.
    apply run_written_nil with dataPosition.
    change ((rectOf x y width height)#"x") with (Value (JSNumber x)).
    change ((rectOf x y width height)#"y") with (Value (JSNumber y)).
    change ((rectOf x y width height)#"width") with (Value (JSNumber width)).
    change ((rectOf x y width height)#"height") with (Value (JSNumber height)).
    do 4 write_step. cbn [ToNumber]. by rewrite <- !app_assoc.
Qed.

Lemma validAACubeValue_numbers x y z scale :
  validAACubeValue (aaCubeOf x y z scale)
  = Value (inFloat32Range x && inFloat32Range y && inFloat32Range z
           && SFleb (num 0) scale && SFleb scale MAX_FLOAT32).
Proof.
  unfold validAACubeValue, inFloat32Range, typeof_is, le, lit, var, and_then, member, aaCubeOf.
  cbn [mbind Completion_bind get lookup_prop String.eqb Ascii.eqb Bool.eqb typeof mret
       Completion_ret js_leb].
  destruct (SFleb (SFopp MAX_FLOAT32) x); [| reflexivity].
  destruct (SFleb x MAX_FLOAT32); [| reflexivity].
  destruct (SFleb (SFopp MAX_FLOAT32) y); [| reflexivity].
  destruct (SFleb y MAX_FLOAT32); [| reflexivity].
  destruct (SFleb (SFopp MAX_FLOAT32) z); [| reflexivity].
  destruct (SFleb z MAX_FLOAT32); [| reflexivity].
  destruct (SFleb (num 0) scale); [| reflexivity].
  destruct (SFleb scale MAX_FLOAT32); reflexivity.
Qed.

Lemma inFloat32Range_finite x : inFloat32Range x = true -> isFinite x = true.
Proof.
  unfold inFloat32Range. rewrite MAX_FLOAT32_eq.
  destruct x as [s | [|] | | s m e]; try reflexivity; intros H.
  - apply andb_true_iff in H as [H _]. discriminate.
  - apply andb_true_iff in H as [_ H]. discriminate.
  - discriminate.
Qed.

(** X23. [appendAACubeValue] accepts exactly the cubes whose corner
    coordinates lie between [-3.4028235e38] and [3.4028235e38] and whose
    scale lies between 0 and [3.4028235e38]: NaN, an infinity or a negative
    scale makes the cube invalid (the error is logged, 0 is returned, nothing
    else changes), and an accepted cube that fits is written as the binary32
    values of [corner.x], [corner.y], [corner.z] and [scale], little-endian. *)
Theorem appendAACubeValue_finite_only x y z scale dataPosition flag s :
  let accepted := inFloat32Range x && inFloat32Range y && inFloat32Range z
                  && SFleb (num 0) scale && SFleb scale MAX_FLOAT32 in
  (accepted = true ->
   isFinite x = true /\ isFinite y = true /\ isFinite z = true /\ isFinite scale = true)
  /\ (SFltb scale (num 0) = true -> accepted = false)
  /\ (accepted = false ->
      appendAACubeValue dataPosition flag (aaCubeOf x y z scale) s
      = Normal 0 (logged "[EntityServer] Cannot write invalid AACube value to packet!" s))
  /\ (accepted = true ->
      0 <= dataPosition -> dataPosition + 16 <= byteLength (data s) ->
      appendAACubeValue dataPosition flag (aaCubeOf x y z scale) s
      = Normal 16 (appended flag dataPosition
                     (uint_bytes 4 (float32_bits x) LITTLE_ENDIAN
                      ++ uint_bytes 4 (float32_bits y) LITTLE_ENDIAN
                      ++ uint_bytes 4 (float32_bits z) LITTLE_ENDIAN
                      ++ uint_bytes 4 (float32_bits scale) LITTLE_ENDIAN) s)).
Proof.
  intros accepted.
  pose proof (validAACubeValue_numbers x y z scale) as Hv. fold accepted in Hv.
  split; [| split; [| split]].
  - intros Hacc. unfold accepted in Hacc.
    apply andb_true_iff in Hacc as [Hacc Hs2]. apply andb_true_iff in Hacc as [Hacc Hs1].
    apply andb_true_iff in Hacc as [Hacc Hz]. apply andb_true_iff in Hacc as [Hx Hy].
    clear Hv. repeat split; try (apply inFloat32Range_finite; assumption).
    rewrite MAX_FLOAT32_eq in Hs2. change (num 0) with (S754_zero false) in Hs1.
    clear -Hs1 Hs2. destruct scale as [? | [|] | | ? ? ?]; try reflexivity; discriminate.
  - intros Hneg. clear Hv. unfold accepted. clear accepted.
    change (num 0) with (S754_zero false) in *.
    assert (Hs : SFleb (S754_zero false) scale = false).
    { clear -Hneg. destruct scale as [? | [|] | | [|] ? ?]; try discriminate; reflexivity. }
    rewrite Hs. rewrite andb_false_r. reflexivity.
  - intros Hacc. rewrite Hacc in Hv.
    unfold appendAACubeValue. by rewrite (bind_lift_Value _ _ _ _ Hv).
  - intros Hacc H0 H1. rewrite Hacc in Hv.
    unfold appendAACubeValue. rewrite (bind_lift_Value _ _ _ _ Hv).
    cbn [negb]. cbv zeta. rewrite bind_byteLength_fits by lia.
    apply run_written_nil with dataPosition.
    change ((aaCubeOf x y z scale)#"corner"#"x") with (Value (JSNumber x)).
    change ((aaCubeOf x y z scale)#"corner"#"y") with (Value (JSNumber y)).
    change ((aaCubeOf x y z scale)#"corner"#"z") with (Value (JSNumber z)).
    change ((aaCubeOf x y z scale)#"scale") with (Value (JSNumber scale)).
    do 4 write_step. cbn [ToNumber]. by rewrite <- !app_assoc.
Qed.

End MoreAppenders.

Lemma append_unchecked_numbers_witness :
  appendColorValue 0 7 (colorOf (num 300) S754_nan (S754_finite true 1 0)) testStore
  = Normal 3 (appended 7 0 [44; 0; 255] testStore).
Proof.
  destruct (append_unchecked_numbers 0 7 testStore ltac:(lia)) as [Hcolor _].
  apply (Hcolor (num 300) S754_nan (S754_finite true 1 0)).
  vm_compute. discriminate.
Defined.

Lemma appendAACubeValue_finite_only_witness :
  appendAACubeValue 0 7 (aaCubeOf (num 1) (num 2) (num 3) (S754_finite true 1 0)) testStore
  = Normal 0 (logged "[EntityServer] Cannot write invalid AACube value to packet!" testStore)
  /\ appendAACubeValue 0 7 (aaCubeOf (num 1) (num 2) (num 3) (num 4))
       (mkStore (repeat 0 16) emptyContext [])
     = Normal 16 (appended 7 0
                    [0; 0; 128; 63; 0; 0; 0; 64; 0; 0; 64; 64; 0; 0; 128; 64]
                    (mkStore (repeat 0 16) emptyContext [])).
Proof.
  split.
  - pose proof (appendAACubeValue_finite_only (num 1) (num 2) (num 3)
                  (S754_finite true 1 0) 0 7 testStore) as H.
    cbv zeta in H. destruct H as (_ & Hneg & Hrejected & _).
    apply Hrejected, Hneg. vm_compute. reflexivity.
  - pose proof (appendAACubeValue_finite_only (num 1) (num 2) (num 3) (num 4) 0 7
                  (mkStore (repeat 0 16) emptyContext [])) as H.
    cbv zeta in H. destruct H as (_ & _ & _ & Haccepted).
    rewrite Haccepted; [reflexivity | vm_compute; reflexivity | lia | vm_compute; discriminate].
Defined.

(** ** Rounding to binary32 and the IEEE-754 encoding *)

Lemma digits2_pos_lower m : 2 ^ (Zpos (digits2_pos m) - 1) <= Zpos m.
Proof.
  induction m as [m IH | m IH |]; cbn [digits2_pos]; [| | simpl; lia].
  all: rewrite Pos2Z.inj_succ;
    replace (Z.succ (Zpos (digits2_pos m)) - 1) with (Z.succ (Zpos (digits2_pos m) - 1))
      by lia;
    rewrite Z.pow_succ_r by lia; lia.
Qed.

(** The number of binary digits of a positive number is determined by the
    powers of 2 around it. *)
Lemma digits2_pos_unique m d :
  2 ^ (d - 1) <= Zpos m < 2 ^ d -> 0 < d -> Zpos (digits2_pos m) = d.
Proof.
  intros [Hlo Hhi] Hd.
  pose proof (digits2_pos_bound m) as Hb. pose proof (digits2_pos_lower m) as Hl.
  destruct (Z.lt_trichotomy (Zpos (digits2_pos m)) d) as [Hlt | [Heq | Hgt]];
    [| exact Heq |]; exfalso.
  - assert (2 ^ Zpos (digits2_pos m) <= 2 ^ (d - 1)) by (apply Z.pow_le_mono_r; lia). lia.
  - assert (2 ^ d <= 2 ^ (Zpos (digits2_pos m) - 1)) by (apply Z.pow_le_mono_r; lia). lia.
Qed.

Lemma Zdigits2_nonneg m : 0 <= Zdigits2 m.
Proof. destruct m; simpl; lia. Qed.

Lemma Zdigits2_le m n : 0 < m <= n -> Zdigits2 m <= Zdigits2 n.
Proof.
  intros [Hm Hmn]. destruct m as [|m|m]; try lia. destruct n as [|n|n]; try lia.
  cbn [Zdigits2].
  pose proof (digits2_pos_bound n) as Hb. pose proof (digits2_pos_lower m) as Hl.
  destruct (Z_lt_le_dec (Zpos (digits2_pos n)) (Zpos (digits2_pos m))) as [Hlt |]; [| lia].
  exfalso.
  assert (2 ^ Zpos (digits2_pos n) <= 2 ^ (Zpos (digits2_pos m) - 1))
    by (apply Z.pow_le_mono_r; lia).
  lia.
Qed.

Lemma Zdigits2_div_pow2 m k q :
  0 <= k -> Zpos m / 2 ^ k = Zpos q -> Zpos (digits2_pos q) = Zpos (digits2_pos m) - k.
Proof.
  intros Hk Hq.
  pose proof (digits2_pos_bound m) as Hb. pose proof (digits2_pos_lower m) as Hl.
  assert (Hpow : 0 < 2 ^ k) by (apply Z.pow_pos_nonneg; lia).
  assert (Hge : 2 ^ k <= Zpos m).
  { destruct (Z_lt_le_dec (Zpos m) (2 ^ k)) as [Hlt |]; [| lia].
    rewrite Z.div_small in Hq by lia. discriminate. }
  assert (Hkd : k < Zpos (digits2_pos m)).
  { destruct (Z_lt_le_dec k (Zpos (digits2_pos m))) as [| Hle]; [lia |].
    assert (2 ^ Zpos (digits2_pos m) <= 2 ^ k) by (apply Z.pow_le_mono_r; lia). lia. }
  apply digits2_pos_unique; [| lia]. rewrite <- Hq. split.
  - apply Z.div_le_lower_bound; [lia |].
    rewrite <- Z.pow_add_r by lia.
    replace (k + (Zpos (digits2_pos m) - k - 1)) with (Zpos (digits2_pos m) - 1) by lia.
    exact Hl.
  - apply Z.div_lt_upper_bound; [lia |].
    rewrite <- Z.pow_add_r by lia.
    replace (k + (Zpos (digits2_pos m) - k)) with (Zpos (digits2_pos m)) by lia.
    exact Hb.
Qed.

Lemma shr_1_div2 mrs : 0 <= shr_m mrs -> shr_m (shr_1 mrs) = shr_m mrs / 2.
Proof.
  destruct mrs as [m r s0]. cbn [shr_m shr_1]. intros Hm.
  destruct m as [|[p|p|]|p]; cbn [shr_m]; [reflexivity | | | reflexivity | lia].
  - rewrite Pos2Z.inj_xI. rewrite (Z.mul_comm 2), Z.div_add_l by lia.
    rewrite (Z.div_small 1 2) by lia. lia.
  - rewrite Pos2Z.inj_xO. rewrite (Z.mul_comm 2), Z.div_mul by lia. reflexivity.
Qed.

Lemma iter_pos_shr_1 (k : positive) : forall mrs : shr_record,
  0 <= shr_m mrs -> shr_m (SpecFloat.iter_pos shr_1 k mrs) = shr_m mrs / 2 ^ Zpos k.
Proof.
  assert (Hnn : forall mrs, 0 <= shr_m mrs -> 0 <= shr_m (shr_1 mrs)).
  { intros mrs H. rewrite shr_1_div2 by exact H. apply Z.div_pos; lia. }
  induction k as [k IH | k IH |]; intros mrs Hm; cbn [SpecFloat.iter_pos].
  - assert (H1 : 0 <= shr_m (SpecFloat.iter_pos shr_1 k (shr_1 mrs))).
    { rewrite IH by auto. apply Z.div_pos; [auto | apply Z.pow_pos_nonneg; lia]. }
    rewrite IH, IH, shr_1_div2 by auto.
    rewrite !Z.div_div by (try apply Z.pow_pos_nonneg; lia).
    f_equal. rewrite Pos2Z.inj_xI.
    replace (2 * Zpos k + 1) with (1 + Zpos k + Zpos k) by lia.
    rewrite !Z.pow_add_r by lia. lia.
  - assert (H1 : 0 <= shr_m (SpecFloat.iter_pos shr_1 k mrs)).
    { rewrite IH by auto. apply Z.div_pos; [auto | apply Z.pow_pos_nonneg; lia]. }
    rewrite IH, IH by auto.
    rewrite !Z.div_div by (try apply Z.pow_pos_nonneg; lia).
    f_equal. rewrite <- Z.pow_add_r by lia. f_equal. lia.
  - rewrite shr_1_div2 by exact Hm. reflexivity.
Qed.

Lemma shr_record_of_loc_m m l : shr_m (shr_record_of_loc m l) = m.
Proof. by destruct l as [|[| |]]. Qed.

Section BinaryRound.

Variables prec emax : Z.
Hypothesis Hprec : 0 < prec.

Lemma fexp_le a b : a <= b -> fexp prec emax a <= fexp prec emax b.
Proof. unfold fexp. lia. Qed.

(** What [shr_fexp] does to a mantissa: nothing when the exponent is already
    the one of the format or above it, and a division by a power of 2
    otherwise. *)
Lemma shr_fexp_spec m e l :
  0 <= m ->
  let k := fexp prec emax (Zdigits2 m + e) - e in
  (k <= 0 /\ shr_fexp prec emax m e l = (shr_record_of_loc m l, e))
  \/ (0 < k
      /\ shr_m (fst (shr_fexp prec emax m e l)) = m / 2 ^ k
      /\ snd (shr_fexp prec emax m e l) = e + k).
Proof.
  intros Hm k. unfold shr_fexp, shr. fold k.
  destruct k as [|p|p] eqn:Ek.
  - left. by split.
  - right. split; [lia |]. cbn [fst snd]. split; [| reflexivity].
    rewrite iter_pos_shr_1 by (by rewrite shr_record_of_loc_m).
    by rewrite shr_record_of_loc_m.
  - left. split; [lia | reflexivity].
Qed.

(** After [shr_fexp] of a mantissa whose exponent is not above the one of
    the format, a positive mantissa is canonical. *)
Lemma shr_fexp_canonical m e l q :
  0 <= m -> e <= fexp prec emax (Zdigits2 m + e) ->
  shr_m (fst (shr_fexp prec emax m e l)) = Zpos q ->
  canonical_mantissa prec emax q (snd (shr_fexp prec emax m e l)) = true.
Proof.
  intros Hm Hk Hq. unfold canonical_mantissa. apply Z.eqb_eq.
  destruct (shr_fexp_spec m e l Hm) as [[Hle E] | (Hlt & Em & Ee)].
  - rewrite E in *. cbn [fst snd] in *. rewrite shr_record_of_loc_m in Hq. subst m.
    cbn [Zdigits2] in *. lia.
  - rewrite Ee. rewrite Em in Hq.
    destruct m as [|m|m]; [by rewrite Z.div_0_l in Hq by lia | | lia].
    cbn [Zdigits2] in *.
    set (k := fexp prec emax (Zpos (digits2_pos m) + e) - e) in *.
    rewrite (Zdigits2_div_pow2 m k q ltac:(lia) Hq).
    replace (Zpos (digits2_pos m) - k + (e + k)) with (Zpos (digits2_pos m) + e) by lia.
    lia.
Qed.

Lemma round_nearest_even_bounds m l :
  m <= round_nearest_even m l <= m + 1.
Proof. destruct l as [|[| |]]; cbn [round_nearest_even]; try lia. destruct (Z.even m); lia. Qed.

Lemma binary_round_aux_bounded s m e :
  0 < m -> e <= fexp prec emax (Zdigits2 m + e) ->
  valid_binary prec emax (binary_round_aux prec emax s m e loc_Exact) = true.
Proof.
  intros Hm Hk. unfold binary_round_aux.
  destruct (shr_fexp prec emax m e loc_Exact) as [mrs1 e1] eqn:E1.
  set (m1' := round_nearest_even (shr_m mrs1) (loc_of_shr_record mrs1)).
  destruct (shr_fexp prec emax m1' e1 loc_Exact) as [mrs2 e2] eqn:E2.
  destruct (shr_m mrs2) as [|q|q] eqn:Eq; [reflexivity | | reflexivity].
  destruct (Z.leb_spec e2 (emax - prec)) as [Hle |]; [| reflexivity].
  cbn [valid_binary]. unfold bounded. apply andb_true_iff. split; [| by apply Z.leb_le].
  assert (Hm1 : 0 <= shr_m mrs1 /\ e1 = fexp prec emax (Zdigits2 m + e)
                /\ (shr_m mrs1 = m /\ loc_of_shr_record mrs1 = loc_Exact /\ e1 = e
                    \/ 0 < e1 - e /\ shr_m mrs1 = m / 2 ^ (e1 - e))).
  { destruct (shr_fexp_spec m e loc_Exact ltac:(lia)) as [[Hle' E] | (Hlt & Em & Ee)].
    - rewrite E1 in E. injection E as -> ->. cbn [shr_record_of_loc shr_m loc_of_shr_record].
      split; [lia |]. split; [lia |]. left. by repeat split.
    - rewrite E1 in Em, Ee. cbn [fst snd] in Em, Ee. subst e1.
      split; [rewrite Em; apply Z.div_pos; [lia | apply Z.pow_pos_nonneg; lia] |].
      split; [lia |]. right. split; [lia |]. rewrite Em. do 2 f_equal. lia. }
  destruct Hm1 as (Hm1 & He1 & Hcases).
  pose proof (round_nearest_even_bounds (shr_m mrs1) (loc_of_shr_record mrs1)) as Hr.
  fold m1' in Hr.
  assert (Hm1' : 0 < m1').
  { destruct (Z_le_gt_dec m1' 0) as [Hz |]; [| lia]. exfalso.
    assert (m1' = 0) as E0 by lia. rewrite E0 in E2.
    destruct (shr_fexp_spec 0 e1 loc_Exact ltac:(lia)) as [[_ E] | (Hlt & Em & _)].
    - rewrite E2 in E. injection E as E _. rewrite E in Eq. discriminate.
    - rewrite E2 in Em. cbn [fst] in Em. rewrite Z.div_0_l in Em; [congruence |].
      apply Z.pow_nonzero; lia. }
  assert (Hk2 : e1 <= fexp prec emax (Zdigits2 m1' + e1)).
  { destruct Hcases as [(Em & El & Ee) | [Hlt Em]].
    - unfold m1'. rewrite El, Em. cbn [round_nearest_even]. rewrite Ee. exact Hk.
    - destruct (Z_le_gt_dec (shr_m mrs1) 0) as [Hz | Hp].
      + (* everything was shifted out *)
        assert (shr_m mrs1 = 0) as E0 by lia.
        destruct m as [|m|m]; try lia. cbn [Zdigits2] in *.
        pose proof (digits2_pos_lower m) as Hl.
        assert (Hsmall : Zpos m < 2 ^ (e1 - e)).
        { destruct (Z_lt_le_dec (Zpos m) (2 ^ (e1 - e))) as [| Hge]; [lia |].
          exfalso. rewrite E0 in Em. symmetry in Em.
          apply Z.div_small_iff in Em; [| apply Z.pow_nonzero; lia]. lia. }
        assert (Hd : Zpos (digits2_pos m) <= e1 - e).
        { destruct (Z_le_gt_dec (Zpos (digits2_pos m)) (e1 - e)) as [| Hgt]; [lia |].
          exfalso.
          assert (2 ^ (e1 - e) <= 2 ^ (Zpos (digits2_pos m) - 1))
            by (apply Z.pow_le_mono_r; lia). lia. }
        assert (He1' : e1 = emin prec emax) by (unfold fexp in He1; lia).
        assert (Zdigits2 m1' = 1).
        { assert (m1' = 1) as -> by lia. reflexivity. }
        unfold fexp. lia.
      + destruct m as [|m|m]; try lia.
        destruct (shr_m mrs1) as [|q1|q1] eqn:Eq1; try lia.
        symmetry in Em.
        pose proof (Zdigits2_div_pow2 m (e1 - e) q1 ltac:(lia) Em) as Hd.
        pose proof (Zdigits2_le (Zpos q1) m1' ltac:(lia)) as Hmono.
        cbn [Zdigits2] in Hmono, He1.
        rewrite He1 at 1. apply fexp_le. lia. }
  pose proof (shr_fexp_canonical m1' e1 loc_Exact q ltac:(lia) Hk2) as Hcan.
  rewrite E2 in Hcan. cbn [fst snd] in Hcan. by apply Hcan.
Qed.

Lemma Pos_iter_xO m d :
  Zpos (Pos.iter xO m d) = Zpos m * 2 ^ Zpos d
  /\ Zpos (digits2_pos (Pos.iter xO m d)) = Zpos (digits2_pos m) + Zpos d.
Proof.
  induction d as [|d IH] using Pos.peano_ind.
  - cbn [Pos.iter digits2_pos]. split; lia.
  - rewrite Pos.iter_succ. cbn [digits2_pos]. destruct IH as [IH1 IH2].
    rewrite Pos2Z.inj_xO, IH1, !Pos2Z.inj_succ, IH2.
    rewrite Z.pow_succ_r by lia. split; lia.
Qed.

(** The result of rounding to a format is a value of the format. *)
Lemma binary_round_bounded s m e :
  valid_binary prec emax (binary_round prec emax s m e) = true.
Proof.
  unfold binary_round, shl_align.
  destruct (fexp prec emax (Zpos (digits2_pos m) + e) - e) as [|d|d] eqn:Ed.
  - apply binary_round_aux_bounded; [lia |]. cbn [Zdigits2]. lia.
  - apply binary_round_aux_bounded; [lia |]. cbn [Zdigits2]. lia.
  - destruct (Pos_iter_xO m d) as [_ Hd].
    apply binary_round_aux_bounded; [lia |]. cbn [Zdigits2]. rewrite Hd.
    replace (Zpos (digits2_pos m) + Zpos d + fexp prec emax (Zpos (digits2_pos m) + e))
      with (Zpos (digits2_pos m) + e) by lia.
    lia.
Qed.

End BinaryRound.

Lemma to_float32_bounded x : valid_binary 24 128 (to_float32 x) = true.
Proof. destruct x; try reflexivity. apply binary_round_bounded. lia. Qed.

(** The two shapes of a binary32 value: subnormal, or normal with a mantissa
    of 24 bits. *)
Lemma bounded_binary32 m e :
  bounded 24 128 m e = true ->
  (Zpos m < 2 ^ 23 /\ e = -149) \/ (2 ^ 23 <= Zpos m < 2 ^ 24 /\ -149 <= e <= 104).
Proof.
  unfold bounded, canonical_mantissa, fexp, emin.
  intros [Hc He]%andb_true_iff. apply Z.eqb_eq in Hc. apply Z.leb_le in He.
  pose proof (digits2_pos_bound m) as Hb. pose proof (digits2_pos_lower m) as Hl.
  destruct (Z_lt_le_dec (Zpos (digits2_pos m) + e - 24) (3 - 128 - 24)) as [Hsub | Hnorm].
  - left. split; [| lia].
    assert (2 ^ Zpos (digits2_pos m) <= 2 ^ 23) by (apply Z.pow_le_mono_r; lia). lia.
  - right. assert (Zpos (digits2_pos m) = 24) as Hd by lia. rewrite Hd in *.
    change (2 ^ (24 - 1)) with (2 ^ 23) in Hl. lia.
Qed.

Lemma testbit_31 (s : bool) r :
  0 <= r < 2 ^ 31 -> Z.testbit ((if s then 0x80000000 else 0) + r) 31 = s.
Proof.
  intros Hr. rewrite Z.testbit_odd, Z.shiftr_div_pow2 by lia.
  destruct s.
  - replace ((0x80000000 + r) / 2 ^ 31) with 1; [reflexivity |].
    change 0x80000000 with (1 * 2 ^ 31). rewrite Z.div_add_l by lia.
    rewrite Z.div_small by lia. reflexivity.
  - rewrite Z.add_0_l, Z.div_small by lia. reflexivity.
Qed.

(** Decoding the encoding of the binary32 value of a number gives that
    value, and the encoding has 32 bits. *)
Lemma float32_of_bits_float32_bits x :
  float32_of_bits (float32_bits x) = to_float32 x
  /\ 0 <= float32_bits x < 2 ^ 32.
Proof.
  pose proof (to_float32_bounded x) as Hb.
  unfold float32_bits. destruct (to_float32 x) as [s | s | | s m e].
  - split; [| destruct s; lia]. unfold float32_of_bits.
    rewrite <- (Z.add_0_r (if s then _ else _)), testbit_31 by lia.
    rewrite Z.add_0_r. by destruct s.
  - split; [| destruct s; lia]. unfold float32_of_bits.
    rewrite testbit_31 by lia. by destruct s.
  - split; [reflexivity | lia].
  - cbn [valid_binary] in Hb. apply bounded_binary32 in Hb.
    change (2 ^ 23) with 8388608 in *. change (2 ^ 24) with 16777216 in Hb.
    destruct Hb as [[Hm He] | [Hm He]].
    + destruct (Z.ltb_spec (Zpos m) 8388608); [| lia].
      split; [| destruct s; lia]. unfold float32_of_bits.
      rewrite testbit_31 by lia. change (2 ^ 23) with 8388608.
      assert (E1 : ((if s then 2147483648 else 0) + Zpos m) / 8388608 mod 256 = 0)
        by (destruct s; Z.div_mod_to_equations; lia).
      assert (E2 : ((if s then 2147483648 else 0) + Zpos m) mod 8388608 = Zpos m)
        by (destruct s; Z.div_mod_to_equations; lia).
      rewrite E1, E2. cbn [Z.eqb]. by rewrite He.
    + destruct (Z.ltb_spec (Zpos m) 8388608); [lia |].
      split; [| destruct s; lia]. unfold float32_of_bits.
      rewrite testbit_31 by lia. change (2 ^ 23) with 8388608.
      set (bits := (if s then 2147483648 else 0)
                   + ((e + 150) * 8388608 + (Zpos m - 8388608))).
      assert (E1 : bits / 8388608 mod 256 = e + 150)
        by (unfold bits; destruct s; Z.div_mod_to_equations; lia).
      assert (E2 : bits mod 8388608 = Zpos m - 8388608)
        by (unfold bits; destruct s; Z.div_mod_to_equations; lia).
      rewrite E1, E2.
      destruct (Z.eqb_spec (e + 150) 255); [lia |].
      destruct (Z.eqb_spec (e + 150) 0); [lia |].
      replace (Zpos m - 8388608 + 8388608) with (Zpos m) by lia.
      do 2 f_equal. lia.
Qed.

Lemma getFloat32_splice off x le (data : DataView) :
  0 <= off -> off + 4 <= byteLength data ->
  getFloat32 off le (splice (Z.to_nat off) (uint_bytes 4 (float32_bits x) le) data)
  = Normal (float64 (to_float32 x))
      (splice (Z.to_nat off) (uint_bytes 4 (float32_bits x) le) data).
Proof.
  intros H0 H1. pose proof H1 as H1'. unfold byteLength in H1'.
  destruct (float32_of_bits_float32_bits x) as [Hdec Hrange].
  rewrite getFloat32_in_view
    by (rewrite ?byteLength_splice; rewrite ?length_uint_bytes; unfold byteLength; lia).
  f_equal. rewrite drop_splice_start by lia.
  rewrite <- (length_uint_bytes 4 (float32_bits x) le) at 1. rewrite take_app_length.
  rewrite uint_value_uint_bytes, Z.mod_small by exact Hrange.
  by rewrite Hdec.
Qed.

(** X25. A number written by [appendFloat32Value] is read back by
    [getFloat32], at the same position and in the same byte order, as the
    number rounded to the nearest binary32 value (ties to even): what
    [Math.fround] gives. *)
Theorem appendFloat32Value_getFloat32 x dataPosition flag littleEndian s :
  inFloat32Range x = true ->
  0 <= dataPosition -> dataPosition + 4 <= byteLength (data s) ->
  exists s' : Store,
    appendFloat32Value dataPosition flag (JSNumber x) littleEndian s = Normal 4 s'
    /\ getFloat32 dataPosition littleEndian (data s')
       = Normal (float64 (to_float32 x)) (data s')
    /\ valid_binary 24 128 (to_float32 x) = true.
Proof.
  intros Hx H0 H1.
  assert (Hv : validFloat32Value (JSNumber x) = Value true).
  { rewrite validFloat32Value_number. f_equal. exact Hx. }
  exists (appended flag dataPosition (uint_bytes 4 (float32_bits x) littleEndian) s).
  split; [| split; [| apply to_float32_bounded]].
  - unfold appendFloat32Value. rewrite (bind_lift_Value _ _ _ _ Hv). cbn [negb]. cbv zeta.
    rewrite bind_byteLength_fits by lia.
    apply run_written_nil with dataPosition. unfold var. write_step. reflexivity.
  - cbn [appended data]. by apply getFloat32_splice.
Qed.

Lemma appendFloat32Value_getFloat32_witness :
  exists s' : Store,
    appendFloat32Value 1 7 (JSNumber (decimal 1 0)) BIG_ENDIAN testStore = Normal 4 s'
    /\ getFloat32 1 BIG_ENDIAN (data s')
       = Normal (float64 (to_float32 (decimal 1 0))) (data s')
    /\ valid_binary 24 128 (to_float32 (decimal 1 0)) = true.
Proof.
  apply (appendFloat32Value_getFloat32 (decimal 1 0) 1 7 BIG_ENDIAN testStore);
    [vm_compute; reflexivity | lia | vm_compute; discriminate].
Defined.

Section ShapeAlpha.

Variables PROP_COLOR PROP_ALPHA PROP_SHAPE : Z.
Variable PulsePropertyGroup_readEntitySubclassDataFromBuffer :
  Z -> gset Z -> M BufferView Z.
Variable TextDecoder_decode : list Z -> JSValue.

(** X26. A number written little-endian by [appendFloat32Value] is read back
    by the Shape reader as alpha: with the alpha flag set and no other field
    present, the reader returns the number rounded to binary32 and 4 as
    [bytesRead]. *)
Theorem appendFloat32Value_read_back x dataPosition flag s :
  inFloat32Range x = true ->
  0 <= dataPosition -> dataPosition + 4 <= byteLength (data s) ->
  exists s' : Store,
    appendFloat32Value dataPosition flag (JSNumber x) LITTLE_ENDIAN s = Normal 4 s'
    /\ forall (view : BufferView) (propertyFlags : gset Z),
         viewed view = data s' ->
         getHasProperty PROP_COLOR propertyFlags = false ->
         getHasProperty PROP_ALPHA propertyFlags = true ->
         getHasProperty PROP_SHAPE propertyFlags = false ->
         PulsePropertyGroup_readEntitySubclassDataFromBuffer (dataPosition + 4)
           propertyFlags view = Normal 0 view ->
         ShapeEntityItem.readEntitySubclassDataFromBuffer PROP_COLOR PROP_ALPHA PROP_SHAPE
           PulsePropertyGroup_readEntitySubclassDataFromBuffer TextDecoder_decode
           dataPosition propertyFlags view
         = Normal (ShapeEntityItem.mkShapeEntitySubclassData 4
                     [("color", JSUndefined);
                      ("alpha", JSNumber (float64 (to_float32 x)));
                      ("shape", JSUndefined)]) view.
Proof.
  intros Hx H0 H1. pose proof H1 as H1'. unfold byteLength in H1'.
  assert (Hv : validFloat32Value (JSNumber x) = Value true).
  { rewrite validFloat32Value_number. f_equal. exact Hx. }
  exists (appended flag dataPosition (uint_bytes 4 (float32_bits x) LITTLE_ENDIAN) s).
  split.
  - unfold appendFloat32Value. rewrite (bind_lift_Value _ _ _ _ Hv). cbn [negb]. cbv zeta.
    rewrite bind_byteLength_fits by lia.
    apply run_written_nil with dataPosition. unfold var. write_step. reflexivity.
  - intros view propertyFlags Hview Hcolor Halpha Hshape Hpulse.
    cbn [appended data] in Hview.
    pose proof (readShape_fields PROP_COLOR PROP_ALPHA PROP_SHAPE
                  PulsePropertyGroup_readEntitySubclassDataFromBuffer TextDecoder_decode
                  dataPosition propertyFlags view 0 0) as Hrun.
    cbv zeta in Hrun. rewrite Hcolor, Halpha, Hshape in Hrun.
    rewrite !Z.add_0_r in Hrun.
    rewrite Hrun; clear Hrun.
    + cbn [andb]. do 4 f_equal. unfold float32At. rewrite Hview.
      destruct (float32_of_bits_float32_bits x) as [Hdec Hrange].
      rewrite drop_splice_start by (rewrite ?length_uint_bytes; lia).
      rewrite <- (length_uint_bytes 4 (float32_bits x) LITTLE_ENDIAN) at 1.
      rewrite take_app_length.
      rewrite uint_value_uint_bytes, Z.mod_small by exact Hrange.
      by rewrite Hdec.
    + intros ?; discriminate.
    + intros _. rewrite Hview, byteLength_splice by (rewrite length_uint_bytes; lia). lia.
    + exact Hpulse.
    + intros ?; discriminate.
Qed.

End ShapeAlpha.

Lemma appendFloat32Value_read_back_witness :
  exists s' : Store,
    appendFloat32Value 1 7 (JSNumber (num 15)) LITTLE_ENDIAN testStore = Normal 4 s'
    /\ forall (view : BufferView) (propertyFlags : gset Z),
         viewed view = data s' ->
         getHasProperty 1 propertyFlags = false ->
         getHasProperty 2 propertyFlags = true ->
         getHasProperty 3 propertyFlags = false ->
         noPulse (1 + 4) propertyFlags view = Normal 0 view ->
         ShapeEntityItem.readEntitySubclassDataFromBuffer 1 2 3 noPulse asciiDecode 1
           propertyFlags view
         = Normal (ShapeEntityItem.mkShapeEntitySubclassData 4
                     [("color", JSUndefined);
                      ("alpha", JSNumber (float64 (to_float32 (num 15))));
                      ("shape", JSUndefined)]) view.
Proof.
  apply (appendFloat32Value_read_back 1 2 3 noPulse asciiDecode (num 15) 1 7 testStore);
    [vm_compute; reflexivity | lia | vm_compute; discriminate].
Defined.

Example float64_to_float32_15 : float64 (to_float32 (num 15)) = num 15.
Proof. vm_compute. reflexivity. Qed.

Example float64_to_float32_tenth :
  float64 (to_float32 (S754_finite false 7205759403792794 (-56)))
  = S754_finite false 7205759511166976 (-56).
Proof. vm_compute. reflexivity. Qed.

(** ** The bytes every appender writes *)

Lemma bitsByte_range elements :
  0 <= bitsByte elements < 2 ^ Z.of_nat (length elements).
Proof.
  induction elements as [|element rest IH]; [simpl; lia |].
  cbn [bitsByte length]. rewrite Nat2Z.inj_succ, Z.pow_succ_r by lia.
  destruct (ToBoolean element); lia.
Qed.

Lemma bitsByte_testbit elements (j : nat) :
  Z.testbit (bitsByte elements) (Z.of_nat j) = ToBoolean (nth j elements JSUndefined).
Proof.
  revert j. induction elements as [|element rest IH]; intros j.
  - destruct j; apply Z.bits_0.
  - cbn [bitsByte].
    replace ((if ToBoolean element then 1 else 0) + 2 * bitsByte rest)
      with (2 * bitsByte rest + Z.b2z (ToBoolean element))
      by (destruct (ToBoolean element); simpl; lia).
    destruct j as [|j].
    + apply Z.testbit_0_r.
    + rewrite Nat2Z.inj_succ, Z.testbit_succ_r by lia. apply IH.
Qed.

Lemma ToBoolean_nth_booleans (bools : list bool) (i : nat) :
  ToBoolean (nth i (map JSBoolean bools) JSUndefined) = nth i bools false.
Proof.
  revert i. induction bools as [|b rest IH]; intros [|i]; try reflexivity. apply IH.
Qed.

Lemma length_packedBooleans elements :
  Z.of_nat (length (packedBooleans elements)) = (Z.of_nat (length elements) + 7) / 8.
Proof.
  unfold packedBooleans. rewrite length_map, length_seq.
  rewrite Nat2Z.inj_div, Nat2Z.inj_add. reflexivity.
Qed.

(** The loop of [appendBooleanArray] writes the packed bytes. *)
Lemma writes_at_packedBooleans (bools : list bool) index :
  writes_at index (packBooleans (map JSBoolean bools) index 0 0)
    (packedBooleans (map JSBoolean bools)).
Proof.
  destruct (packBooleans_bits bools index 0 0 ltac:(lia) ltac:(intros; apply Z.bits_0))
    as (bs & W & Hlen & Hrange & Hbits).
  assert (Hlen' : Z.of_nat (length bs) = (Z.of_nat (length bools) + 7) / 8)
    by (rewrite Hlen; destruct bools; reflexivity).
  clear Hlen.
  replace (packedBooleans (map JSBoolean bools)) with bs; [exact W |].
  pose proof (length_packedBooleans (map JSBoolean bools)) as Hlenp.
  rewrite length_map in Hlenp.
  apply (nth_ext _ _ 0 0); [lia |].
  intros k Hk.
  pose proof (proj1 (Forall_nth _ 0 bs) Hrange k Hk) as Hbyte. cbn beta in Hbyte.
  set (chunk := take 8 (drop (8 * k) (map JSBoolean bools))).
  assert (Hnth : nth k (packedBooleans (map JSBoolean bools)) 0 = bitsByte chunk).
  { unfold packedBooleans.
    rewrite (nth_indep _ 0 (bitsByte (take 8 (drop (8 * 0) (map JSBoolean bools)))))
      by (rewrite length_map, length_seq; apply Nat2Z.inj_lt;
          rewrite Nat2Z.inj_div, Nat2Z.inj_add, length_map; simpl Z.of_nat; lia).
    rewrite (map_nth (fun k => bitsByte (take 8 (drop (8 * k) (map JSBoolean bools))))).
    rewrite seq_nth
      by (apply Nat2Z.inj_lt; rewrite Nat2Z.inj_div, Nat2Z.inj_add, length_map;
          simpl Z.of_nat; lia).
    reflexivity. }
  rewrite Hnth.
  assert (Hchunk : 0 <= bitsByte chunk < 256).
  { pose proof (bitsByte_range chunk) as Hr.
    assert (length chunk <= 8)%nat by (unfold chunk; rewrite length_take; lia).
    assert (2 ^ Z.of_nat (length chunk) <= 2 ^ 8) by (apply Z.pow_le_mono_r; lia).
    lia. }
  apply Z.bits_inj'. intros j Hj.
  destruct (Z_lt_le_dec j 8) as [Hlow | Hhigh].
  - specialize (Hbits (8 * Z.of_nat k + j) ltac:(lia)).
    replace ((8 * Z.of_nat k + j) / 8) with (Z.of_nat k) in Hbits
      by (Z.div_mod_to_equations; lia).
    replace ((8 * Z.of_nat k + j) mod 8) with j in Hbits by (Z.div_mod_to_equations; lia).
    rewrite Nat2Z.id in Hbits. rewrite Hbits.
    destruct (Z.ltb_spec (8 * Z.of_nat k + j) 0); [lia |].
    rewrite Z.sub_0_r.
    rewrite <- (Z2Nat.id j) at 2 by lia. rewrite bitsByte_testbit.
    unfold chunk. rewrite nth_firstn.
    destruct (Nat.ltb_spec (Z.to_nat j) 8); [| lia].
    rewrite nth_skipn, ToBoolean_nth_booleans. f_equal. lia.
  - rewrite <- (Z.mod_small (nth k bs 0) (2 ^ 8)) by (change (2 ^ 8) with 256; lia).
    rewrite <- (Z.mod_small (bitsByte chunk) (2 ^ 8)) by (change (2 ^ 8) with 256; lia).
    rewrite !Z.mod_pow2_bits_high by lia. reflexivity.
Qed.

Lemma booleans_of_elements elements :
  every (fun element => typeof_is element "boolean") elements = Value true ->
  exists bools : list bool, elements = map JSBoolean bools.
Proof.
  induction elements as [|element rest IH]; intros Hv.
  - by exists [].
  - cbn [every] in Hv. apply and_then_true in Hv as [He Hrest].
    destruct (IH Hrest) as (bools & ->).
    destruct element; try discriminate. by exists (b :: bools).
Qed.

Lemma length_countBytes n : length (countBytes n) = 2%nat.
Proof. apply length_uint_bytes. Qed.

Lemma length_storedBytes bytes : length (storedBytes bytes) = length bytes.
Proof. apply length_map. Qed.

Section WireImage.

Variable packedQuat : JSValue -> Z.

Ltac open_appender Hv :=
  unfold appendAACubeValue, appendArrayBufferValue, appendBooleanArray, appendBooleanValue,
    appendColorValue, appendFloat32Value, appendQuatArray, appendQuatValue, appendRectValue,
    appendStringValue, appendUint8Value, appendUint16Value, appendUint32Value,
    appendUint64Value, appendUuidArray, appendVec2Value, appendVec3Array, appendVec3Value;
  rewrite (bind_lift_Value _ _ _ _ Hv); cbn [negb]; cbv zeta.

Ltac wire_bytes :=
  cbn [serialized]; unfold uint8Bytes, uint16Bytes, uint32Bytes, float32Bytes, numberOf;
  rewrite_values.

Ltac simple_writes Hv pos :=
  open_appender Hv;
  rewrite bind_byteLength_fits by lia;
  repeat match type of Hv with ?v _ = _ => unfold v in Hv end;
  valid_inv Hv;
  split;
  [ wire_bytes; apply run_written_nil with pos; rewrite_values; repeat write_step;
    reflexivity
  | wire_bytes; length_tac ].

(** A valid value that fits is written as its wire image. *)
Lemma append_writes a pos flag value littleEndian s :
  valid a value = Value true ->
  0 <= pos -> pos + serializedSize a value <= byteLength (data s) ->
  append packedQuat a pos flag value littleEndian s
  = Normal (serializedSize a value)
      (appended flag pos (serialized packedQuat a value littleEndian) s)
  /\ Z.of_nat (length (serialized packedQuat a value littleEndian)) = serializedSize a value.
Proof.
  intros Hv H0 H1.
  destruct a; cbn [valid serializedSize append] in *; try (simple_writes Hv pos).
  - (* byte array *)
    open_appender Hv. rewrite bind_byteLength_fits by lia.
    split.
    + apply run_written_nil with pos. do 2 write_step. reflexivity.
    + cbn [serialized]. rewrite length_app, length_countBytes, length_storedBytes. lia.
  - (* boolean array *)
    open_appender Hv. rewrite bind_byteLength_fits by lia.
    unfold validBooleanArray in Hv.
    apply and_then_true in Hv as [_ Hv]. apply and_then_true in Hv as [_ Hv].
    destruct (booleans_of_elements _ Hv) as (bools & Hbools).
    pose proof (length_packedBooleans (elements_of value)) as Hlen.
    pose proof (writes_at_packedBooleans bools (pos + 2)) as W.
    rewrite <- Hbools in W.
    split.
    + apply run_written_nil with pos. do 2 write_step. reflexivity.
    + cbn [serialized]. rewrite length_app, length_countBytes, Nat2Z.inj_add, Hlen. lia.
  - (* boolean *)
    open_appender Hv. rewrite bind_byteLength_fits by lia.
    split; [| reflexivity].
    apply run_written_nil with pos. write_step. cbn [serialized].
    by destruct (ToBoolean value).
  - (* quat array *)
    open_appender Hv. rewrite bind_byteLength_fits by lia.
    set (f := fun element => uint_bytes 8 (packedQuat element) LITTLE_ENDIAN).
    assert (W : writes_at (pos + 2)
                  (forEach (elements_of value) (pos + 2) 8 (fun index element =>
                     packOrientationQuatToBytes packedQuat index element))
                  (concat (map f (elements_of value)))).
    { apply (writes_at_forEach_concat (fun _ => True)); [| by apply Forall_true].
      intros element off _. split; [unfold f; by rewrite length_uint_bytes |].
      apply writes_at_packOrientationQuatToBytes. }
    assert (Hlen : Z.of_nat (length (concat (map f (elements_of value))))
                   = 8 * Z.of_nat (length (elements_of value))).
    { rewrite (length_concat_map f 8) by (intros; apply length_uint_bytes). lia. }
    split.
    + apply run_written_nil with pos. do 2 write_step.
      rewrite (Z.mul_comm _ 8). reflexivity.
    + cbn [serialized]. fold f. rewrite length_app, length_countBytes, Nat2Z.inj_add, Hlen. lia.
  - (* string *)
    open_appender Hv. rewrite bind_byteLength_fits by lia.
    split.
    + apply run_written_nil with pos. do 2 write_step. reflexivity.
    + cbn [serialized]. rewrite length_app, length_countBytes, length_storedBytes. lia.
  - (* uint64 *)
    open_appender Hv. rewrite bind_byteLength_fits by lia.
    unfold validUint64Value in Hv. valid_inv Hv.
    injection E as <-. destruct value; try discriminate.
    split.
    + apply run_written_nil with pos. write_step. reflexivity.
    + cbn [serialized]. length_tac.
  - (* UUID array *)
    open_appender Hv. rewrite bind_byteLength_fits by lia.
    unfold validUuidArray in Hv.
    apply and_then_true in Hv as [_ Hv]. apply and_then_true in Hv as [_ Hv].
    apply every_true in Hv.
    assert (W : writes_at (pos + 2)
                  (forEach (elements_of value) (pos + 2) 16 (fun index uuid =>
                     data_setBigUint128 index (call_value uuid) BIG_ENDIAN))
                  (concat (map uuidBytes (elements_of value)))).
    { apply (writes_at_forEach_concat (fun uuid => instanceof_Uuid uuid = true)).
      - intros uuid off Hu. destruct uuid; try discriminate. cbn [uuidBytes call_value].
        split; [by rewrite length_uint_bytes |].
        rewrite <- u128_bytes_uint_bytes. apply writes_at_data_setBigUint128.
      - eapply Forall_impl; [exact Hv |]. intros uuid Hu. by injection Hu. }
    assert (Hlen : Z.of_nat (length (concat (map uuidBytes (elements_of value))))
                   = 16 * Z.of_nat (length (elements_of value))).
    { rewrite (length_concat_map uuidBytes 16); [lia |].
      intros uuid Hin. rewrite Forall_forall in Hv.
      apply list_elem_of_In, Hv in Hin. destruct uuid; try discriminate.
      apply length_uint_bytes. }
    split.
    + apply run_written_nil with pos. do 2 write_step.
      rewrite (Z.mul_comm _ 16). reflexivity.
    + cbn [serialized]. rewrite length_app, length_countBytes, Nat2Z.inj_add, Hlen. lia.
  - (* UUID *)
    unfold appendUuidValue. rewrite (bind_lift_Value _ _ _ _ Hv). cbn [negb].
    destruct value; try discriminate. simpl call_isNull.
    rewrite (bind_lift_Value _ _ _ _ eq_refl). cbn [serialized].
    destruct (Uuid_isNull u); cbv zeta; rewrite bind_byteLength_fits by lia.
    + split; [| reflexivity].
      apply run_written_nil with pos. write_step. reflexivity.
    + simpl call_value. split.
      * apply run_written_nil with pos. do 2 write_step.
        cbn [uuidBytes]. rewrite <- u128_bytes_uint_bytes. reflexivity.
      * cbn [uuidBytes]. rewrite length_app, length_countBytes, length_uint_bytes. lia.
  - (* vec3 array *)
    open_appender Hv. rewrite bind_byteLength_fits by lia.
    unfold validVec3Array in Hv.
    apply and_then_true in Hv as [_ Hv]. apply and_then_true in Hv as [_ Hv].
    apply every_true in Hv.
    assert (W : writes_at (pos + 2)
                  (forEach (elements_of value) (pos + 2) 12 (fun index element =>
                     data_setFloat32 index element#"x" LITTLE_ENDIAN;;
                     data_setFloat32 (index + 4) element#"y" LITTLE_ENDIAN;;
                     data_setFloat32 (index + 8) element#"z" LITTLE_ENDIAN))
                  (concat (map vec3Bytes (elements_of value)))).
    { apply (writes_at_forEach_concat (fun element => validVec3 element = Value true));
        [| exact Hv].
      intros element off He. destruct (vec3_chunk element He) as (Hlen & W & _).
      split; [exact Hlen | apply W]. }
    assert (Hlen : Z.of_nat (length (concat (map vec3Bytes (elements_of value))))
                   = 12 * Z.of_nat (length (elements_of value))).
    { rewrite (length_concat_map vec3Bytes 12); [lia |].
      intros element Hin. rewrite Forall_forall in Hv.
      apply list_elem_of_In, Hv in Hin.
      destruct (vec3_chunk element Hin) as (Hl & _). lia. }
    split.
    + apply run_written_nil with pos. do 2 write_step.
      rewrite (Z.mul_comm _ 12). reflexivity.
    + cbn [serialized]. rewrite length_app, length_countBytes, Nat2Z.inj_add, Hlen. lia.
  - (* vec3 *)
    unfold validVec3Value in Hv. destruct (vec3_chunk value Hv) as (Hlen & _ & Happ).
    split; [by apply Happ | exact Hlen].
Qed.

End WireImage.

(** The wire images of the values of the unit tests. *)
Example serialized_test :
  serialized noQuat ColorValue testColor false = [0xf0; 0x25; 0x94]
  /\ serialized noQuat UuidValue (JSUuid (mkUuid 0xa82f40b6ee8946ccb50402b88d72a546 false))
       false
     = [0x10; 0x00; 0xa8; 0x2f; 0x40; 0xb6; 0xee; 0x89; 0x46; 0xcc; 0xb5; 0x04; 0x02; 0xb8;
        0x8d; 0x72; 0xa5; 0x46]
  /\ serialized noQuat UuidValue (JSUuid (mkUuid 0 true)) false = [0; 0]
  /\ serialized noQuat Float32Value (JSNumber (num 15)) true = [0x00; 0x00; 0x70; 0x41]
  /\ serialized noQuat Float32Value (JSNumber (num 15)) false = [0x41; 0x70; 0x00; 0x00]
  /\ serialized noQuat BooleanValue (JSBoolean true) false = [1]
  /\ serialized noQuat Uint16Value (JSNumber (num 258)) true = [2; 1]
  /\ serialized noQuat StringValue (JSString [67; 117; 98; 101]) false
     = [4; 0; 67; 117; 98; 101]
  /\ serialized noQuat BooleanArray
       (JSArray (map JSBoolean [true; false; true; false; false; false; false; false; true]))
       false
     = [9; 0; 5; 1].
Proof. vm_compute. repeat split; reflexivity. Qed.

Section AppendersWrite.

Variable packedQuat : JSValue -> Z.

(** C1. An appender whose value passes its validity check and fits at a
    position of the packet ([0 <= dataPosition] and [dataPosition + N <=
    data.byteLength], [N] the serialized size) returns [N]; it has written
    the [N] bytes of the value's wire image from [dataPosition] on and no
    other byte, removed [flag] from [propertiesToWrite], added it to
    [propertiesWritten], counted one more property, and left [appendState]
    (and the console) as they were. *)
Theorem append_success a dataPosition flag value littleEndian s :
  valid a value = Value true ->
  0 <= dataPosition ->
  dataPosition + serializedSize a value <= byteLength (data s) ->
  exists s' : Store,
    append packedQuat a dataPosition flag value littleEndian s
      = Normal (serializedSize a value) s'
    /\ Z.of_nat (length (serialized packedQuat a value littleEndian)) = serializedSize a value
    /\ data s' = take (Z.to_nat dataPosition) (data s)
                 ++ serialized packedQuat a value littleEndian
                 ++ drop (Z.to_nat (dataPosition + serializedSize a value)) (data s)
    /\ take (Z.to_nat (serializedSize a value)) (drop (Z.to_nat dataPosition) (data s'))
       = serialized packedQuat a value littleEndian
    /\ propertiesToWrite (packetContext s')
       = propertiesToWrite (packetContext s) ∖ {[flag]}
    /\ getHasProperty flag (propertiesToWrite (packetContext s')) = false
    /\ propertiesWritten (packetContext s')
       = propertiesWritten (packetContext s) ∪ {[flag]}
    /\ getHasProperty flag (propertiesWritten (packetContext s')) = true
    /\ propertyCount (packetContext s') = propertyCount (packetContext s) + 1
    /\ appendState (packetContext s') = appendState (packetContext s)
    /\ console s' = console s.
Proof.
  intros Hv H0 H1.
  destruct (append_writes packedQuat a dataPosition flag value littleEndian s Hv H0 H1)
    as (Hrun & Hlen).
  set (bs := serialized packedQuat a value littleEndian) in *.
  exists (appended flag dataPosition bs s).
  split; [exact Hrun |]. split; [exact Hlen |].
  assert (Hdata : data (appended flag dataPosition bs s)
                  = take (Z.to_nat dataPosition) (data s) ++ bs
                    ++ drop (Z.to_nat (dataPosition + serializedSize a value)) (data s)).
  { cbn [appended data]. unfold splice. do 3 f_equal. lia. }
  split; [exact Hdata |]. split.
  { rewrite Hdata. unfold byteLength in H1.
    rewrite drop_app_length' by (rewrite length_take; lia).
    rewrite take_app_length' by lia. reflexivity. }
  cbn [appended packetContext committed propertiesToWrite propertiesWritten
       propertyCount appendState console].
  unfold getHasProperty.
  repeat split.
  - apply bool_decide_eq_false. rewrite elem_of_difference, elem_of_singleton.
    intros [_ Hne]. by apply Hne.
  - apply bool_decide_eq_true. rewrite elem_of_union, elem_of_singleton. by right.
Qed.

(** X8. Two appenders called one after the other, the second at the position
    the first reported, write their values side by side: when both values are
    valid and fit together, the packet holds the wire image of the first value
    at [dataPosition], still in place after the second call, the wire image of
    the second directly behind it, and the rest of the packet is as it was;
    both flags have moved from [propertiesToWrite] to [propertiesWritten] and
    two properties have been counted. *)
Theorem append_append a1 a2 dataPosition flag1 flag2 value1 value2 le1 le2 s :
  let bs1 := serialized packedQuat a1 value1 le1 in
  let bs2 := serialized packedQuat a2 value2 le2 in
  valid a1 value1 = Value true -> valid a2 value2 = Value true ->
  0 <= dataPosition ->
  dataPosition + serializedSize a1 value1 + serializedSize a2 value2
    <= byteLength (data s) ->
  exists s1 s2 : Store,
    append packedQuat a1 dataPosition flag1 value1 le1 s
      = Normal (serializedSize a1 value1) s1
    /\ append packedQuat a2 (dataPosition + serializedSize a1 value1) flag2 value2 le2 s1
       = Normal (serializedSize a2 value2) s2
    /\ Z.of_nat (length bs1) = serializedSize a1 value1
    /\ Z.of_nat (length bs2) = serializedSize a2 value2
    /\ data s1 = take (Z.to_nat dataPosition) (data s) ++ bs1
                 ++ drop (Z.to_nat dataPosition + length bs1) (data s)
    /\ data s2 = take (Z.to_nat dataPosition) (data s) ++ bs1 ++ bs2
                 ++ drop (Z.to_nat dataPosition + length bs1 + length bs2) (data s)
    /\ propertiesToWrite (packetContext s2)
       = propertiesToWrite (packetContext s) ∖ {[flag1; flag2]}
    /\ propertiesWritten (packetContext s2)
       = propertiesWritten (packetContext s) ∪ {[flag1; flag2]}
    /\ propertyCount (packetContext s2) = propertyCount (packetContext s) + 2
    /\ appendState (packetContext s2) = appendState (packetContext s).
Proof.
  intros bs1 bs2 Hv1 Hv2 H0 H1.
  pose proof (serializedSize_pos a1 value1 Hv1) as Hp1.
  pose proof (serializedSize_pos a2 value2 Hv2) as Hp2.
  destruct (append_writes packedQuat a1 dataPosition flag1 value1 le1 s Hv1 H0 ltac:(lia))
    as (E1 & Hlen1).
  fold bs1 in E1, Hlen1.
  set (s1 := appended flag1 dataPosition bs1 s) in *.
  assert (Hs1 : byteLength (data s1) = byteLength (data s)).
  { unfold s1. cbn [appended data]. apply byteLength_splice.
    unfold byteLength in H1. lia. }
  destruct (append_writes packedQuat a2 (dataPosition + serializedSize a1 value1) flag2
              value2 le2 s1 Hv2 ltac:(lia) ltac:(lia)) as (E2 & Hlen2).
  fold bs2 in E2, Hlen2.
  exists s1, (appended flag2 (dataPosition + serializedSize a1 value1) bs2 s1).
  unfold byteLength in H1.
  split; [exact E1 |]. split; [exact E2 |]. split; [exact Hlen1 |]. split; [exact Hlen2 |].
  split; [reflexivity |]. split.
  { unfold s1. cbn [appended data].
    replace (Z.to_nat (dataPosition + serializedSize a1 value1))
      with (Z.to_nat dataPosition + length bs1)%nat by lia.
    rewrite splice_app by lia. unfold splice.
    by rewrite length_app, <- app_assoc, Nat.add_assoc. }
  unfold s1.
  cbn [appended packetContext committed propertiesToWrite propertiesWritten
       propertyCount appendState].
  repeat split.
  - apply leibniz_equiv. intros x.
    rewrite !elem_of_difference, elem_of_union, !elem_of_singleton. tauto.
  - apply leibniz_equiv. intros x.
    rewrite !elem_of_union, !elem_of_singleton. tauto.
  - lia.
Qed.

(** X24. A value that did not fit does not spoil the packet for a smaller
    one: after a call that returned 0 and set PARTIAL, another valid value
    that fits at the same position is written there in full, as its wire
    image, and counted; the state stays PARTIAL, and the flag of the value
    that did not fit is still in [propertiesToWrite] unless it is the flag
    just written. *)
Theorem append_after_partial a1 a2 dataPosition flag1 flag2 value1 value2 le1 le2 s :
  valid a1 value1 = Value true ->
  byteLength (data s) < dataPosition + serializedSize a1 value1 ->
  valid a2 value2 = Value true ->
  0 <= dataPosition -> dataPosition + serializedSize a2 value2 <= byteLength (data s) ->
  exists s1 s2 : Store,
    append packedQuat a1 dataPosition flag1 value1 le1 s = Normal 0 s1
    /\ data s1 = data s
    /\ append packedQuat a2 dataPosition flag2 value2 le2 s1
       = Normal (serializedSize a2 value2) s2
    /\ Z.of_nat (length (serialized packedQuat a2 value2 le2)) = serializedSize a2 value2
    /\ data s2 = take (Z.to_nat dataPosition) (data s)
                 ++ serialized packedQuat a2 value2 le2
                 ++ drop (Z.to_nat (dataPosition + serializedSize a2 value2)) (data s)
    /\ appendState (packetContext s2) = PARTIAL
    /\ propertyCount (packetContext s2) = propertyCount (packetContext s) + 1
    /\ propertiesWritten (packetContext s2) = propertiesWritten (packetContext s) ∪ {[flag2]}
    /\ propertiesToWrite (packetContext s2) = propertiesToWrite (packetContext s) ∖ {[flag2]}.
Proof.
  intros Hv1 Hno Hv2 H0 H1.
  set (s1 := with_context (partial (packetContext s)) s).
  destruct (append_writes packedQuat a2 dataPosition flag2 value2 le2 s1 Hv2 H0 H1)
    as (E2 & Hlen).
  exists s1, (appended flag2 dataPosition (serialized packedQuat a2 value2 le2) s1).
  split; [by apply append_does_not_fit |]. split; [reflexivity |].
  split; [exact E2 |]. split; [exact Hlen |].
  split; [| by repeat split].
  cbn [appended data s1 with_context]. unfold splice. do 3 f_equal. lia.
Qed.

End AppendersWrite.

Lemma append_success_witness :
  exists s' : Store,
    append noQuat ColorValue 1 7 testColor false testStore
      = Normal (serializedSize ColorValue testColor) s'
    /\ Z.of_nat (length (serialized noQuat ColorValue testColor false))
       = serializedSize ColorValue testColor
    /\ data s' = take (Z.to_nat 1) (data testStore)
                 ++ serialized noQuat ColorValue testColor false
                 ++ drop (Z.to_nat (1 + serializedSize ColorValue testColor)) (data testStore)
    /\ take (Z.to_nat (serializedSize ColorValue testColor)) (drop (Z.to_nat 1) (data s'))
       = serialized noQuat ColorValue testColor false
    /\ propertiesToWrite (packetContext s')
       = propertiesToWrite (packetContext testStore) ∖ {[7]}
    /\ getHasProperty 7 (propertiesToWrite (packetContext s')) = false
    /\ propertiesWritten (packetContext s')
       = propertiesWritten (packetContext testStore) ∪ {[7]}
    /\ getHasProperty 7 (propertiesWritten (packetContext s')) = true
    /\ propertyCount (packetContext s') = propertyCount (packetContext testStore) + 1
    /\ appendState (packetContext s') = appendState (packetContext testStore)
    /\ console s' = console testStore.
Proof.
  apply (append_success noQuat ColorValue 1 7 testColor false testStore);
    [vm_compute; reflexivity | lia | vm_compute; discriminate].
Defined.

Lemma append_append_witness :
  exists s1 s2 : Store,
    append noQuat ColorValue 0 7 testColor false testStore
      = Normal (serializedSize ColorValue testColor) s1
    /\ append noQuat BooleanValue (0 + serializedSize ColorValue testColor) 9
         (JSBoolean true) false s1
       = Normal (serializedSize BooleanValue (JSBoolean true)) s2
    /\ Z.of_nat (length (serialized noQuat ColorValue testColor false))
       = serializedSize ColorValue testColor
    /\ Z.of_nat (length (serialized noQuat BooleanValue (JSBoolean true) false))
       = serializedSize BooleanValue (JSBoolean true)
    /\ data s1 = take (Z.to_nat 0) (data testStore)
                 ++ serialized noQuat ColorValue testColor false
                 ++ drop (Z.to_nat 0 + length (serialized noQuat ColorValue testColor false))
                      (data testStore)
    /\ data s2 = take (Z.to_nat 0) (data testStore)
                 ++ serialized noQuat ColorValue testColor false
                 ++ serialized noQuat BooleanValue (JSBoolean true) false
                 ++ drop (Z.to_nat 0 + length (serialized noQuat ColorValue testColor false)
                          + length (serialized noQuat BooleanValue (JSBoolean true) false))
                      (data testStore)
    /\ propertiesToWrite (packetContext s2)
       = propertiesToWrite (packetContext testStore) ∖ {[7; 9]}
    /\ propertiesWritten (packetContext s2)
       = propertiesWritten (packetContext testStore) ∪ {[7; 9]}
    /\ propertyCount (packetContext s2) = propertyCount (packetContext testStore) + 2
    /\ appendState (packetContext s2) = appendState (packetContext testStore).
Proof.
  apply (append_append noQuat ColorValue BooleanValue 0 7 9 testColor (JSBoolean true)
           false false testStore);
    [vm_compute; reflexivity | vm_compute; reflexivity | lia | vm_compute; discriminate].
Defined.

Lemma append_after_partial_witness :
  exists s1 s2 : Store,
    append noQuat Vec3Value 1 9 testVec3 false testStore = Normal 0 s1
    /\ data s1 = data testStore
    /\ append noQuat ColorValue 1 7 testColor false s1
       = Normal (serializedSize ColorValue testColor) s2
    /\ Z.of_nat (length (serialized noQuat ColorValue testColor false))
       = serializedSize ColorValue testColor
    /\ data s2 = take (Z.to_nat 1) (data testStore)
                 ++ serialized noQuat ColorValue testColor false
                 ++ drop (Z.to_nat (1 + serializedSize ColorValue testColor)) (data testStore)
    /\ appendState (packetContext s2) = PARTIAL
    /\ propertyCount (packetContext s2) = propertyCount (packetContext testStore) + 1
    /\ propertiesWritten (packetContext s2)
       = propertiesWritten (packetContext testStore) ∪ {[7]}
    /\ propertiesToWrite (packetContext s2)
       = propertiesToWrite (packetContext testStore) ∖ {[7]}.
Proof.
  apply (append_after_partial noQuat Vec3Value ColorValue 1 9 7 testVec3 testColor
           false false testStore);
    [vm_compute; reflexivity | vm_compute; reflexivity | vm_compute; reflexivity | lia
    | vm_compute; discriminate].
Defined.
